(** * igm: the modeling step (igm/steps/ModelingStep.py)

    A shallow embedding of the map/reduce coordination layer of the
    modeling step: the per-member task, the statistics aggregator run by
    the completion poller, and the store repacking of [reduce].

    Numbers.  Python floats and JSON numbers are embedded as exact
    rationals ([Qc], canonical fractions, Leibniz equality), so rounding,
    NaN and infinite values are not represented; counts that numpy returns
    as integers are [nat]. *)

From Stdlib Require Import QArith Qcanon Qround.
From stdpp Require Import gmap strings list fin_maps numbers pretty.

Local Open Scope Qc_scope.

(** ** Module constants *)

Definition DEFAULT_HIST_BINS : nat := 100.
Definition DEFAULT_HIST_MAX : Qc := Q2Qc (1 # 10).

(** ** Rational helpers *)

Definition Qc_of_nat (n : nat) : Qc := Qc_of_Z (Z.of_nat n).

(** [np.inf] appears as the last histogram edge. *)
Inductive Edge := Fin (q : Qc) | Inf.

(** ** numpy primitives used by the step *)

(** [np.count_nonzero(v > c)] *)
Definition count_gt (c : Qc) (v : list Qc) : nat :=
  length (filter (λ x, c < x) v).

(** [v[v <= c]] *)
Definition select_le (c : Qc) (v : list Qc) : list Qc :=
  filter (λ x, x ≤ c) v.

Definition sum_nat (l : list nat) : nat := foldr Nat.add 0%nat l.

(** The outer edges of [np.histogram]: an empty range [lo = hi] is widened
    by one half on each side. *)
Definition outer_edges (lo hi : Qc) : Qc * Qc :=
  if decide (lo = hi) then (lo - Q2Qc (1 # 2), hi + Q2Qc (1 # 2)) else (lo, hi).

(** Bin of a sample inside [[lo, hi]] for [bins] equal-width bins: every
    bin is half open but the last, which also holds [hi]. *)
Definition bin_index (bins : nat) (lo hi x : Qc) : nat :=
  let i := Z.to_nat (Qfloor ((x - lo) * Qc_of_nat bins / (hi - lo))%Qc) in
  if (i =? bins)%nat then (bins - 1)%nat else i.

Definition in_range (lo hi x : Qc) : bool :=
  bool_decide (lo ≤ x) && bool_decide (x ≤ hi).

Definition bincount (bins : nat) (lo hi : Qc) (a : list Qc) : list nat :=
  foldl (λ H x, if in_range lo hi x then alter S (bin_index bins lo hi x) H else H)
        (replicate bins 0%nat) a.

(** [np.linspace(lo, hi, bins + 1)] *)
Definition linspace (bins : nat) (lo hi : Qc) : list Qc :=
  (λ k : nat, lo + Qc_of_nat k * (hi - lo) / Qc_of_nat bins) <$> seq 0 (S bins).

(** [np.histogram(a, bins=bins, range=(lo, hi))]; [None] is the
    [ValueError] numpy raises for no bins or a reversed range. *)
Definition np_histogram (a : list Qc) (bins : nat) (lo hi : Qc)
  : option (list nat * list Qc) :=
  if (bins =? 0)%nat then None
  else if decide (hi < lo) then None
  else let '(lo', hi') := outer_edges lo hi in
       Some (bincount bins lo' hi' a, linspace bins lo' hi').

(** ** [get_violation_histogram] *)

Definition get_violation_histogram (v : list Qc) (nbins : nat) (vmax : Qc)
  : option (list nat * list Edge) :=
  let over := count_gt vmax v in
  let inner := select_le vmax v in
  '(H, edges) ← np_histogram inner nbins 0 vmax;
  Some (H ++ [over], (Fin <$> edges) ++ [Inf]).

(** The call sites pass no keyword: [get_violation_histogram(vs)] uses
    [nbins=DEFAULT_HIST_BINS, vmax=1]. *)
Definition get_violation_histogram_default (v : list Qc)
  : option (list nat * list Edge) :=
  get_violation_histogram v DEFAULT_HIST_BINS 1.

(** ** Exceptions and results *)

Inductive Exc :=
| KeyError | IndexError | ValueError | TypeError | AttributeError | IOError
| ZeroDivisionError
| RuntimeError (msg : string).

Inductive Res (A : Type) := Ok (a : A) | Raise (e : Exc).
Arguments Ok {A} a.
Arguments Raise {A} e.

Definition is_ok {A} (r : Res A) : bool :=
  match r with Ok _ => true | Raise _ => false end.

(** ** Data model *)

Definition Coord : Type := Qc * Qc * Qc.
Definition Crd : Type := list Coord.

(** A force of the model: [f.rnum] interactions and their violation
    ratios ([getViolationRatios] for several, [getViolationRatio] for
    one). *)
Record Force := {
  rnum : nat;
  getViolationRatios : list Qc;
  getViolationRatio : Qc
}.

(** A monitored restraint: [repr(r)] and the forces [r.forceID] names. *)
Record Restraint := {
  repr : string;
  forces : list Force
}.

(** The JSON record of one restraint, as [set_structure] reads it:
    [cstat['histogram']['counts']], [cstat.get('n_violations', 0)],
    [cstat.get('n_imposed', 0)].  A missing key is [None]. *)
Record CStat := {
  cs_edges : list Edge;
  cs_counts : option (list Qc);
  cs_n_violations : option Qc;
  cs_n_imposed : option Qc
}.

(** A value of the parsed dict: a record dict, or another JSON value (a
    number, a string, a list, null), which has no [get]. *)
Inductive JRecord :=
| RecDict (c : CStat)
| RecOther.

Definition record_dict (r : JRecord) : option CStat :=
  match r with
  | RecDict c => Some c
  | RecOther => None
  end.

(** The [violation_stats] dataset of a result file: missing, present but
    not parseable by [json.loads], parsed to a value that is not a dict (a
    list, a number, a string, null), or parsed to a dict. *)
Inductive StatsDataset :=
| StatsAbsent
| StatsUnparseable
| StatsNonDict
| StatsJson (vstat : gmap string JRecord).

(** A value of the optimizer's info dict: a number or a nested dict. *)
Inductive InfoValue :=
| InfoNum (q : Qc)
| InfoDict (d : gmap string Qc).

(** The per-member result file [mstep_<id>.hms]. *)
Record HmsFile := {
  hms_coordinates : Crd;
  hms_violation_stats : StatsDataset;
  hms_opt_info : option (gmap string Qc);
  hms_opt_info_dict : option (gmap string InfoValue)
}.

Record Bucket := {
  b_counts : list Qc;
  b_n_violations : Qc;
  b_n_imposed : Qc
}.

Record ByStructure := {
  bs_n_imposed : list Qc;
  bs_n_violations : list Qc;
  total_energies : list Qc;
  pair_energies : list Qc;
  bond_energies : list Qc;
  thermo : gmap string (list Qc)
}.

(** The running summary [self._summary_data]. *)
Record Summary := {
  n_imposed : Qc;
  n_violations : Qc;
  hist_counts : list Qc;
  hist_edges : list Edge;
  bystructure : ByStructure;
  byrestraint : gmap string Bucket
}.

(** The shared store (an [HssFile]): one coordinate slot per member, the
    violation score and the serialized summary; [hss_open] is the state of
    the handle. *)
Record HssFile := {
  hss_open : bool;
  nstruct : nat;
  nbead : nat;
  hss_crd : list Crd;
  hss_violation : option Qc;
  hss_summary : option Summary
}.

(** Configuration entries the step reads; an [option] is a key that may be
    missing, read with [cfg.get]. *)
Record Cfg := {
  population_size : nat;
  structure_output : string;
  clean_restart : option bool;
  random_shuffling : option bool;
  step_hash : option string;
  violation_tolerance : option Qc;
  keep_intermediate_structures : bool
}.

(** The files of [tmp_dir] and the stores: ready files
    ['<step>.<id>.ready'], result files ['mstep_<id>.hms'], and the store
    files by name. *)
Record FS := {
  ready : gset (string * nat);
  hms_files : gmap nat HmsFile;
  hss_files : gmap string HssFile
}.

(** ** The task runner: [ModelingStep.task] *)

(** What model assembly and the external minimizer hand back (lines
    136-212): the coordinates [model.getCoordinates()], the monitored
    restraints with their forces evaluated on the optimized particles, and
    [optinfo] when it is a dict. *)
Record Optimized := {
  opt_coordinates : Crd;
  opt_monitored : list Restraint;
  opt_info : option (gmap string InfoValue)
}.

(** External collaborators of the task.  [assemble] is the construction
    of the model and its restraints (lines 136-208), which may raise;
    [optimize] is [model.optimize(cfg)] under the given run name, with the
    restraints evaluated afterwards.  [medium id k c] is what the result
    file of member [id] gives back for particle [k] stored as [c]: the
    identity on a sound disk. *)
Record TaskEnv := {
  generate_random_in_sphere : nat → Crd;
  assemble : Cfg → nat → Crd → Res unit;
  optimize : Cfg → string → nat → Crd → Res Optimized;
  medium : nat → nat → Coord → Coord
}.

(** The loop over [r.forceID]: ratios and number of imposed restraints. *)
Definition restraint_ratios (r : Restraint) : list Qc :=
  foldl (λ vs f, if (1 <? rnum f)%nat
                 then vs ++ getViolationRatios f
                 else vs ++ [getViolationRatio f]) [] (forces r).

Definition restraint_n_imposed (r : Restraint) : nat :=
  foldl (λ n f, (n + rnum f)%nat) 0%nat (forces r).

Definition restraint_stat (tol : Qc) (r : Restraint) : option CStat :=
  let vs := restraint_ratios r in
  '(H, edges) ← get_violation_histogram_default vs;
  let num_violations := count_gt tol vs in
  Some {| cs_edges := edges;
          cs_counts := Some (Qc_of_nat <$> H);
          cs_n_violations := Some (Qc_of_nat num_violations);
          cs_n_imposed := Some (Qc_of_nat (restraint_n_imposed r)) |}.

(** [vstat]: a dict keyed by [repr(r)]; a later restraint with the same
    [repr] replaces the earlier entry. *)
Definition violation_statistics (tol : Qc) (monitored : list Restraint)
  : option (gmap string CStat) :=
  foldl (λ acc r, vstat ← acc; c ← restraint_stat tol r; Some (<[repr r := c]> vstat))
        (Some ∅) monitored.

(** The flat [opt_info] group holds the entries that are not dicts. *)
Definition opt_info_scalars (d : gmap string InfoValue) : gmap string Qc :=
  omap (λ v, match v with InfoNum q => Some q | InfoDict _ => None end) d.

(** What [saveModel] leaves on the medium. *)
Definition stored_coordinates (env : TaskEnv) (struct_id : nat) (crd : Crd) : Crd :=
  imap (medium env struct_id) crd.

(** [np.all(a == b)] on two arrays of one shape. *)
Definition np_all_eq (a b : Crd) : bool := bool_decide (a = b).

Definition write_error : Exc := RuntimeError "error writing the file".

Definition with_ready (fs : FS) (r : gset (string * nat)) : FS :=
  {| ready := r; hms_files := hms_files fs; hss_files := hss_files fs |}.

Definition with_hms (fs : FS) (i : nat) (f : HmsFile) : FS :=
  {| ready := ready fs; hms_files := <[i := f]> (hms_files fs);
     hss_files := hss_files fs |}.

(** The result file after the [with HmsFile(ofname, 'w')] block. *)
Definition result_file (env : TaskEnv) (struct_id : nat) (model : Optimized)
    (vstat : gmap string CStat) : HmsFile :=
  {| hms_coordinates := stored_coordinates env struct_id (opt_coordinates model);
     hms_violation_stats := StatsJson (RecDict <$> vstat);
     hms_opt_info := opt_info_scalars <$> opt_info model;
     hms_opt_info_dict := opt_info model |}.

(** Lines 116-123: the ready file exists and this is not a clean run. *)
Definition task_skips (struct_id : nat) (cfg : Cfg) (fs : FS) : bool :=
  negb (default false (clean_restart cfg)) &&
  bool_decide ((default "xxxx" (step_hash cfg), struct_id) ∈ ready fs).

(** Lines 125-212: inputs, model and optimization.  A missing
    [runtime/step_hash] makes the run name a [TypeError]. *)
Definition task_model (env : TaskEnv) (struct_id : nat) (cfg : Cfg) (fs : FS)
  : Res Optimized :=
  match hss_files fs !! structure_output cfg with
  | None => Raise IOError
  | Some hss =>
      match (if default false (random_shuffling cfg)
             then Some (generate_random_in_sphere env struct_id)
             else hss_crd hss !! struct_id) with
      | None => Raise IndexError
      | Some crd =>
          match assemble env cfg struct_id crd with
          | Raise e => Raise e
          | Ok _ =>
              match step_hash cfg with
              | None => Raise TypeError
              | Some h =>
                  let run_name := h +:+ "_" +:+ pretty struct_id in
                  optimize env cfg run_name struct_id crd
              end
          end
      end
  end.

(** Lines 214-259: write the result file, read it back, touch the ready
    file. *)
Definition task_write (env : TaskEnv) (struct_id : nat) (cfg : Cfg)
    (model : Optimized) (fs : FS) : Res unit * FS :=
  let step_id := default "xxxx" (step_hash cfg) in
  let tol := default (Q2Qc (1 # 100)) (violation_tolerance cfg) in
  match violation_statistics tol (opt_monitored model) with
  | None =>
      (Raise ValueError,
       with_hms fs struct_id
         {| hms_coordinates := stored_coordinates env struct_id (opt_coordinates model);
            hms_violation_stats := StatsAbsent;
            hms_opt_info := None; hms_opt_info_dict := None |})
  | Some vstat =>
      let hms := result_file env struct_id model vstat in
      let fs1 := with_hms fs struct_id hms in
      if negb (np_all_eq (hms_coordinates hms) (opt_coordinates model))
      then (Raise write_error, fs1)
      else (Ok (), with_ready fs1 ({[ (step_id, struct_id) ]} ∪ ready fs1))
  end.

Definition task (env : TaskEnv) (struct_id : nat) (cfg : Cfg) (fs : FS)
  : Res unit * FS :=
  if task_skips struct_id cfg fs then (Ok (), fs)
  else match task_model env struct_id cfg fs with
       | Raise e => (Raise e, fs)
       | Ok model => task_write env struct_id cfg model fs
       end.

(** [before_map]: on a clean restart the ready files of all members are
    removed before the tasks start. *)
Definition before_map (uid : string) (cfg : Cfg) (fs : FS) : FS :=
  if default false (clean_restart cfg)
  then with_ready fs
         (foldl (λ r struct_id, r ∖ {[ (uid, struct_id) ]}) (ready fs)
                (seq 0 (population_size cfg)))
  else fs.

(** ** The statistics aggregator: the poller callbacks *)

(** State of the poller process: [self._hss] and [self._summary_data]. *)
Record Poller := {
  _hss : HssFile;
  _summary_data : Summary
}.

(** Which writes the store's medium accepts; a rejected write raises. *)
Record StoreIO := {
  accepts_crd : nat → bool;
  accepts_violation : bool;
  accepts_summary : bool
}.

(** Callbacks run in a state-and-exception monad: a raise keeps the
    mutations made so far, as attribute and array updates do. *)
Definition M (A : Type) : Type := Poller → Res A * Poller.

Definition ret {A} (a : A) : M A := λ s, (Ok a, s).
Definition raise {A} (e : Exc) : M A := λ s, (Raise e, s).
Definition bind {A B} (m : M A) (k : A → M B) : M B :=
  λ s, match m s with
       | (Ok a, s') => k a s'
       | (Raise e, s') => (Raise e, s')
       end.
Definition gets {A} (f : Poller → A) : M A := λ s, (Ok (f s), s).
Definition modify (f : Poller → Poller) : M unit := λ s, (Ok (), f s).
Definition lift {A} (e : Exc) (o : option A) : M A :=
  match o with Some a => ret a | None => raise e end.

#[global] Instance M_ret : MRet M := @ret.
#[global] Instance M_bind : MBind M := λ A B k m, bind m k.

(** *** Record updates *)

Definition set_hss (f : HssFile → HssFile) (s : Poller) : Poller :=
  {| _hss := f (_hss s); _summary_data := _summary_data s |}.

Definition set_summary (f : Summary → Summary) (s : Poller) : Poller :=
  {| _hss := _hss s; _summary_data := f (_summary_data s) |}.

Definition set_byrestraint (f : gmap string Bucket → gmap string Bucket)
    (d : Summary) : Summary :=
  {| n_imposed := n_imposed d; n_violations := n_violations d;
     hist_counts := hist_counts d; hist_edges := hist_edges d;
     bystructure := bystructure d; byrestraint := f (byrestraint d) |}.

Definition set_bystructure (f : ByStructure → ByStructure) (d : Summary) : Summary :=
  {| n_imposed := n_imposed d; n_violations := n_violations d;
     hist_counts := hist_counts d; hist_edges := hist_edges d;
     bystructure := f (bystructure d); byrestraint := byrestraint d |}.

Definition set_totals (ni nv : Qc) (h : list Qc) (d : Summary) : Summary :=
  {| n_imposed := ni; n_violations := nv;
     hist_counts := h; hist_edges := hist_edges d;
     bystructure := bystructure d; byrestraint := byrestraint d |}.

(** *** numpy arrays *)

Definition np_zeros (n : nat) : list Qc := replicate n 0.

(** [a += b] on a one-dimensional array: [b] has the shape of [a], or one
    element that is broadcast; anything else is a [ValueError]. *)
Definition np_iadd (a b : list Qc) : option (list Qc) :=
  if (length b =? length a)%nat then Some (zip_with Qcplus a b)
  else match b with
       | [c] => Some ((λ x, x + c) <$> a)
       | _ => None
       end.

(** [a[i] = v]: an index past the end is an [IndexError]. *)
Definition np_setitem (a : list Qc) (i : nat) (v : Qc) : option (list Qc) :=
  if (i <? length a)%nat then Some (<[i := v]> a) else None.

Definition sum_Qc (l : list Qc) : Qc := foldr Qcplus 0 l.

(** *** Single precision *)

(** [2^z] *)
Definition pow2 (z : Z) : Qc :=
  if (0 <=? z)%Z then Qc_of_Z (2 ^ z) else / Qc_of_Z (2 ^ (- z)).

(** The nearest integer, a tie going to the even one. *)
Definition round_half_even (q : Qc) : Z :=
  let f := Qfloor q in
  let r := q - Qc_of_Z f in
  if decide (r < Q2Qc (1 # 2)) then f
  else if decide (Q2Qc (1 # 2) < r) then (f + 1)%Z
  else if Z.even f then f else (f + 1)%Z.

(** [floor (log2 a)] for [a > 0]. *)
Definition ilog2 (a : Qc) : Z :=
  let k := (Z.log2 (Qnum a) - Z.log2 (Zpos (Qden a)))%Z in
  if decide (pow2 k ≤ a) then k else (k - 1)%Z.

(** [np.float32(v)], the cast of an assignment into a [float32] array:
    the nearest number with a 24-bit significand (a multiple of [2^-149]
    below [2^-126]), a tie going to the even significand.  From
    [float32_max + 2^103] on numpy stores an infinity, which the arrays
    of this model do not hold: see [float32_finite]. *)
Definition float32 (v : Qc) : Qc :=
  if decide (v = 0) then 0
  else
    let a := if decide (v < 0) then - v else v in
    let e := Z.max (ilog2 a) (-126) in
    let ulp := pow2 (e - 23) in
    let m := Qc_of_Z (round_half_even (a / ulp)) * ulp in
    if decide (v < 0) then - m else m.

(** The values the cast keeps finite. *)
Definition float32_finite (v : Qc) : Prop :=
  - (pow2 128 - pow2 103) < v ∧ v < pow2 128 - pow2 103.

(** *** The store handle *)

Definition hss_set_struct_crd (io : StoreIO) (i : nat) (crd : Crd) : M unit :=
  h ← gets _hss;
  if negb (hss_open h) then raise ValueError
  else if negb (i <? nstruct h)%nat then raise IndexError
  else if negb (accepts_crd io i) then raise IOError
  else modify (set_hss (λ h,
         {| hss_open := hss_open h; nstruct := nstruct h; nbead := nbead h;
            hss_crd := <[i := crd]> (hss_crd h);
            hss_violation := hss_violation h; hss_summary := hss_summary h |})).

Definition hss_set_violation (io : StoreIO) (v : Qc) : M unit :=
  h ← gets _hss;
  if negb (hss_open h) then raise ValueError
  else if negb (accepts_violation io) then raise IOError
  else modify (set_hss (λ h,
         {| hss_open := hss_open h; nstruct := nstruct h; nbead := nbead h;
            hss_crd := hss_crd h;
            hss_violation := Some v; hss_summary := hss_summary h |})).

Definition hss_write_summary (io : StoreIO) (d : Summary) : M unit :=
  h ← gets _hss;
  if negb (hss_open h) then raise ValueError
  else if negb (accepts_summary io) then raise IOError
  else modify (set_hss (λ h,
         {| hss_open := hss_open h; nstruct := nstruct h; nbead := nbead h;
            hss_crd := hss_crd h;
            hss_violation := hss_violation h; hss_summary := Some d |})).

Definition hss_close : M unit :=
  modify (set_hss (λ h,
    {| hss_open := false; nstruct := nstruct h; nbead := nbead h;
       hss_crd := hss_crd h;
       hss_violation := hss_violation h; hss_summary := hss_summary h |})).

(** *** [setup_poller] *)

Definition summary_edges : list Edge :=
  ((λ k : nat, Fin (Qc_of_nat k * (DEFAULT_HIST_MAX / Qc_of_nat DEFAULT_HIST_BINS)))
     <$> seq 0 DEFAULT_HIST_BINS) ++ [Fin DEFAULT_HIST_MAX; Inf].

Definition empty_summary (cfg : Cfg) : Summary :=
  {| n_imposed := 0;
     n_violations := 0;
     hist_counts := np_zeros (DEFAULT_HIST_BINS + 1);
     hist_edges := summary_edges;
     bystructure :=
       {| bs_n_imposed := np_zeros (population_size cfg);
          bs_n_violations := np_zeros (population_size cfg);
          total_energies := np_zeros (population_size cfg);
          pair_energies := np_zeros (population_size cfg);
          bond_energies := np_zeros (population_size cfg);
          thermo := ∅ |};
     byrestraint := ∅ |}.

(** Opens the store file [store] in ['r+'] mode and allocates the
    summary. *)
Definition setup_poller (cfg : Cfg) (store : HssFile) : Poller :=
  {| _hss := {| hss_open := true; nstruct := nstruct store; nbead := nbead store;
                hss_crd := hss_crd store;
                hss_violation := hss_violation store;
                hss_summary := hss_summary store |};
     _summary_data := empty_summary cfg |}.

(** *** [set_structure] *)

Definition zero_bucket : Bucket :=
  {| b_counts := np_zeros (DEFAULT_HIST_BINS + 1);
     b_n_violations := 0; b_n_imposed := 0 |}.

(** [if k not in byrestraint: byrestraint[k] = {...}] *)
Definition init_bucket (k : string) : M unit :=
  modify (set_summary (set_byrestraint (λ m,
    match m !! k with Some _ => m | None => <[k := zero_bucket]> m end))).

Definition update_bucket (k : string) (f : Bucket → Bucket) : M unit :=
  modify (set_summary (set_byrestraint (alter f k))).

Definition add_b_n_violations (x : Qc) (b : Bucket) : Bucket :=
  {| b_counts := b_counts b; b_n_violations := b_n_violations b + x;
     b_n_imposed := b_n_imposed b |}.

Definition add_b_n_imposed (x : Qc) (b : Bucket) : Bucket :=
  {| b_counts := b_counts b; b_n_violations := b_n_violations b;
     b_n_imposed := b_n_imposed b + x |}.

Definition bucket_add_counts (k : string) (counts : list Qc) : M unit :=
  d ← gets _summary_data;
  b ← lift KeyError (byrestraint d !! k);
  c ← lift ValueError (np_iadd (b_counts b) counts);
  modify (set_summary (set_byrestraint
    <[k := {| b_counts := c; b_n_violations := b_n_violations b;
              b_n_imposed := b_n_imposed b |}]>)).

(** The loop over [vstat.items()], with the locals [n_tot], [n_vio] and
    [hist_tot]. *)
Fixpoint stats_loop (items : list (string * JRecord)) (n_tot n_vio : Qc)
    (hist_tot : list Qc) : M (Qc * Qc * list Qc) :=
  match items with
  | [] => mret (n_tot, n_vio, hist_tot)
  | (k, r) :: items =>
      init_bucket k ;;
      cstat ← lift AttributeError (record_dict r);
      let n_tot := n_tot + default 0 (cs_n_imposed cstat) in
      let n_vio := n_vio + default 0 (cs_n_violations cstat) in
      counts ← lift KeyError (cs_counts cstat);
      hist_tot ← lift ValueError (np_iadd hist_tot counts);
      update_bucket k (add_b_n_violations (default 0 (cs_n_violations cstat))) ;;
      update_bucket k (add_b_n_imposed (default 0 (cs_n_imposed cstat))) ;;
      bucket_add_counts k counts ;;
      stats_loop items n_tot n_vio hist_tot
  end.

(** The per-member arrays of [bystructure]. *)
Inductive BSField := BSImposed | BSViolations | BSTotal | BSPair | BSBond.

Definition bs_get (f : BSField) (b : ByStructure) : list Qc :=
  match f with
  | BSImposed => bs_n_imposed b
  | BSViolations => bs_n_violations b
  | BSTotal => total_energies b
  | BSPair => pair_energies b
  | BSBond => bond_energies b
  end.

Definition bs_set (f : BSField) (a : list Qc) (b : ByStructure) : ByStructure :=
  {| bs_n_imposed := if f is BSImposed then a else bs_n_imposed b;
     bs_n_violations := if f is BSViolations then a else bs_n_violations b;
     total_energies := if f is BSTotal then a else total_energies b;
     pair_energies := if f is BSPair then a else pair_energies b;
     bond_energies := if f is BSBond then a else bond_energies b;
     thermo := thermo b |}.

Definition set_thermo (f : gmap string (list Qc) → gmap string (list Qc))
    (b : ByStructure) : ByStructure :=
  {| bs_n_imposed := bs_n_imposed b; bs_n_violations := bs_n_violations b;
     total_energies := total_energies b; pair_energies := pair_energies b;
     bond_energies := bond_energies b; thermo := f (thermo b) |}.

(** [bystructure[f][i] = v]: the five arrays are allocated with
    [dtype=np.float32], so the assignment stores [np.float32(v)]. *)
Definition bystructure_setitem (f : BSField) (i : nat) (v : Qc) : M unit :=
  d ← gets _summary_data;
  a ← lift IndexError (np_setitem (bs_get f (bystructure d)) i (float32 v));
  modify (set_summary (set_bystructure (bs_set f a))).

(** [try: ... except KeyError: pass] *)
Definition except_KeyError (m : M unit) : M unit :=
  λ s, match m s with
       | (Raise KeyError, s') => (Ok (), s')
       | r => r
       end.

Definition collect_energies (i : nat) (hms : HmsFile) : M unit :=
  except_KeyError (
    v ← lift KeyError (hms_opt_info hms ≫= (.!! "final-energy"));
    bystructure_setitem BSTotal i v ;;
    v ← lift KeyError (hms_opt_info hms ≫= (.!! "pair-energy"));
    bystructure_setitem BSPair i v ;;
    v ← lift KeyError (hms_opt_info hms ≫= (.!! "bond-energy"));
    bystructure_setitem BSBond i v).

Fixpoint thermo_loop (i : nat) (items : list (string * Qc)) : M unit :=
  match items with
  | [] => mret ()
  | (k, v) :: items =>
      h ← gets _hss;
      modify (set_summary (set_bystructure (set_thermo (λ m,
        match m !! k with Some _ => m | None => <[k := np_zeros (nstruct h)]> m end)))) ;;
      d ← gets _summary_data;
      a ← lift KeyError (thermo (bystructure d) !! k);
      a' ← lift IndexError (np_setitem a i v);
      modify (set_summary (set_bystructure (set_thermo <[k := a']>))) ;;
      thermo_loop i items
  end.

Definition collect_thermo (i : nat) (hms : HmsFile) : M unit :=
  match hms_opt_info_dict hms with
  | None => mret ()
  | Some infodict =>
      t ← lift KeyError (infodict !! "thermo");
      match t with
      | InfoNum _ => raise AttributeError
      | InfoDict d => thermo_loop i (map_to_list d)
      end
  end.

(** [json.loads(hms['violation_stats'][()])] under a bare [except]: a
    missing or unparseable dataset gives the empty dict.  [None] is a
    parsed value that is not a dict: it has no [items]. *)
Definition load_vstat (hms : HmsFile) : option (gmap string JRecord) :=
  match hms_violation_stats hms with
  | StatsJson vstat => Some vstat
  | StatsNonDict => None
  | StatsAbsent | StatsUnparseable => Some ∅
  end.

Definition add_n_imposed (x : Qc) (d : Summary) : Summary :=
  set_totals (n_imposed d + x) (n_violations d) (hist_counts d) d.

Definition add_n_violations (x : Qc) (d : Summary) : Summary :=
  set_totals (n_imposed d) (n_violations d + x) (hist_counts d) d.

Definition add_hist_counts (hist_tot : list Qc) : M unit :=
  d ← gets _summary_data;
  h ← lift ValueError (np_iadd (hist_counts d) hist_tot);
  modify (set_summary (set_totals (n_imposed d) (n_violations d) h)).

(** [files] are the result files of [tmp_dir]; [i] is the member id. *)
Definition set_structure (io : StoreIO) (files : gmap nat HmsFile) (i : nat)
  : M unit :=
  hms ← lift IOError (files !! i);
  let crd := hms_coordinates hms in
  hss_set_struct_crd io i crd ;;
  vstat ← lift AttributeError (load_vstat hms);
  '(n_tot, n_vio, hist_tot) ←
    stats_loop (map_to_list vstat) 0 0 (np_zeros (DEFAULT_HIST_BINS + 1));
  modify (set_summary (add_n_imposed n_tot)) ;;
  modify (set_summary (add_n_violations n_vio)) ;;
  add_hist_counts hist_tot ;;
  bystructure_setitem BSImposed i n_tot ;;
  bystructure_setitem BSViolations i n_vio ;;
  collect_energies i hms ;;
  collect_thermo i hms.

(** *** [teardown_poller] *)

Definition violation_score (d : Summary) : Qc :=
  let total_violations := n_violations d in
  let total_restraints := n_imposed d in
  if decide (total_restraints = 0) then 0
  else total_violations / total_restraints.

Definition teardown_poller (io : StoreIO) : M unit :=
  d ← gets _summary_data;
  hss_set_violation io (violation_score d) ;;
  hss_write_summary io d ;;
  hss_close.

(** *** The callbacks of a session, in completion order *)

Fixpoint run_callbacks (io : StoreIO) (files : gmap nat HmsFile)
    (order : list nat) : M unit :=
  match order with
  | [] => mret ()
  | i :: order => set_structure io files i ;; run_callbacks io files order
  end.

(** ** The completion poller *)

(** [_run_poller]: one ready file and one argument list [[i]] per member of
    [argument_list = range(population_size)], paired by position. *)
Definition argument_list (cfg : Cfg) : list nat := seq 0 (population_size cfg).

Definition readyfiles (uid : string) (cfg : Cfg) : list (string * nat) :=
  (λ struct_id, (uid, struct_id)) <$> argument_list cfg.

Definition poller_args (cfg : Cfg) : list (list nat) :=
  (λ i, [i]) <$> argument_list cfg.

(** Modelled from the spec: [FilePoller] (igm/parallel/async_file_operations)
    is not among the sources.  Section 4.2: the polling loop repeatedly
    scans the outstanding markers; each marker found present and not yet
    consumed has the callback invoked with its arguments and is then marked
    consumed; the loop ends when all markers are consumed.  [calls] records
    the callback invocations in order. *)
Record FilePoller := {
  outstanding : list ((string * nat) * list nat);
  calls : list (list nat)
}.

Definition _run_poller (uid : string) (cfg : Cfg) : FilePoller :=
  {| outstanding := zip (readyfiles uid cfg) (poller_args cfg); calls := [] |}.

(** Modelled from the spec: one scan of the polling loop of [FilePoller]
    (section 4.2), [isfile] being the state of the directory at that time:
    the markers found present are delivered and marked consumed. *)
Definition scan (isfile : string * nat → bool) (p : FilePoller) : FilePoller :=
  {| outstanding := filter (λ fa, isfile fa.1 = false) (outstanding p);
     calls := calls p ++ (snd <$> filter (λ fa, isfile fa.1 = true) (outstanding p)) |}.

(** Modelled from the spec: the polling loop of [FilePoller] (section 4.2)
    over successive observations of the directory; it ends when no marker
    is outstanding. *)
Fixpoint watch (scans : list (string * nat → bool)) (p : FilePoller) : FilePoller :=
  match scans with
  | [] => p
  | isfile :: scans =>
      match outstanding p with
      | [] => p
      | _ :: _ => watch scans (scan isfile p)
      end
  end.

(** ** [reduce]: repacking the store *)

Definition PACK_SIZE : Qc := Qc_of_Z 1000000.

(** [min(max(1, int(PACK_SIZE / n_struct / 3)), n_beads)]; no member makes
    the division fail. *)
Definition pack_beads (n_struct n_beads : nat) : option nat :=
  if (n_struct =? 0)%nat then None
  else Some (Nat.min
               (Nat.max 1 (Z.to_nat (Qfloor (PACK_SIZE / Qc_of_nat n_struct / Qc_of_Z 3)%Qc)))
               n_beads).

Definition hssfilename (cfg : Cfg) : string := structure_output cfg +:+ ".T".

Definition swapfilename (cfg : Cfg) : string := hssfilename cfg +:+ ".swap".

Definition with_hss (fs : FS) (m : gmap string HssFile) : FS :=
  {| ready := ready fs; hms_files := hms_files fs; hss_files := m |}.

Definition repack_error (returncode : Z) : Exc :=
  RuntimeError ("repacking failed. error code: " +:+ pretty returncode).

(** [h5repack input pack_beads n_struct] is the external process: its exit
    code and the file it leaves at the output path, if any.
    [intermediate_name] is [self.intermediate_name()].  This is the part
    after the poller has finished; the logging pass only reads the
    store. *)
Definition reduce (h5repack : HssFile → nat → nat → Z * option HssFile)
    (intermediate_name : string) (cfg : Cfg) (fs : FS) : Res unit * FS :=
  match hss_files fs !! hssfilename cfg with
  | None => (Raise IOError, fs)
  | Some hss =>
      let n_struct := nstruct hss in
      let n_beads := nbead hss in
      match pack_beads n_struct n_beads with
      | None => (Raise ZeroDivisionError, fs)
      | Some pb =>
          let '(returncode, out) := h5repack hss pb n_struct in
          let fs1 := match out with
                     | Some f => with_hss fs (<[swapfilename cfg := f]> (hss_files fs))
                     | None => fs
                     end in
          if negb (returncode =? 0)%Z then (Raise (repack_error returncode), fs1)
          else
            match hss_files fs1 !! swapfilename cfg with
            | None => (Raise IOError, fs1)
            | Some swap =>
                let fs2 := if keep_intermediate_structures cfg
                           then with_hss fs1 (<[intermediate_name +:+ ".hss" := swap]> (hss_files fs1))
                           else fs1 in
                match hss_files fs2 !! swapfilename cfg with
                | None => (Raise IOError, fs2)
                | Some swap' =>
                    (Ok (), with_hss fs2 (<[structure_output cfg := swap']>
                                            (delete (swapfilename cfg) (hss_files fs2))))
                end
            end
      end
  end.

(** ** Sample inputs *)

Module Sample.

Definition cfg : Cfg :=
  {| population_size := 4; structure_output := "igm-model.hss";
     clean_restart := None; random_shuffling := None;
     step_hash := Some "a1b2"; violation_tolerance := None;
     keep_intermediate_structures := false |}.

Definition origin : Coord := (Q2Qc 0, Q2Qc 0, Q2Qc 0).
Definition crd : Crd := [origin; (Q2Qc 1, Q2Qc 0, Q2Qc 0)].

Definition store : HssFile :=
  {| hss_open := false; nstruct := 4; nbead := 2;
     hss_crd := replicate 4 crd; hss_violation := None; hss_summary := None |}.

(** One force with a single interaction of ratio 1/2. *)
Definition half_force : Force :=
  {| rnum := 1; getViolationRatios := []; getViolationRatio := Q2Qc (1 # 2) |}.

Definition envelope : Restraint :=
  {| repr := "Envelope"; forces := [half_force] |}.

Definition model : Optimized :=
  {| opt_coordinates := crd; opt_monitored := [envelope]; opt_info := None |}.

(** A sound disk, and one that loses the first particle's position. *)
Definition env : TaskEnv :=
  {| generate_random_in_sphere := λ _, crd;
     assemble := λ _ _ _, Ok ();
     optimize := λ _ _ _ _, Ok model;
     medium := λ _ _ c, c |}.

Definition bad_env : TaskEnv :=
  {| generate_random_in_sphere := λ _, crd;
     assemble := λ _ _ _, Ok ();
     optimize := λ _ _ _ _, Ok model;
     medium := λ _ k c, if (k =? 0)%nat then (Q2Qc 1, Q2Qc 1, Q2Qc 1) else c |}.

Definition fs : FS :=
  {| ready := ∅; hms_files := ∅;
     hss_files := {[ "igm-model.hss" := store ]} |}.

(** The same directory with member 2 already done. *)
Definition fs_done : FS :=
  {| ready := {[ ("a1b2", 2%nat) ]}; hms_files := ∅;
     hss_files := {[ "igm-model.hss" := store ]} |}.

(** A store that accepts every write, and one whose medium rejects the
    violation score. *)
Definition io : StoreIO :=
  {| accepts_crd := λ _, true; accepts_violation := true;
     accepts_summary := true |}.

Definition io_rejecting : StoreIO :=
  {| accepts_crd := λ _, true; accepts_violation := false;
     accepts_summary := true |}.

(** A result file without statistics, and one whose only record has no
    histogram. *)
Definition files_no_stats : gmap nat HmsFile :=
  {[ 0%nat := {| hms_coordinates := crd; hms_violation_stats := StatsAbsent;
                 hms_opt_info := None; hms_opt_info_dict := None |} ]}.

Definition files_no_histogram : gmap nat HmsFile :=
  {[ 0%nat := {| hms_coordinates := crd;
                 hms_violation_stats :=
                   StatsJson {[ "Envelope" := RecDict
                     {| cs_edges := []; cs_counts := None;
                        cs_n_violations := Some (Q2Qc 0);
                        cs_n_imposed := Some (Q2Qc 1) |} ]};
                 hms_opt_info := None; hms_opt_info_dict := None |} ]}.

(** Result files whose statistics parse, but not to a dict of record
    dicts: the text [[1, 2]], and a dict whose only record is a number. *)
Definition files_stats_list : gmap nat HmsFile :=
  {[ 0%nat := {| hms_coordinates := crd; hms_violation_stats := StatsNonDict;
                 hms_opt_info := None; hms_opt_info_dict := None |} ]}.

Definition files_record_number : gmap nat HmsFile :=
  {[ 0%nat := {| hms_coordinates := crd;
                 hms_violation_stats := StatsJson {[ "Envelope" := RecOther ]};
                 hms_opt_info := None; hms_opt_info_dict := None |} ]}.

(** The directory before [reduce]: the output of the previous step and
    the working copy the poller filled in. *)
Definition fs_reduce : FS :=
  {| ready := ∅; hms_files := ∅;
     hss_files := {[ "igm-model.hss" := store; "igm-model.hss.T" := store ]} |}.

(** A reorganization process that fails with exit code 1 after leaving a
    partial output, and one that succeeds. *)
Definition h5repack_failing (input : HssFile) (pb n_struct : nat)
  : Z * option HssFile := (1%Z, Some input).

Definition h5repack_ok (input : HssFile) (pb n_struct : nat)
  : Z * option HssFile := (0%Z, Some input).

(** Three successive states of the directory: member 2 is done when the
    poller starts, then every member is done, twice. *)
Definition scans : list (string * nat → bool) :=
  [ (λ f, (f.2 =? 2)%nat); (λ _, true); (λ _, true) ].

End Sample.

(** The scenario of the specification: four members, tolerance 0.01;
    three report 10 imposed restraints and no violation, one reports 10
    imposed and 2 violated.  The result files are those the tasks write. *)
Module Scenario.

Definition cfg : Cfg :=
  {| population_size := 4; structure_output := "igm-model.hss";
     clean_restart := None; random_shuffling := None;
     step_hash := Some "a1b2"; violation_tolerance := Some (Q2Qc (1 # 100));
     keep_intermediate_structures := false |}.

Definition quiet : Force :=
  {| rnum := 10; getViolationRatios := replicate 10 (Q2Qc 0);
     getViolationRatio := Q2Qc 0 |}.

Definition noisy : Force :=
  {| rnum := 10;
     getViolationRatios := replicate 8 (Q2Qc 0) ++ [Q2Qc (1 # 20); Q2Qc (1 # 20)];
     getViolationRatio := Q2Qc 0 |}.

Definition model_of (f : Force) : Optimized :=
  {| opt_coordinates := Sample.crd;
     opt_monitored := [ {| repr := "Envelope"; forces := [f] |} ];
     opt_info := None |}.

Definition env : TaskEnv :=
  {| generate_random_in_sphere := λ _, Sample.crd;
     assemble := λ _ _ _, Ok ();
     optimize := λ _ _ struct_id _,
       Ok (model_of (if (struct_id =? 3)%nat then noisy else quiet));
     medium := λ _ _ c, c |}.

Definition fs : FS :=
  foldl (λ fs struct_id, (task env struct_id cfg fs).2) Sample.fs (argument_list cfg).

Definition files : gmap nat HmsFile := hms_files fs.

End Scenario.

(** ** Predicates used in the statements *)

(** What [setup_poller] establishes and every callback keeps. *)
Record poller_inv (cfg : Cfg) (store : HssFile) (s : Poller) : Prop := {
  inv_open : hss_open (_hss s) = true;
  inv_nstruct : nstruct (_hss s) = nstruct store;
  inv_hist :
    length (hist_counts (_summary_data s)) = (DEFAULT_HIST_BINS + 1)%nat;
  inv_buckets : ∀ k b,
    byrestraint (_summary_data s) !! k = Some b →
    length (b_counts b) = (DEFAULT_HIST_BINS + 1)%nat;
  inv_bystructure : ∀ f,
    length (bs_get f (bystructure (_summary_data s))) = population_size cfg;
  inv_thermo : ∀ k a,
    thermo (bystructure (_summary_data s)) !! k = Some a →
    length a = nstruct store
}.

(** A record whose histogram has the aggregate's shape. *)
Definition shape_ok (c : CStat) : bool :=
  match cs_counts c with
  | Some counts => (length counts =? DEFAULT_HIST_BINS + 1)%nat
  | None => false
  end.

(** Every record of the member is a dict with a histogram of the
    aggregate's shape. *)
Definition consistent_shapes (items : list (string * JRecord)) : bool :=
  forallb (λ kr, from_option shape_ok false (record_dict kr.2)) items.

(** The detailed info dict, when present, has a [thermo] dict. *)
Definition thermo_present (hms : HmsFile) : bool :=
  match hms_opt_info_dict hms with
  | None => true
  | Some infodict =>
      match infodict !! "thermo" with
      | Some (InfoDict _) => true
      | _ => false
      end
  end.

(** A member the aggregator can process: its result file exists, its id is
    a slot of the store and of the per-member arrays, and the store accepts
    its coordinates. *)
Definition member_ok (io : StoreIO) (cfg : Cfg) (store : HssFile)
    (files : gmap nat HmsFile) (i : nat) : bool :=
  match files !! i with
  | None => false
  | Some hms =>
      (i <? nstruct store)%nat && (i <? population_size cfg)%nat &&
      accepts_crd io i &&
      from_option (λ vstat, consistent_shapes (map_to_list vstat)) false
        (load_vstat hms) &&
      thermo_present hms
  end.

(** Totals of one member's records. *)
Definition items_n_imposed (items : list (string * JRecord)) : Qc :=
  sum_Qc ((λ kr, default 0 (record_dict kr.2 ≫= cs_n_imposed)) <$> items).

Definition items_n_violations (items : list (string * JRecord)) : Qc :=
  sum_Qc ((λ kr, default 0 (record_dict kr.2 ≫= cs_n_violations)) <$> items).

Definition items_hist_total (items : list (string * JRecord)) : Qc :=
  sum_Qc ((λ kr, sum_Qc (default [] (record_dict kr.2 ≫= cs_counts))) <$> items).

Definition member_items (files : gmap nat HmsFile) (i : nat)
  : list (string * JRecord) :=
  from_option (λ hms, map_to_list (default ∅ (load_vstat hms))) [] (files !! i).

Definition member_n_imposed (files : gmap nat HmsFile) (i : nat) : Qc :=
  items_n_imposed (member_items files i).

Definition member_n_violations (files : gmap nat HmsFile) (i : nat) : Qc :=
  items_n_violations (member_items files i).

Definition member_hist_total (files : gmap nat HmsFile) (i : nat) : Qc :=
  items_hist_total (member_items files i).

(** The totals part of the state, which the bucket updates leave alone. *)
Definition same_totals (s s' : Poller) : Prop :=
  _hss s' = _hss s ∧
  n_imposed (_summary_data s') = n_imposed (_summary_data s) ∧
  n_violations (_summary_data s') = n_violations (_summary_data s) ∧
  hist_counts (_summary_data s') = hist_counts (_summary_data s) ∧
  bystructure (_summary_data s') = bystructure (_summary_data s).


(** The global counters and histogram, which the per-member arrays do not
    touch. *)
Definition same_globals (s s' : Poller) : Prop :=
  n_imposed (_summary_data s') = n_imposed (_summary_data s) ∧
  n_violations (_summary_data s') = n_violations (_summary_data s) ∧
  hist_counts (_summary_data s') = hist_counts (_summary_data s) ∧
  byrestraint (_summary_data s') = byrestraint (_summary_data s).

(** A computation that never changes the state of the store handle,
    whether it returns or raises. *)
Definition keeps_handle {A} (m : M A) : Prop :=
  ∀ s, hss_open (_hss (m s).2) = hss_open (_hss s).

(** ** Further definitions used by the properties *)

Definition add_counts (H1 H2 : list nat) : list nat := zip_with Nat.add H1 H2.

(** The last monitored restraint whose [repr] is [k]. *)
Definition last_with_repr (k : string) (monitored : list Restraint) : option Restraint :=
  last (filter (λ r, repr r = k) monitored).

(** The optimizer's info, when it is a dict, has a [thermo] dict. *)
Definition optinfo_has_thermo (model : Optimized) : bool :=
  match opt_info model with
  | None => true
  | Some d => match d !! "thermo" with Some (InfoDict _) => true | _ => false end
  end.

(** A computation whose final state is related to its initial state by
    [R], whether it returns or raises. *)
Definition frames (R : relation Poller) {A} (m : M A) : Prop :=
  ∀ s, R s (m s).2.

(** The store handle and its contents are unchanged. *)
Definition same_hss : relation Poller := λ s s', _hss s' = _hss s.

(** The global counters and the per-restraint buckets are unchanged. *)
Definition same_counts : relation Poller := λ s s',
  n_imposed (_summary_data s') = n_imposed (_summary_data s) ∧
  n_violations (_summary_data s') = n_violations (_summary_data s) ∧
  byrestraint (_summary_data s') = byrestraint (_summary_data s).

(** Lines 294-324 of [set_structure]: the statistics of one member. *)
Definition aggregate_statistics (i : nat) (hms : HmsFile) : M unit :=
  vstat ← lift AttributeError (load_vstat hms);
  '(n_tot, n_vio, hist_tot) ←
    stats_loop (map_to_list vstat) 0 0 (np_zeros (DEFAULT_HIST_BINS + 1));
  modify (set_summary (add_n_imposed n_tot)) ;;
  modify (set_summary (add_n_violations n_vio)) ;;
  add_hist_counts hist_tot ;;
  bystructure_setitem BSImposed i n_tot ;;
  bystructure_setitem BSViolations i n_vio.

(** Lines 326-340 of [set_structure]: energies and thermodynamic traces. *)
Definition collect_optimization (i : nat) (hms : HmsFile) : M unit :=
  collect_energies i hms ;; collect_thermo i hms.

(** Sum of one field over the per-restraint buckets. *)
Definition bucket_sum (f : Bucket → Qc) (m : gmap string Bucket) : Qc :=
  sum_Qc ((λ kb, f kb.2) <$> map_to_list m).

(** Further sample inputs. *)
Module Sample2.

(** The record of a restraint with 10 imposed interactions, 2 of them
    violated with ratio 0.05. *)
Definition record_10_2 : CStat :=
  {| cs_edges := [];
     cs_counts := Some (Q2Qc 8 :: replicate 4 (Q2Qc 0) ++ Q2Qc 2 :: replicate 95 (Q2Qc 0));
     cs_n_violations := Some (Q2Qc 2);
     cs_n_imposed := Some (Q2Qc 10) |}.

(** A result file with that record, for an optimizer info dict with a
    final energy but no [thermo] entry. *)
Definition hms_no_thermo : HmsFile :=
  {| hms_coordinates := Sample.crd;
     hms_violation_stats := StatsJson {[ "Envelope" := RecDict record_10_2 ]};
     hms_opt_info := Some {[ "final-energy" := Q2Qc 3 ]};
     hms_opt_info_dict := Some {[ "final-energy" := InfoNum (Q2Qc 3) ]} |}.

Definition files_no_thermo : gmap nat HmsFile := {[ 0%nat := hms_no_thermo ]}.

(** A result file with a final energy of 0.1 and a bond energy, but no
    pair energy. *)
Definition hms_two_energies : HmsFile :=
  {| hms_coordinates := Sample.crd;
     hms_violation_stats := StatsJson {[ "Envelope" := RecDict record_10_2 ]};
     hms_opt_info := Some {[ "final-energy" := Q2Qc (1 # 10);
                             "bond-energy" := Q2Qc 7 ]};
     hms_opt_info_dict := None |}.

End Sample2.

(** The global counters are the sums of the per-restraint counters. *)
Definition counters_partitioned (d : Summary) : Prop :=
  bucket_sum b_n_imposed (byrestraint d) = n_imposed d ∧
  bucket_sum b_n_violations (byrestraint d) = n_violations d.

(** The per-member array [g] of [bystructure] is unchanged. *)
Definition same_array (g : BSField) : relation Poller := λ s s',
  bs_get g (bystructure (_summary_data s'))
  = bs_get g (bystructure (_summary_data s)).

(** ** [intermediate_name] *)

(** The entries of [cfg['runtime']] that enter the name.  A field is [None]
    when its key is absent; otherwise it holds the text the source formats:
    the sigma with [{:.4f}] (that of the default -1.0 when the key has no
    sigma), the iteration with [{}]. *)
Record Runtime := {
  rt_damid : option string;
  rt_hic : option string;
  rt_opt_iter : option string
}.

Definition additional_data (rt : Runtime) (uid : string) : list string :=
  option_list (String.append "damid_" <$> rt_damid rt)
  ++ option_list (String.append "sigma_" <$> rt_hic rt)
  ++ option_list (String.append "iter_" <$> rt_opt_iter rt)
  ++ [uid].

(** ['.'.join([structure_output] + additional_data)] *)
Definition intermediate_name (cfg : Cfg) (rt : Runtime) (uid : string) : string :=
  String.concat "." (structure_output cfg :: additional_data rt uid).

(** The path of the snapshot [reduce] writes and [skip] looks for. *)
Definition snapshot_path (cfg : Cfg) (rt : Runtime) (uid : string) : string :=
  intermediate_name cfg rt uid +:+ ".hss".

Module Sample3.

Definition rt : Runtime :=
  {| rt_damid := None; rt_hic := Some "0.0500"; rt_opt_iter := Some "2" |}.

Definition uid : string := "a1b2".

(** [Sample.cfg] with [keep_intermediate_structures] set. *)
Definition cfg_keep : Cfg :=
  {| population_size := population_size Sample.cfg;
     structure_output := structure_output Sample.cfg;
     clean_restart := clean_restart Sample.cfg;
     random_shuffling := random_shuffling Sample.cfg;
     step_hash := step_hash Sample.cfg;
     violation_tolerance := violation_tolerance Sample.cfg;
     keep_intermediate_structures := true |}.

End Sample3.

(** * Properties *)

(** ** Histogram of violation ratios *)

Lemma Qfloor_Qc_bounds (q : Qc) (n : nat) :
  0 ≤ q → q ≤ Qc_of_nat n → (Z.to_nat (Qfloor q) ≤ n)%nat.
Proof.
  intros H0 Hn.
  assert (Qfloor q ≤ Z.of_nat n)%Z.
  { rewrite <- (Qfloor_Z (Z.of_nat n)). apply Qfloor_resp_le. exact Hn. }
  lia.
Qed.

Lemma scaled_offset_bounds (bins : nat) (lo hi x : Qc) :
  lo < hi → lo ≤ x → x ≤ hi →
  0 ≤ (x - lo) * Qc_of_nat bins / (hi - lo) ∧
  (x - lo) * Qc_of_nat bins / (hi - lo) ≤ Qc_of_nat bins.
Proof.
  intros Hlt Hlo Hhi.
  assert (Hd : 0 < hi - lo).
  { apply Qclt_minus_iff in Hlt. exact Hlt. }
  assert (Ht0 : 0 ≤ x - lo).
  { apply Qcle_minus_iff in Hlo. exact Hlo. }
  assert (Ht1 : x - lo ≤ hi - lo).
  { unfold Qcminus. by apply Qcplus_le_mono_r. }
  assert (Hn : 0 ≤ Qc_of_nat bins).
  { unfold Qcle. simpl. unfold Qle. simpl. lia. }
  assert (Hi : 0 ≤ / (hi - lo)).
  { apply Qclt_le_weak. by apply Qcinv_pos. }
  split.
  - unfold Qcdiv. apply Qcmult_nonneg_nonneg; [apply Qcmult_nonneg_nonneg|]; done.
  - unfold Qcdiv.
    replace (Qc_of_nat bins) with ((hi - lo) * Qc_of_nat bins * / (hi - lo)) at 2.
    + apply Qcmult_le_compat_r; [apply Qcmult_le_compat_r|]; done.
    + field. intros E. apply Qclt_not_eq in Hd. by rewrite E in Hd.
Qed.

Lemma bin_index_lt (bins : nat) (lo hi x : Qc) :
  (1 ≤ bins)%nat → lo < hi → lo ≤ x → x ≤ hi →
  (bin_index bins lo hi x < bins)%nat.
Proof.
  intros Hb Hlt Hlo Hhi. unfold bin_index.
  destruct (scaled_offset_bounds bins lo hi x Hlt Hlo Hhi) as [H0 H1].
  pose proof (Qfloor_Qc_bounds _ _ H0 H1) as Hle. cbv zeta.
  destruct (Nat.eqb_spec (Z.to_nat (Qfloor ((x - lo) * Qc_of_nat bins / (hi - lo))%Qc)) bins);
    lia.
Qed.

(** The upper edge itself falls in the last interior bin. *)
Lemma bin_index_upper_edge (bins : nat) (lo hi : Qc) :
  lo < hi → bin_index bins lo hi hi = (bins - 1)%nat.
Proof.
  intros Hlt. unfold bin_index.
  assert (Hd : hi - lo ≠ 0).
  { intros E. apply Qclt_minus_iff in Hlt. apply Qclt_not_eq in Hlt.
    apply Hlt. symmetry. exact E. }
  replace ((hi - lo) * Qc_of_nat bins / (hi - lo)) with (Qc_of_nat bins)
    by (field; exact Hd).
  cbn [Qc_of_nat Qc_of_Z this]. rewrite Qfloor_Z, Nat2Z.id, Nat.eqb_refl. done.
Qed.

Lemma sum_nat_app (l k : list nat) : sum_nat (l ++ k) = (sum_nat l + sum_nat k)%nat.
Proof. induction l as [|a l IH]; simpl; [done | rewrite IH; lia]. Qed.

Lemma sum_nat_replicate_0 (n : nat) : sum_nat (replicate n 0%nat) = 0%nat.
Proof. induction n; simpl; auto. Qed.

Lemma sum_nat_alter_S (l : list nat) (i : nat) :
  (i < length l)%nat → sum_nat (alter S i l) = S (sum_nat l).
Proof.
  revert i. induction l as [|a l IH]; intros i Hi; simpl in *; [lia|].
  destruct i as [|i]; [done|].
  change (alter S (S i) (a :: l)) with (a :: alter S i l).
  simpl. rewrite IH; lia.
Qed.

Lemma in_range_true (lo hi x : Qc) : in_range lo hi x = true ↔ lo ≤ x ∧ x ≤ hi.
Proof.
  unfold in_range. rewrite andb_true_iff, !bool_decide_eq_true. done.
Qed.

Lemma bincount_fold_spec (bins : nat) (lo hi : Qc) (a : list Qc) (H0 : list nat) :
  (1 ≤ bins)%nat → lo < hi → length H0 = bins →
  let H := foldl (λ H x, if in_range lo hi x then alter S (bin_index bins lo hi x) H else H) H0 a in
  length H = bins ∧
  sum_nat H = (sum_nat H0 + length (filter (λ x, in_range lo hi x = true) a))%nat.
Proof.
  intros Hb Hlt. revert H0. induction a as [|x a IH]; intros H0 Hlen; simpl.
  - split; [done | lia].
  - destruct (in_range lo hi x) eqn:Hr.
    + apply in_range_true in Hr as Hr'. destruct Hr' as [Hlo Hhi].
      destruct (IH (alter S (bin_index bins lo hi x) H0)) as [IH1 IH2].
      { by rewrite length_alter. }
      split; [exact IH1|]. rewrite IH2.
      rewrite sum_nat_alter_S by (rewrite Hlen; by apply bin_index_lt).
      rewrite filter_cons_True by done. simpl. lia.
    + destruct (IH H0 Hlen) as [IH1 IH2]. split; [exact IH1|].
      rewrite IH2. rewrite filter_cons_False; [done|]. by rewrite Hr.
Qed.

Lemma bincount_spec (bins : nat) (lo hi : Qc) (a : list Qc) :
  (1 ≤ bins)%nat → lo < hi →
  length (bincount bins lo hi a) = bins ∧
  sum_nat (bincount bins lo hi a) = length (filter (λ x, in_range lo hi x = true) a).
Proof.
  intros Hb Hlt. unfold bincount.
  destruct (bincount_fold_spec bins lo hi a (replicate bins 0%nat) Hb Hlt) as [H1 H2].
  { apply length_replicate. }
  split; [exact H1|]. rewrite H2, sum_nat_replicate_0. done.
Qed.

Lemma filter_all {A} (P : A → Prop) `{∀ x, Decision (P x)} (l : list A) :
  Forall P l → filter P l = l.
Proof.
  induction 1 as [|x l Hx Hl IH]; [done|].
  rewrite filter_cons_True by done. by rewrite IH.
Qed.

Lemma length_filter_split (c : Qc) (v : list Qc) :
  (length (select_le c v) + count_gt c v)%nat = length v.
Proof.
  unfold select_le, count_gt. induction v as [|x v IH]; [done|].
  destruct (decide (x ≤ c)) as [Hle|Hgt].
  - rewrite filter_cons_True by done.
    rewrite (filter_cons_False (λ x, c < x)) by (by apply Qcle_not_lt).
    simpl. lia.
  - rewrite filter_cons_False by done.
    rewrite (filter_cons_True (λ x, c < x)) by (by apply Qcnot_le_lt).
    simpl. lia.
Qed.

Lemma outer_edges_lt (lo hi : Qc) :
  lo ≤ hi → (outer_edges lo hi).1 < (outer_edges lo hi).2.
Proof.
  intros Hle. unfold outer_edges. destruct (decide (lo = hi)) as [->|Hne]; simpl.
  - apply Qclt_minus_iff.
    replace (hi + Q2Qc (1 # 2) + - (hi - Q2Qc (1 # 2)))
      with (Q2Qc (1 # 2) + Q2Qc (1 # 2)) by ring.
    done.
  - by apply Qcle_lt_or_eq in Hle as [?|?].
Qed.

Lemma outer_edges_cover (lo hi x : Qc) :
  lo ≤ x → x ≤ hi → (outer_edges lo hi).1 ≤ x ∧ x ≤ (outer_edges lo hi).2.
Proof.
  intros Hlo Hhi. unfold outer_edges. destruct (decide (lo = hi)) as [->|Hne]; simpl; [|done].
  split.
  - etrans; [|exact Hlo]. apply Qcle_minus_iff.
    replace (hi + - (hi - Q2Qc (1 # 2))) with (Q2Qc (1 # 2)) by ring. done.
  - etrans; [exact Hhi|]. apply Qcle_minus_iff.
    replace (hi + Q2Qc (1 # 2) + - hi) with (Q2Qc (1 # 2)) by ring. done.
Qed.

(** C10. For nonnegative ratios, at least one bin and a nonnegative
    [vmax], [get_violation_histogram] returns [nbins + 1] counts whose total
    is the number of ratios: the interior bins hold the ratios [<= vmax]
    (so a ratio equal to [vmax] is interior) and the last bin holds exactly
    the ratios [> vmax]. *)
Theorem get_violation_histogram_total (v : list Qc) (nbins : nat) (vmax : Qc) :
  Forall (λ x, 0 ≤ x) v → (1 ≤ nbins)%nat → 0 ≤ vmax →
  ∃ H edges,
    get_violation_histogram v nbins vmax = Some (H, edges) ∧
    length H = (nbins + 1)%nat ∧
    sum_nat H = length v ∧
    sum_nat (take nbins H) = length (filter (λ x, x ≤ vmax) v) ∧
    H !! nbins = Some (length (filter (λ x, vmax < x) v)).
Proof.
  intros Hpos Hb Hv. unfold get_violation_histogram, np_histogram.
  destruct (Nat.eqb_spec nbins 0) as [->|_]; [lia|].
  destruct (decide (vmax < 0)) as [Hneg|_].
  { by apply Qclt_not_le in Hneg. }
  pose proof (outer_edges_lt 0 vmax Hv) as Hlt.
  pose proof (outer_edges_cover 0 vmax) as Hcov.
  destruct (outer_edges 0 vmax) as [lo hi]. simpl in Hlt, Hcov. simpl.
  destruct (bincount_spec nbins lo hi (select_le vmax v) Hb Hlt) as [Hlen Hsum].
  rewrite filter_all in Hsum.
  2:{ unfold select_le. apply list.Forall_forall. intros x Hx.
      apply list_elem_of_filter in Hx as [Hle Hin].
      rewrite list.Forall_forall in Hpos. apply in_range_true. apply Hcov; auto. }
  eexists _, _. split; [reflexivity|].
  split; [rewrite length_app, Hlen; done|].
  split; [rewrite sum_nat_app, Hsum; simpl; rewrite Nat.add_0_r;
          apply length_filter_split|].
  split.
  - rewrite take_app_length' by done. exact Hsum.
  - rewrite lookup_app_r by lia. rewrite Hlen, Nat.sub_diag. done.
Qed.

Lemma get_violation_histogram_total_witness :
  ∃ H edges,
    get_violation_histogram [Q2Qc (1 # 200); Q2Qc 1; Q2Qc (3 # 2)] 100 (Q2Qc 1)
      = Some (H, edges) ∧
    length H = 101%nat ∧ sum_nat H = 3%nat ∧
    sum_nat (take 100 H) = 2%nat ∧ H !! 100%nat = Some 1%nat.
Proof.
  destruct (get_violation_histogram_total
              [Q2Qc (1 # 200); Q2Qc 1; Q2Qc (3 # 2)] 100 (Q2Qc 1))
    as (H & edges & E & H1 & H2 & H3 & H4).
  - repeat constructor; done.
  - lia.
  - done.
  - exists H, edges. repeat split; assumption.
Defined.

(** ** The task runner *)

Lemma np_histogram_default_some (a : list Qc) :
  is_Some (np_histogram a DEFAULT_HIST_BINS 0 1).
Proof.
  unfold np_histogram. simpl.
  destruct (decide (1 < 0)) as [H|_]; [done|].
  destruct (outer_edges 0 1). eauto.
Qed.

Lemma get_violation_histogram_default_some (v : list Qc) :
  is_Some (get_violation_histogram_default v).
Proof.
  unfold get_violation_histogram_default, get_violation_histogram.
  destruct (np_histogram_default_some (select_le 1 v)) as [[H e] ->]. simpl. eauto.
Qed.

Lemma restraint_stat_some (tol : Qc) (r : Restraint) : is_Some (restraint_stat tol r).
Proof.
  unfold restraint_stat.
  destruct (get_violation_histogram_default_some (restraint_ratios r)) as [[H e] ->].
  simpl. eauto.
Qed.

Lemma violation_statistics_some (tol : Qc) (monitored : list Restraint) :
  is_Some (violation_statistics tol monitored).
Proof.
  unfold violation_statistics. generalize (∅ : gmap string CStat).
  induction monitored as [|r l IH]; intros m; cbn [foldl]; [eauto|].
  destruct (restraint_stat_some tol r) as [c Hc]. cbn [mbind option_bind].
  rewrite Hc. apply IH.
Qed.

(** C4 (evaluation at the failing input).  The task bins the ratios over
    [[0, 1]], the default [vmax] of [get_violation_histogram], not over
    [[0, DEFAULT_HIST_MAX)]: a ratio of 1/2 is counted in interior bin 50
    and the overflow bin stays empty, whereas a histogram up to
    [DEFAULT_HIST_MAX] counts it as overflow.  The count of violations
    does follow the tolerance. *)
Theorem task_histogram_uses_unit_range :
  cs_counts <$> restraint_stat (Q2Qc (1 # 100)) Sample.envelope
    = Some (Some (Qc_of_nat <$> <[50%nat := 1%nat]> (replicate 101 0%nat))) ∧
  cs_n_violations <$> restraint_stat (Q2Qc (1 # 100)) Sample.envelope
    = Some (Some (Qc_of_nat 1)) ∧
  fst <$> get_violation_histogram (restraint_ratios Sample.envelope)
            DEFAULT_HIST_BINS DEFAULT_HIST_MAX
    = Some (<[100%nat := 1%nat]> (replicate 101 0%nat)).
Proof.
  split; [vm_compute; reflexivity|].
  split; vm_compute; reflexivity.
Qed.

(** C6. When the member's ready file exists and clean restart is not set,
    the task returns at once: the directory, the result files and the
    stores are what they were. *)
Theorem task_skip_is_noop (env : TaskEnv) (struct_id : nat) (cfg : Cfg) (fs : FS) :
  (default "xxxx" (step_hash cfg), struct_id) ∈ ready fs →
  default false (clean_restart cfg) = false →
  task env struct_id cfg fs = (Ok (), fs).
Proof.
  intros Hin Hclean. unfold task, task_skips.
  rewrite Hclean. simpl. by rewrite bool_decide_eq_true_2.
Qed.

Lemma task_skip_is_noop_witness :
  ("a1b2", 2%nat) ∈ ready Sample.fs_done ∧
  default false (clean_restart Sample.cfg) = false ∧
  task Sample.bad_env 2 Sample.cfg Sample.fs_done = (Ok (), Sample.fs_done).
Proof.
  assert (H1 : (default "xxxx" (step_hash Sample.cfg), 2%nat) ∈ ready Sample.fs_done)
    by (vm_compute; set_solver).
  assert (H2 : default false (clean_restart Sample.cfg) = false) by reflexivity.
  split; [exact H1|]. split; [exact H2|].
  exact (task_skip_is_noop Sample.bad_env 2 Sample.cfg Sample.fs_done H1 H2).
Defined.

Lemma task_runs_without_marker (struct_id : nat) (cfg : Cfg) (fs : FS) :
  task_skips struct_id cfg fs = false →
  default false (clean_restart cfg) = false →
  (default "xxxx" (step_hash cfg), struct_id) ∉ ready fs.
Proof.
  unfold task_skips. intros Hs Hc. rewrite Hc in Hs. simpl in Hs.
  by apply bool_decide_eq_false in Hs.
Qed.

Lemma foldl_difference_singletons (uid : string) (l : list nat) (r : gset (string * nat)) (x : string * nat) :
  x ∈ foldl (λ r struct_id, r ∖ {[ (uid, struct_id) ]}) r l ↔
  x ∈ r ∧ ∀ i, i ∈ l → x ≠ (uid, i).
Proof.
  revert r. induction l as [|a l IH]; intros r; simpl.
  - split; [intros H; split; [done|] | by intros [? _]].
    intros i Hi. by apply not_elem_of_nil in Hi.
  - rewrite IH. split.
    + intros [Hx Hl]. apply elem_of_difference in Hx as [Hx Ha].
      split; [done|]. intros i Hi. apply elem_of_cons in Hi as [->|Hi]; [set_solver|auto].
    + intros [Hx Hl]. split.
      * apply elem_of_difference. split; [done|].
        intros E%elem_of_singleton. apply (Hl a); [left|done].
      * intros i Hi. apply Hl. by right.
Qed.

(** [before_map] on a clean restart leaves no ready file of a member. *)
Lemma before_map_purges (uid : string) (cfg : Cfg) (fs : FS) (struct_id : nat) :
  default false (clean_restart cfg) = true →
  (struct_id < population_size cfg)%nat →
  (uid, struct_id) ∉ ready (before_map uid cfg fs).
Proof.
  intros Hc Hlt. unfold before_map. rewrite Hc. simpl.
  rewrite foldl_difference_singletons. intros [_ H].
  apply (H struct_id); [|done]. apply elem_of_seq. lia.
Qed.

(** C5. Once the model is optimized the task writes the result file and
    reads the coordinates back: it raises the write error exactly when the
    stored coordinates differ from those in memory, and returns normally
    exactly when they agree.  The result file is on disk in both cases.
    The ready file is added only in the second case, after the comparison;
    on a mismatch the set of ready files is what it was, so a member whose
    ready file was absent when the task started (as [before_map] and the
    skip test ensure) has none after a failed verification. *)
Theorem task_marker_after_verification
    (env : TaskEnv) (struct_id : nat) (cfg : Cfg) (fs : FS) (model : Optimized) :
  task_skips struct_id cfg fs = false →
  task_model env struct_id cfg fs = Ok model →
  let stored := stored_coordinates env struct_id (opt_coordinates model) in
  let marker := (default "xxxx" (step_hash cfg), struct_id) in
  let r := (task env struct_id cfg fs).1 in
  let fs' := (task env struct_id cfg fs).2 in
  (r = Raise write_error ↔ stored ≠ opt_coordinates model) ∧
  (r = Ok () ↔ stored = opt_coordinates model) ∧
  hms_coordinates <$> hms_files fs' !! struct_id = Some stored ∧
  (stored = opt_coordinates model → ready fs' = {[ marker ]} ∪ ready fs) ∧
  (stored ≠ opt_coordinates model → ready fs' = ready fs) ∧
  (marker ∉ ready fs → (marker ∈ ready fs' ↔ stored = opt_coordinates model)).
Proof.
  intros Hskip Hmodel. cbv zeta. unfold task. rewrite Hskip, Hmodel.
  unfold task_write.
  destruct (violation_statistics_some
              (default (Q2Qc (1 # 100)) (violation_tolerance cfg))
              (opt_monitored model)) as [vstat ->].
  unfold np_all_eq. cbn [result_file hms_coordinates].
  destruct (decide (stored_coordinates env struct_id (opt_coordinates model)
                    = opt_coordinates model)) as [Heq|Hne].
  - rewrite bool_decide_eq_true_2 by done. cbn [negb fst snd with_ready with_hms ready hms_files].
    rewrite lookup_insert_eq. cbn.
    repeat split; try done; try (intros; set_solver).
  - rewrite bool_decide_eq_false_2 by done. cbn [negb fst snd with_ready with_hms ready hms_files].
    rewrite lookup_insert_eq. cbn.
    repeat split; try done; try (intros; set_solver).
Qed.

Lemma task_marker_after_verification_witness :
  task_skips 0 Sample.cfg Sample.fs = false ∧
  task_model Sample.bad_env 0 Sample.cfg Sample.fs = Ok Sample.model ∧
  (task Sample.bad_env 0 Sample.cfg Sample.fs).1 = Raise write_error ∧
  ("a1b2", 0%nat) ∉ ready (task Sample.bad_env 0 Sample.cfg Sample.fs).2.
Proof.
  assert (H1 : task_skips 0 Sample.cfg Sample.fs = false) by (vm_compute; reflexivity).
  assert (H2 : task_model Sample.bad_env 0 Sample.cfg Sample.fs = Ok Sample.model)
    by (vm_compute; reflexivity).
  assert (Hne : stored_coordinates Sample.bad_env 0 (opt_coordinates Sample.model)
                ≠ opt_coordinates Sample.model).
  { apply (bool_decide_eq_false_1
             (stored_coordinates Sample.bad_env 0 (opt_coordinates Sample.model)
              = opt_coordinates Sample.model)).
    vm_compute. reflexivity. }
  destruct (task_marker_after_verification Sample.bad_env 0 Sample.cfg Sample.fs
              Sample.model H1 H2) as (Hraise & _ & _ & _ & Hkeep & Hmark).
  split; [exact H1|]. split; [exact H2|].
  split; [by apply Hraise|].
  rewrite (Hkeep Hne). vm_compute. set_solver.
Defined.

(** ** The aggregator *)

Lemma bind_run {A B} (m : M A) (k : A → M B) (s : Poller) :
  (m ≫= k) s = match m s with
               | (Ok a, s') => k a s'
               | (Raise e, s') => (Raise e, s')
               end.
Proof. reflexivity. Qed.

Lemma sum_Qc_app (l k : list Qc) : sum_Qc (l ++ k) = sum_Qc l + sum_Qc k.
Proof.
  induction l as [|a l IH]; simpl.
  - by rewrite Qcplus_0_l.
  - rewrite IH. ring.
Qed.

Lemma sum_Qc_zip_with (a b : list Qc) :
  length a = length b → sum_Qc (zip_with Qcplus a b) = sum_Qc a + sum_Qc b.
Proof.
  revert b. induction a as [|x a IH]; intros [|y b] Hlen; simpl in *; try lia.
  - ring.
  - rewrite IH by lia. ring.
Qed.

Lemma sum_Qc_zeros (n : nat) : sum_Qc (np_zeros n) = 0.
Proof.
  unfold np_zeros. induction n; simpl; [done|]. rewrite IHn. ring.
Qed.

Lemma sum_Qc_perm (l k : list Qc) : l ≡ₚ k → sum_Qc l = sum_Qc k.
Proof.
  induction 1; simpl; try congruence; ring.
Qed.

Lemma np_iadd_same_shape (a b : list Qc) :
  length b = length a →
  np_iadd a b = Some (zip_with Qcplus a b) ∧
  length (zip_with Qcplus a b) = length a.
Proof.
  intros Hlen. unfold np_iadd. rewrite Hlen, Nat.eqb_refl. split; [done|].
  rewrite length_zip_with. lia.
Qed.

Lemma length_np_zeros (n : nat) : length (np_zeros n) = n.
Proof. apply length_replicate. Qed.

Section Invariant.

Context (cfg : Cfg) (store : HssFile).

Lemma init_bucket_inv k s :
  poller_inv cfg store s →
  poller_inv cfg store (set_summary (set_byrestraint (λ m,
    match m !! k with Some _ => m | None => <[k := zero_bucket]> m end)) s).
Proof.
  intros [H1 H2 H3 H4 H5 H6]. split; cbn; try done.
  intros k' b. destruct (byrestraint (_summary_data s) !! k) eqn:E; [apply H4|].
  destruct (decide (k = k')) as [->|Hne].
  - rewrite lookup_insert_eq. intros [= <-]. apply length_np_zeros.
  - rewrite lookup_insert_ne by done. apply H4.
Qed.

Lemma alter_bucket_inv k f s :
  (∀ b, length (b_counts (f b)) = length (b_counts b)) →
  poller_inv cfg store s →
  poller_inv cfg store (set_summary (set_byrestraint (alter f k)) s).
Proof.
  intros Hf [H1 H2 H3 H4 H5 H6]. split; cbn; try done.
  intros k' b. destruct (decide (k = k')) as [->|Hne].
  - rewrite lookup_alter_eq. destruct (byrestraint (_summary_data s) !! k') eqn:E; [|done].
    cbn. intros [= <-]. rewrite Hf. by eapply H4.
  - rewrite lookup_alter_ne by done. apply H4.
Qed.

Lemma insert_bucket_inv k b s :
  length (b_counts b) = (DEFAULT_HIST_BINS + 1)%nat →
  poller_inv cfg store s →
  poller_inv cfg store (set_summary (set_byrestraint <[k := b]>) s).
Proof.
  intros Hb [H1 H2 H3 H4 H5 H6]. split; cbn; try done.
  intros k' b'. destruct (decide (k = k')) as [->|Hne].
  - rewrite lookup_insert_eq. by intros [= <-].
  - rewrite lookup_insert_ne by done. apply H4.
Qed.

Lemma same_totals_refl s : same_totals s s.
Proof. by repeat split. Qed.

Lemma same_totals_trans s1 s2 s3 :
  same_totals s1 s2 → same_totals s2 s3 → same_totals s1 s3.
Proof.
  intros (?&?&?&?&?) (?&?&?&?&?). repeat split; congruence.
Qed.

Lemma same_totals_byrestraint f s :
  same_totals s (set_summary (set_byrestraint f) s).
Proof. by repeat split. Qed.

Lemma bucket_add_counts_total k counts s :
  poller_inv cfg store s →
  is_Some (byrestraint (_summary_data s) !! k) →
  length counts = (DEFAULT_HIST_BINS + 1)%nat →
  ∃ s', bucket_add_counts k counts s = (Ok (), s') ∧
        poller_inv cfg store s' ∧ same_totals s s'.
Proof.
  intros Hinv [b Hb] Hlen. unfold bucket_add_counts.
  rewrite bind_run. cbn [gets]. rewrite Hb. cbn [lift]. rewrite bind_run. cbn [ret].
  destruct (np_iadd_same_shape (b_counts b) counts) as [Hadd Hlen'].
  { rewrite Hlen. symmetry. by eapply inv_buckets. }
  rewrite Hadd. cbn [lift]. rewrite bind_run. cbn [ret modify].
  eexists. split; [reflexivity|]. split.
  - apply insert_bucket_inv; [|done]. cbn. rewrite Hlen'. by eapply inv_buckets.
  - apply same_totals_byrestraint.
Qed.

Lemma stats_loop_total items n_tot n_vio hist_tot s :
  poller_inv cfg store s →
  length hist_tot = (DEFAULT_HIST_BINS + 1)%nat →
  consistent_shapes items = true →
  ∃ hist_tot' s',
    stats_loop items n_tot n_vio hist_tot s
      = (Ok (n_tot + items_n_imposed items, n_vio + items_n_violations items, hist_tot'), s') ∧
    length hist_tot' = (DEFAULT_HIST_BINS + 1)%nat ∧
    sum_Qc hist_tot' = sum_Qc hist_tot + items_hist_total items ∧
    poller_inv cfg store s' ∧ same_totals s s'.
Proof.
  revert n_tot n_vio hist_tot s.
  induction items as [|[k r] items IH]; intros n_tot n_vio hist_tot s Hinv Hlen Hshape.
  - exists hist_tot, s. cbn.
    unfold items_n_imposed, items_n_violations, items_hist_total. cbn.
    rewrite !Qcplus_0_r. split; [done|]. split; [done|]. split; [done|].
    split; [done|]. apply same_totals_refl.
  - unfold consistent_shapes in Hshape. cbn [forallb snd] in Hshape.
    apply andb_true_iff in Hshape as [Hk Hrest].
    destruct r as [cstat|]; [|done]. cbn [record_dict from_option] in Hk.
    unfold shape_ok in Hk.
    destruct (cs_counts cstat) as [counts|] eqn:Hc; [|done].
    apply Nat.eqb_eq in Hk as Hclen.
    cbn [stats_loop]. rewrite bind_run. cbn [init_bucket modify].
    rewrite bind_run. cbn [record_dict lift ret].
    rewrite Hc. cbn [lift]. rewrite bind_run. cbn [ret].
    destruct (np_iadd_same_shape hist_tot counts) as [Hadd Hlen']; [congruence|].
    rewrite Hadd. cbn [lift]. rewrite bind_run. cbn [ret].
    rewrite bind_run. cbn [update_bucket modify].
    rewrite bind_run. cbn [update_bucket modify].
    set (s1 := set_summary (set_byrestraint (λ m : gmap string Bucket,
                 match m !! k with Some _ => m | None => <[k:=zero_bucket]> m end)) s).
    set (s2 := set_summary (set_byrestraint (alter _ k)) s1).
    set (s3 := set_summary (set_byrestraint (alter _ k)) s2).
    assert (Hinv3 : poller_inv cfg store s3).
    { apply alter_bucket_inv; [done|]. apply alter_bucket_inv; [done|].
      by apply init_bucket_inv. }
    assert (Hsome : is_Some (byrestraint (_summary_data s3) !! k)).
    { cbn. rewrite !lookup_alter_eq.
      destruct (byrestraint (_summary_data s) !! k) eqn:E.
      - rewrite E. cbn. eauto.
      - rewrite lookup_insert_eq. cbn. eauto. }
    destruct (bucket_add_counts_total k counts s3 Hinv3 Hsome Hclen)
      as (s4 & Hrun & Hinv4 & Hsame4).
    rewrite bind_run, Hrun.
    destruct (IH (n_tot + default 0 (cs_n_imposed cstat))
                 (n_vio + default 0 (cs_n_violations cstat))
                 (zip_with Qcplus hist_tot counts) s4 Hinv4)
      as (hist_tot' & s' & Hloop & Hl & Hsum & Hinv' & Hsame'); [congruence|done|].
    exists hist_tot', s'. split.
    { rewrite Hloop. unfold items_n_imposed, items_n_violations. cbn.
      rewrite !Qcplus_assoc. reflexivity. }
    split; [done|]. split.
    { rewrite Hsum, sum_Qc_zip_with by congruence.
      unfold items_hist_total. rewrite fmap_cons.
      change (sum_Qc (?x :: ?l)) with (x + sum_Qc l).
      cbn [snd record_dict mbind option_bind]. rewrite Hc. cbn [default].
      by rewrite Qcplus_assoc. }
    split; [done|].
    eapply same_totals_trans; [|exact Hsame'].
    eapply same_totals_trans; [|exact Hsame4].
    by repeat split.
Qed.

Lemma same_globals_refl s : same_globals s s.
Proof. by repeat split. Qed.

Lemma same_globals_trans s1 s2 s3 :
  same_globals s1 s2 → same_globals s2 s3 → same_globals s1 s3.
Proof. intros (?&?&?&?) (?&?&?&?). repeat split; congruence. Qed.

Lemma hss_set_struct_crd_total io i crd s :
  poller_inv cfg store s →
  (i < nstruct store)%nat → accepts_crd io i = true →
  ∃ s', hss_set_struct_crd io i crd s = (Ok (), s') ∧
        poller_inv cfg store s' ∧ _summary_data s' = _summary_data s.
Proof.
  intros Hinv Hi Hio. unfold hss_set_struct_crd.
  rewrite bind_run. cbn [gets].
  rewrite (inv_open _ _ _ Hinv), (inv_nstruct _ _ _ Hinv), Hio.
  apply Nat.ltb_lt in Hi. rewrite Hi. cbn [negb modify].
  eexists. split; [reflexivity|]. split; [|done].
  destruct Hinv as [H1 H2 H3 H4 H5 H6]. by split.
Qed.

Lemma bystructure_setitem_total f i v s :
  poller_inv cfg store s → (i < population_size cfg)%nat →
  ∃ s', bystructure_setitem f i v s = (Ok (), s') ∧
        poller_inv cfg store s' ∧ same_globals s s' ∧ _hss s' = _hss s.
Proof.
  intros Hinv Hi. unfold bystructure_setitem.
  rewrite bind_run. cbn [gets]. unfold np_setitem.
  pose proof (inv_bystructure _ _ _ Hinv f) as Hlen.
  rewrite Hlen. apply Nat.ltb_lt in Hi. rewrite Hi. cbn [lift].
  rewrite bind_run. cbn [ret modify].
  eexists. split; [reflexivity|]. split; [|by repeat split].
  destruct Hinv as [H1 H2 H3 H4 H5 H6]. split; cbn; try done.
  - intros g. destruct f, g; cbn; rewrite ?length_insert; try apply H5.
    all: first [apply (H5 BSImposed) | apply (H5 BSViolations) | apply (H5 BSTotal)
               | apply (H5 BSPair) | apply (H5 BSBond)].
Qed.

Lemma collect_energies_total i hms s :
  poller_inv cfg store s → (i < population_size cfg)%nat →
  ∃ s', collect_energies i hms s = (Ok (), s') ∧
        poller_inv cfg store s' ∧ same_globals s s' ∧ _hss s' = _hss s.
Proof.
  intros Hinv Hi. unfold collect_energies, except_KeyError.
  rewrite bind_run.
  destruct (hms_opt_info hms ≫= (.!! "final-energy")) as [v1|]; cbn [lift ret raise].
  2:{ exists s. split; [done|]. split; [done|]. split; [apply same_globals_refl|done]. }
  rewrite bind_run.
  destruct (bystructure_setitem_total BSTotal i v1 s Hinv Hi)
    as (s1 & -> & Hinv1 & Hg1 & Hh1).
  rewrite bind_run.
  destruct (hms_opt_info hms ≫= (.!! "pair-energy")) as [v2|]; cbn [lift ret raise].
  2:{ exists s1. split; [done|]. split; [done|]. split; [exact Hg1|done]. }
  rewrite bind_run.
  destruct (bystructure_setitem_total BSPair i v2 s1 Hinv1 Hi)
    as (s2 & -> & Hinv2 & Hg2 & Hh2).
  rewrite bind_run.
  destruct (hms_opt_info hms ≫= (.!! "bond-energy")) as [v3|]; cbn [lift ret raise].
  2:{ exists s2. split; [done|]. split; [done|].
      split; [by eapply same_globals_trans|congruence]. }
  destruct (bystructure_setitem_total BSBond i v3 s2 Hinv2 Hi)
    as (s3 & -> & Hinv3 & Hg3 & Hh3).
  exists s3. split; [done|]. split; [done|].
  split; [|congruence].
  eapply same_globals_trans; [|exact Hg3]. by eapply same_globals_trans.
Qed.

Lemma thermo_loop_total i items s :
  poller_inv cfg store s → (i < nstruct store)%nat →
  ∃ s', thermo_loop i items s = (Ok (), s') ∧
        poller_inv cfg store s' ∧ same_globals s s' ∧ _hss s' = _hss s.
Proof.
  intros Hinv Hi. revert s Hinv.
  induction items as [|[k v] items IH]; intros s Hinv.
  - exists s. split; [done|]. split; [done|]. split; [apply same_globals_refl|done].
  - cbn [thermo_loop]. rewrite bind_run. cbn [gets].
    rewrite bind_run. cbn [modify]. rewrite bind_run. cbn [gets].
    set (s1 := set_summary _ s).
    assert (Hinv1 : poller_inv cfg store s1).
    { destruct Hinv as [H1 H2 H3 H4 H5 H6]. split; cbn; try done.
      intros k' a. destruct (thermo (bystructure (_summary_data s)) !! k) eqn:E;
          [apply H6|].
      destruct (decide (k = k')) as [->|Hne].
      - rewrite lookup_insert_eq. intros [= <-]. by rewrite length_np_zeros.
      - rewrite lookup_insert_ne by done. apply H6. }
    assert (Hsome : ∃ a, thermo (bystructure (_summary_data s1)) !! k = Some a).
    { cbn. destruct (thermo (bystructure (_summary_data s)) !! k) eqn:E.
      - rewrite E. eauto.
      - rewrite lookup_insert_eq. eauto. }
    destruct Hsome as [a Ha]. rewrite Ha. cbn [lift]. rewrite bind_run. cbn [ret].
    unfold np_setitem.
    rewrite (inv_thermo _ _ _ Hinv1 k a Ha).
    apply Nat.ltb_lt in Hi as Hi'. rewrite Hi'. cbn [lift].
    rewrite bind_run. cbn [ret]. rewrite bind_run. cbn [modify].
    set (s2 := set_summary _ s1).
    assert (Hinv2 : poller_inv cfg store s2).
    { destruct Hinv1 as [H1 H2 H3 H4 H5 H6]. split; cbn; try done.
      intros k' a'. destruct (decide (k = k')) as [->|Hne].
      - rewrite lookup_insert_eq. intros [= <-]. rewrite length_insert. by eapply H6.
      - rewrite lookup_insert_ne by done. apply H6. }
    destruct (IH s2 Hinv2) as (s' & Hrun & Hinv' & Hg & Hh).
    exists s'. split; [done|]. split; [done|]. split.
    + destruct Hg as (?&?&?&?). by repeat split.
    + by rewrite Hh.
Qed.

Lemma collect_thermo_total i hms s :
  poller_inv cfg store s → (i < nstruct store)%nat → thermo_present hms = true →
  ∃ s', collect_thermo i hms s = (Ok (), s') ∧
        poller_inv cfg store s' ∧ same_globals s s' ∧ _hss s' = _hss s.
Proof.
  intros Hinv Hi Ht. unfold collect_thermo, thermo_present in *.
  destruct (hms_opt_info_dict hms) as [infodict|].
  - rewrite bind_run. destruct (infodict !! "thermo") as [[q|d]|]; try done.
    cbn [lift ret]. by apply (thermo_loop_total).
  - exists s. split; [done|]. split; [done|]. split; [apply same_globals_refl|done].
Qed.

Lemma add_hist_counts_total hist_tot s :
  poller_inv cfg store s → length hist_tot = (DEFAULT_HIST_BINS + 1)%nat →
  ∃ s', add_hist_counts hist_tot s = (Ok (), s') ∧
        poller_inv cfg store s' ∧
        n_imposed (_summary_data s') = n_imposed (_summary_data s) ∧
        n_violations (_summary_data s') = n_violations (_summary_data s) ∧
        byrestraint (_summary_data s') = byrestraint (_summary_data s) ∧
        hist_counts (_summary_data s')
          = zip_with Qcplus (hist_counts (_summary_data s)) hist_tot ∧
        sum_Qc (hist_counts (_summary_data s'))
          = sum_Qc (hist_counts (_summary_data s)) + sum_Qc hist_tot.
Proof.
  intros Hinv Hlen. unfold add_hist_counts. rewrite bind_run. cbn [gets].
  destruct (np_iadd_same_shape (hist_counts (_summary_data s)) hist_tot) as [Hadd Hlen'].
  { rewrite Hlen. symmetry. apply Hinv. }
  rewrite Hadd. cbn [lift]. rewrite bind_run. cbn [ret modify].
  eexists. split; [reflexivity|]. split.
  - destruct Hinv as [H1 H2 H3 H4 H5 H6]. split; cbn; try done. by rewrite Hlen'.
  - cbn. repeat split. apply sum_Qc_zip_with. rewrite Hlen. apply Hinv.
Qed.

Lemma setup_poller_inv : poller_inv cfg store (setup_poller cfg store).
Proof.
  split; cbn; try done.
  - intros f. destruct f; apply length_np_zeros.
Qed.

Lemma set_structure_total io files i s :
  poller_inv cfg store s → member_ok io cfg store files i = true →
  ∃ s', set_structure io files i s = (Ok (), s') ∧
        poller_inv cfg store s' ∧
        n_imposed (_summary_data s')
          = n_imposed (_summary_data s) + member_n_imposed files i ∧
        n_violations (_summary_data s')
          = n_violations (_summary_data s) + member_n_violations files i ∧
        sum_Qc (hist_counts (_summary_data s'))
          = sum_Qc (hist_counts (_summary_data s)) + member_hist_total files i.
Proof.
  intros Hinv Hok. unfold member_ok in Hok.
  destruct (files !! i) as [hms|] eqn:Hfile; [|done].
  apply andb_true_iff in Hok as [Hok Hthermo].
  apply andb_true_iff in Hok as [Hok Hshape].
  apply andb_true_iff in Hok as [Hok Hio].
  apply andb_true_iff in Hok as [Hns%Nat.ltb_lt Hpop%Nat.ltb_lt].
  destruct (load_vstat hms) as [vstat|] eqn:Hvstat; [|done].
  cbn [from_option] in Hshape.
  unfold member_n_imposed, member_n_violations, member_hist_total, member_items.
  rewrite Hfile. cbn [from_option]. rewrite Hvstat. cbn [default from_option].
  unfold set_structure. rewrite bind_run, Hfile. cbn [lift ret].
  destruct (hss_set_struct_crd_total io i (hms_coordinates hms) s Hinv Hns Hio)
    as (s1 & Hrun1 & Hinv1 & Hd1).
  rewrite bind_run, Hrun1.
  rewrite bind_run, Hvstat. cbn [lift ret].
  destruct (stats_loop_total (map_to_list vstat) 0 0
              (np_zeros (DEFAULT_HIST_BINS + 1)) s1 Hinv1 (length_np_zeros _) Hshape)
    as (hist_tot & s2 & Hrun2 & Hlen2 & Hsum2 & Hinv2 & Hsame2).
  rewrite bind_run, Hrun2.
  rewrite bind_run. cbn [modify]. rewrite bind_run. cbn [modify].
  set (s3 := set_summary (add_n_violations _) (set_summary (add_n_imposed _) s2)).
  assert (Hinv3 : poller_inv cfg store s3).
  { destruct Hinv2 as [H1 H2 H3 H4 H5 H6]. by split. }
  destruct (add_hist_counts_total hist_tot s3 Hinv3 Hlen2)
    as (s4 & Hrun4 & Hinv4 & Hni4 & Hnv4 & _ & _ & Hh4).
  rewrite bind_run, Hrun4.
  destruct (bystructure_setitem_total BSImposed i
              (0 + items_n_imposed (map_to_list vstat)) s4 Hinv4 Hpop)
    as (s5 & Hrun5 & Hinv5 & Hg5 & _).
  rewrite bind_run, Hrun5.
  destruct (bystructure_setitem_total BSViolations i
              (0 + items_n_violations (map_to_list vstat)) s5 Hinv5 Hpop)
    as (s6 & Hrun6 & Hinv6 & Hg6 & _).
  rewrite bind_run, Hrun6.
  destruct (collect_energies_total i hms s6 Hinv6 Hpop)
    as (s7 & Hrun7 & Hinv7 & Hg7 & _).
  rewrite bind_run, Hrun7.
  destruct (collect_thermo_total i hms s7 Hinv7 Hns Hthermo)
    as (s8 & Hrun8 & Hinv8 & Hg8 & _).
  rewrite Hrun8. exists s8. split; [done|]. split; [done|].
  destruct Hg8 as (E1 & E2 & E3 & _), Hg7 as (F1 & F2 & F3 & _),
           Hg6 as (G1 & G2 & G3 & _), Hg5 as (I1 & I2 & I3 & _).
  destruct Hsame2 as (_ & J1 & J2 & J3 & _).
  rewrite E1, F1, G1, I1, Hni4, E2, F2, G2, I2, Hnv4, E3, F3, G3, I3, Hh4.
  subst s3. cbn. rewrite J1, J2, J3, Hd1, Hsum2, sum_Qc_zeros, !Qcplus_0_l.
  done.
Qed.

Lemma run_callbacks_total io files order s :
  poller_inv cfg store s → forallb (member_ok io cfg store files) order = true →
  ∃ s', run_callbacks io files order s = (Ok (), s') ∧
        poller_inv cfg store s' ∧
        n_imposed (_summary_data s')
          = n_imposed (_summary_data s) + sum_Qc (member_n_imposed files <$> order) ∧
        n_violations (_summary_data s')
          = n_violations (_summary_data s) + sum_Qc (member_n_violations files <$> order) ∧
        sum_Qc (hist_counts (_summary_data s'))
          = sum_Qc (hist_counts (_summary_data s))
            + sum_Qc (member_hist_total files <$> order).
Proof.
  intros Hinv Hok. revert s Hinv.
  induction order as [|i order IH]; intros s Hinv.
  - exists s. cbn. rewrite !Qcplus_0_r. split; [done|]. split; [done|]. done.
  - cbn [forallb] in Hok. apply andb_true_iff in Hok as [Hi Hok].
    cbn [run_callbacks]. rewrite bind_run.
    destruct (set_structure_total io files i s Hinv Hi)
      as (s1 & -> & Hinv1 & Hn1 & Hv1 & Hh1).
    destruct (IH Hok s1 Hinv1) as (s' & Hrun & Hinv' & Hn & Hv & Hh).
    exists s'. split; [done|]. split; [done|].
    rewrite Hn, Hv, Hh, Hn1, Hv1, Hh1, !fmap_cons.
    change (sum_Qc (?x :: ?l)) with (x + sum_Qc l).
    by rewrite !Qcplus_assoc.
Qed.

End Invariant.

(** *** The handle is closed by [teardown_poller] only *)

Lemma keeps_ret {A} (a : A) : keeps_handle (mret a : M A).
Proof. by intros s. Qed.

Lemma keeps_raise {A} (e : Exc) : keeps_handle (raise e : M A).
Proof. by intros s. Qed.

Lemma keeps_gets {A} (f : Poller → A) : keeps_handle (gets f).
Proof. by intros s. Qed.

Lemma keeps_lift {A} (e : Exc) (o : option A) : keeps_handle (lift e o).
Proof. by destruct o; intros s. Qed.

Lemma keeps_modify_summary (f : Summary → Summary) :
  keeps_handle (modify (set_summary f)).
Proof. by intros s. Qed.

Lemma keeps_bind {A B} (m : M A) (k : A → M B) :
  keeps_handle m → (∀ a, keeps_handle (k a)) → keeps_handle (m ≫= k).
Proof.
  intros Hm Hk s. rewrite bind_run. specialize (Hm s).
  destruct (m s) as [[a|e] s1]; cbn in *; [|done].
  by rewrite Hk.
Qed.

Lemma keeps_except (m : M unit) : keeps_handle m → keeps_handle (except_KeyError m).
Proof.
  intros Hm s. unfold except_KeyError. specialize (Hm s).
  destruct (m s) as [[a|e] s1]; cbn in *; [done|]. by destruct e.
Qed.

Create HintDb keeps.
#[local] Hint Resolve keeps_ret keeps_raise keeps_gets keeps_lift
  keeps_modify_summary keeps_except : keeps.

Ltac keeps_step :=
  first [ apply keeps_bind; [|intros ?]
        | progress eauto with keeps ].

Lemma keeps_hss_set_struct_crd io i crd : keeps_handle (hss_set_struct_crd io i crd).
Proof.
  unfold hss_set_struct_crd. apply keeps_bind; [eauto with keeps|]. intros h.
  repeat case_match; eauto with keeps. by intros s.
Qed.

Lemma keeps_bucket_add_counts k counts : keeps_handle (bucket_add_counts k counts).
Proof. unfold bucket_add_counts. repeat keeps_step. Qed.

Lemma keeps_stats_loop items n_tot n_vio hist_tot :
  keeps_handle (stats_loop items n_tot n_vio hist_tot).
Proof.
  revert n_tot n_vio hist_tot.
  induction items as [|[k c] items IH]; intros; cbn [stats_loop]; [eauto with keeps|].
  unfold init_bucket, update_bucket.
  repeat keeps_step; auto using keeps_bucket_add_counts.
Qed.

Lemma keeps_bystructure_setitem f i v : keeps_handle (bystructure_setitem f i v).
Proof. unfold bystructure_setitem. repeat keeps_step. Qed.

Lemma keeps_collect_energies i hms : keeps_handle (collect_energies i hms).
Proof.
  unfold collect_energies. apply keeps_except.
  repeat keeps_step; auto using keeps_bystructure_setitem.
Qed.

Lemma keeps_thermo_loop i items : keeps_handle (thermo_loop i items).
Proof.
  induction items as [|[k v] items IH]; cbn [thermo_loop]; [eauto with keeps|].
  repeat keeps_step; auto.
Qed.

Lemma keeps_collect_thermo i hms : keeps_handle (collect_thermo i hms).
Proof.
  unfold collect_thermo. destruct (hms_opt_info_dict hms); [|eauto with keeps].
  apply keeps_bind; [eauto with keeps|]. intros [q|d];
    auto using keeps_thermo_loop with keeps.
Qed.

Lemma keeps_add_hist_counts hist_tot : keeps_handle (add_hist_counts hist_tot).
Proof. unfold add_hist_counts. repeat keeps_step. Qed.

Lemma keeps_set_structure io files i : keeps_handle (set_structure io files i).
Proof.
  unfold set_structure. apply keeps_bind; [eauto with keeps|]. intros hms.
  apply keeps_bind; [apply keeps_hss_set_struct_crd|]. intros _.
  apply keeps_bind; [eauto with keeps|]. intros vstat.
  apply keeps_bind; [apply keeps_stats_loop|]. intros [[n_tot n_vio] hist_tot].
  repeat keeps_step;
    auto using keeps_add_hist_counts, keeps_bystructure_setitem,
               keeps_collect_energies, keeps_collect_thermo.
Qed.

Lemma keeps_run_callbacks io files order : keeps_handle (run_callbacks io files order).
Proof.
  induction order as [|i order IH]; cbn [run_callbacks]; [eauto with keeps|].
  apply keeps_bind; [apply keeps_set_structure|done].
Qed.

Lemma setup_then_callbacks_open io cfg store files order :
  hss_open (_hss (run_callbacks io files order (setup_poller cfg store)).2) = true.
Proof. by rewrite keeps_run_callbacks. Qed.

Lemma teardown_poller_total io s :
  hss_open (_hss s) = true →
  accepts_violation io = true → accepts_summary io = true →
  ∃ s', teardown_poller io s = (Ok (), s') ∧
        hss_violation (_hss s') = Some (violation_score (_summary_data s)) ∧
        hss_summary (_hss s') = Some (_summary_data s) ∧
        hss_open (_hss s') = false ∧
        _summary_data s' = _summary_data s.
Proof.
  intros Hopen Hv Hs. unfold teardown_poller, hss_set_violation, hss_write_summary, hss_close.
  rewrite !bind_run. cbn [gets]. rewrite !bind_run. cbn [gets].
  rewrite Hopen, Hv. cbn [negb modify]. rewrite !bind_run. cbn [gets set_hss _hss hss_open].
  rewrite Hopen, Hs. cbn [negb modify]. eexists. split; [reflexivity|]. done.
Qed.

(** C1. Whatever members were aggregated, in whatever order, on a store
    that accepts the two writes [teardown_poller] returns normally and the
    persisted score is [n_violations / n_imposed] of the running summary,
    and [0] when [n_imposed] is [0]: the division is guarded. *)
Theorem teardown_violation_score
    (io : StoreIO) (cfg : Cfg) (store : HssFile) (files : gmap nat HmsFile)
    (order : list nat) :
  accepts_violation io = true → accepts_summary io = true →
  let s := (run_callbacks io files order (setup_poller cfg store)).2 in
  let d := _summary_data s in
  ∃ s', teardown_poller io s = (Ok (), s') ∧
        hss_violation (_hss s')
          = Some (if decide (n_imposed d = 0) then 0
                  else n_violations d / n_imposed d) ∧
        (n_imposed d = 0 → hss_violation (_hss s') = Some 0) ∧
        hss_summary (_hss s') = Some d.
Proof.
  intros Hv Hs. cbv zeta.
  destruct (teardown_poller_total io
              (run_callbacks io files order (setup_poller cfg store)).2
              (setup_then_callbacks_open io cfg store files order) Hv Hs)
    as (s' & Hrun & Hscore & Hsum & _ & _).
  exists s'. split; [done|]. unfold violation_score in Hscore.
  split; [done|]. split; [|done].
  intros Hz. rewrite Hscore. by rewrite decide_True.
Qed.

Lemma teardown_violation_score_witness :
  accepts_violation Sample.io = true ∧ accepts_summary Sample.io = true ∧
  ∃ s', teardown_poller Sample.io
          (run_callbacks Sample.io Scenario.files [2; 0; 3; 1]%nat
             (setup_poller Scenario.cfg Sample.store)).2 = (Ok (), s') ∧
        hss_violation (_hss s') = Some (Q2Qc (1 # 20)).
Proof.
  split; [reflexivity|]. split; [reflexivity|].
  destruct (teardown_violation_score Sample.io Scenario.cfg Sample.store
              Scenario.files [2; 0; 3; 1]%nat eq_refl eq_refl)
    as (s' & Hrun & Hscore & _ & _).
  exists s'. split; [exact Hrun|]. rewrite Hscore. f_equal.
  apply Qc_is_canon. vm_compute. reflexivity.
Defined.

(** C9 (as amended). The callbacks never change the state of the handle
    [setup_poller] opened, whether they return or raise; [teardown_poller]
    closes it as its last statement, so the handle is closed after the
    teardown exactly when the teardown returned normally. *)
Theorem handle_closed_only_by_teardown
    (io : StoreIO) (cfg : Cfg) (store : HssFile) (files : gmap nat HmsFile)
    (order : list nat) :
  let s := (run_callbacks io files order (setup_poller cfg store)).2 in
  hss_open (_hss s) = true ∧
  hss_open (_hss (teardown_poller io s).2) = negb (is_ok (teardown_poller io s).1).
Proof.
  cbv zeta. split; [apply setup_then_callbacks_open|].
  pose proof (setup_then_callbacks_open io cfg store files order) as Hopen.
  set (s := (run_callbacks io files order (setup_poller cfg store)).2) in *.
  unfold teardown_poller, hss_set_violation, hss_write_summary, hss_close.
  rewrite !bind_run. cbn [gets]. rewrite !bind_run. cbn [gets]. rewrite Hopen.
  cbn [negb]. destruct (accepts_violation io); cbn [negb raise modify fst snd is_ok]; [|done].
  rewrite !bind_run. cbn [gets set_hss _hss hss_open]. rewrite Hopen. cbn [negb].
  destruct (accepts_summary io); cbn; [done|]. exact Hopen.
Qed.

(** C9 (counterexample). A teardown whose score write is rejected raises
    before [close]; a callback that meets a record without histogram
    raises [KeyError]: in both cases the handle is still open. *)
Lemma handle_left_open_after_raise :
  ((teardown_poller Sample.io_rejecting (setup_poller Sample.cfg Sample.store)).1
     = Raise IOError ∧
   hss_open (_hss (teardown_poller Sample.io_rejecting
                     (setup_poller Sample.cfg Sample.store)).2) = true) ∧
  ((set_structure Sample.io Sample.files_no_histogram 0
      (setup_poller Sample.cfg Sample.store)).1 = Raise KeyError ∧
   hss_open (_hss (set_structure Sample.io Sample.files_no_histogram 0
                     (setup_poller Sample.cfg Sample.store)).2) = true).
Proof.
  split; split; vm_compute; reflexivity.
Qed.

Lemma zip_with_Qcplus_zeros (a : list Qc) :
  zip_with Qcplus a (np_zeros (length a)) = a.
Proof.
  induction a as [|x a IH]; [done|]. cbn. rewrite Qcplus_0_r. f_equal. exact IH.
Qed.

(** C7 (as amended). A result file whose statistics dataset is missing
    or cannot be parsed is aggregated as an empty record: for a member
    whose file, slot and coordinates are otherwise in order,
    [set_structure] returns normally and the global counters, the global
    histogram and the per-restraint buckets are unchanged. *)
Theorem missing_stats_are_empty
    (io : StoreIO) (cfg : Cfg) (store : HssFile) (files : gmap nat HmsFile)
    (i : nat) (hms : HmsFile) (s : Poller) :
  poller_inv cfg store s →
  files !! i = Some hms →
  hms_violation_stats hms = StatsAbsent ∨ hms_violation_stats hms = StatsUnparseable →
  (i < nstruct store)%nat → (i < population_size cfg)%nat →
  accepts_crd io i = true → thermo_present hms = true →
  ∃ s', set_structure io files i s = (Ok (), s') ∧
        n_imposed (_summary_data s') = n_imposed (_summary_data s) ∧
        n_violations (_summary_data s') = n_violations (_summary_data s) ∧
        hist_counts (_summary_data s') = hist_counts (_summary_data s) ∧
        byrestraint (_summary_data s') = byrestraint (_summary_data s).
Proof.
  intros Hinv Hfile Hstats Hns Hpop Hio Hthermo.
  assert (Hempty : load_vstat hms = Some ∅).
  { unfold load_vstat. by destruct Hstats as [-> | ->]. }
  unfold set_structure. rewrite bind_run, Hfile. cbn [lift ret].
  destruct (hss_set_struct_crd_total cfg store io i (hms_coordinates hms) s Hinv Hns Hio)
    as (s1 & Hrun1 & Hinv1 & Hd1).
  rewrite bind_run, Hrun1. rewrite bind_run, Hempty. cbn [lift ret].
  rewrite map_to_list_empty. cbn [stats_loop]. rewrite bind_run.
  change ((mret (0, 0, np_zeros (DEFAULT_HIST_BINS + 1)) : M _) s1)
    with (Ok (0, 0, np_zeros (DEFAULT_HIST_BINS + 1)), s1).
  cbv iota beta.
  rewrite bind_run. cbn [modify]. rewrite bind_run. cbn [modify].
  set (s3 := set_summary (add_n_violations _) (set_summary (add_n_imposed _) s1)).
  assert (Hinv3 : poller_inv cfg store s3).
  { destruct Hinv1 as [H1 H2 H3 H4 H5 H6]. by split. }
  destruct (add_hist_counts_total cfg store (np_zeros (DEFAULT_HIST_BINS + 1)) s3 Hinv3
              (length_np_zeros _))
    as (s4 & Hrun4 & Hinv4 & Hni4 & Hnv4 & Hb4 & Hh4 & _).
  rewrite bind_run, Hrun4.
  destruct (bystructure_setitem_total cfg store BSImposed i 0 s4 Hinv4 Hpop)
    as (s5 & Hrun5 & Hinv5 & Hg5 & _).
  rewrite bind_run, Hrun5.
  destruct (bystructure_setitem_total cfg store BSViolations i 0 s5 Hinv5 Hpop)
    as (s6 & Hrun6 & Hinv6 & Hg6 & _).
  rewrite bind_run, Hrun6.
  destruct (collect_energies_total cfg store i hms s6 Hinv6 Hpop)
    as (s7 & Hrun7 & Hinv7 & Hg7 & _).
  rewrite bind_run, Hrun7.
  destruct (collect_thermo_total cfg store i hms s7 Hinv7 Hns Hthermo)
    as (s8 & Hrun8 & Hinv8 & Hg8 & _).
  rewrite Hrun8. exists s8. split; [done|].
  destruct Hg8 as (E1 & E2 & E3 & E4), Hg7 as (F1 & F2 & F3 & F4),
           Hg6 as (G1 & G2 & G3 & G4), Hg5 as (I1 & I2 & I3 & I4).
  rewrite E1, F1, G1, I1, Hni4, E2, F2, G2, I2, Hnv4, E3, F3, G3, I3, Hh4,
          E4, F4, G4, I4, Hb4.
  subst s3. cbn [set_summary add_n_imposed add_n_violations set_totals
                 _summary_data n_imposed n_violations hist_counts byrestraint].
  rewrite Hd1, !Qcplus_0_r.
  replace (DEFAULT_HIST_BINS + 1)%nat with (length (hist_counts (_summary_data s)))
    by apply Hinv.
  by rewrite zip_with_Qcplus_zeros.
Qed.

Lemma missing_stats_are_empty_witness :
  poller_inv Sample.cfg Sample.store (setup_poller Sample.cfg Sample.store) ∧
  ∃ s', set_structure Sample.io Sample.files_no_stats 0
          (setup_poller Sample.cfg Sample.store) = (Ok (), s') ∧
        n_imposed (_summary_data s') = 0 ∧
        n_violations (_summary_data s') = 0.
Proof.
  split; [apply setup_poller_inv|].
  destruct (missing_stats_are_empty Sample.io Sample.cfg Sample.store
              Sample.files_no_stats 0
              {| hms_coordinates := Sample.crd; hms_violation_stats := StatsAbsent;
                 hms_opt_info := None; hms_opt_info_dict := None |}
              (setup_poller Sample.cfg Sample.store))
    as (s' & Hrun & Hn & Hv & _).
  - apply setup_poller_inv.
  - reflexivity.
  - by left.
  - simpl. lia.
  - simpl. lia.
  - reflexivity.
  - reflexivity.
  - exists s'. split; [exact Hrun|]. split; [exact Hn | exact Hv].
Defined.

(** C7 (counterexample). A dataset that [json.loads] parses is not
    treated as empty, however corrupt: for member 0, whose file, slot and
    coordinates are in order, a record without histogram makes
    [set_structure] raise [KeyError], the parsed text [[1, 2]] makes it
    raise [AttributeError], and so does a record that is a number. *)
Lemma parsed_corrupt_stats_raise :
  poller_inv Sample.cfg Sample.store (setup_poller Sample.cfg Sample.store) ∧
  (0 < nstruct Sample.store)%nat ∧ (0 < population_size Sample.cfg)%nat ∧
  accepts_crd Sample.io 0 = true ∧
  (set_structure Sample.io Sample.files_no_histogram 0
     (setup_poller Sample.cfg Sample.store)).1 = Raise KeyError ∧
  (set_structure Sample.io Sample.files_stats_list 0
     (setup_poller Sample.cfg Sample.store)).1 = Raise AttributeError ∧
  (set_structure Sample.io Sample.files_record_number 0
     (setup_poller Sample.cfg Sample.store)).1 = Raise AttributeError.
Proof.
  split; [apply setup_poller_inv|].
  split; [simpl; lia|]. split; [simpl; lia|]. split; [reflexivity|].
  split; [|split]; vm_compute; reflexivity.
Qed.

Lemma forallb_perm {A} (f : A → bool) (l k : list A) :
  l ≡ₚ k → forallb f l = forallb f k.
Proof.
  induction 1 as [|x l k _ IH|x y l|l k m _ IH1 _ IH2]; cbn; try congruence.
  by destruct (f x), (f y).
Qed.

Lemma run_callbacks_from_setup io cfg store files order :
  forallb (member_ok io cfg store files) order = true →
  ∃ s, run_callbacks io files order (setup_poller cfg store) = (Ok (), s) ∧
       poller_inv cfg store s ∧
       n_imposed (_summary_data s) = sum_Qc (member_n_imposed files <$> order) ∧
       n_violations (_summary_data s) = sum_Qc (member_n_violations files <$> order) ∧
       sum_Qc (hist_counts (_summary_data s))
         = sum_Qc (member_hist_total files <$> order).
Proof.
  intros Hok.
  destruct (run_callbacks_total cfg store io files order (setup_poller cfg store)
              (setup_poller_inv cfg store) Hok) as (s & Hrun & Hinv & Hn & Hv & Hh).
  exists s. split; [done|]. split; [done|].
  rewrite Hn, Hv, Hh. cbn [setup_poller _summary_data empty_summary n_imposed
                           n_violations hist_counts].
  by rewrite sum_Qc_zeros, !Qcplus_0_l.
Qed.

(** C2. When every member has a result file with histograms of the
    aggregate's shape, one [set_structure] call per member returns normally
    and leaves the sum of the members' histogram totals as the total of the
    aggregate histogram, and the sums of their [n_imposed] and
    [n_violations] as the global counters; any other order of the same
    calls gives the same three values.  In the scenario of four members
    (three with 10 imposed and 0 violated, one with 10 and 2) every order
    gives 40 imposed, 2 violated and a persisted score of 1/20. *)
Theorem aggregate_totals_order_independent :
  (∀ (io : StoreIO) (cfg : Cfg) (store : HssFile) (files : gmap nat HmsFile)
     (order order' : list nat),
     forallb (member_ok io cfg store files) order = true →
     order ≡ₚ order' →
     ∃ s s',
       run_callbacks io files order (setup_poller cfg store) = (Ok (), s) ∧
       run_callbacks io files order' (setup_poller cfg store) = (Ok (), s') ∧
       sum_Qc (hist_counts (_summary_data s))
         = sum_Qc (member_hist_total files <$> order) ∧
       n_imposed (_summary_data s) = sum_Qc (member_n_imposed files <$> order) ∧
       n_violations (_summary_data s)
         = sum_Qc (member_n_violations files <$> order) ∧
       sum_Qc (hist_counts (_summary_data s'))
         = sum_Qc (hist_counts (_summary_data s)) ∧
       n_imposed (_summary_data s') = n_imposed (_summary_data s) ∧
       n_violations (_summary_data s') = n_violations (_summary_data s)) ∧
  (∀ order : list nat,
     order ≡ₚ argument_list Scenario.cfg →
     ∃ s s',
       run_callbacks Sample.io Scenario.files order
         (setup_poller Scenario.cfg Sample.store) = (Ok (), s) ∧
       n_imposed (_summary_data s) = Qc_of_nat 40 ∧
       n_violations (_summary_data s) = Qc_of_nat 2 ∧
       teardown_poller Sample.io s = (Ok (), s') ∧
       hss_violation (_hss s') = Some (Q2Qc (1 # 20))).
Proof.
  split.
  - intros io cfg store files order order' Hok Hperm.
    destruct (run_callbacks_from_setup io cfg store files order Hok)
      as (s & Hrun & _ & Hn & Hv & Hh).
    rewrite (forallb_perm _ _ _ Hperm) in Hok.
    destruct (run_callbacks_from_setup io cfg store files order' Hok)
      as (s' & Hrun' & _ & Hn' & Hv' & Hh').
    exists s, s'. repeat (split; [done|]).
    rewrite Hn, Hv, Hh, Hn', Hv', Hh'.
    repeat split; apply sum_Qc_perm, fmap_Permutation; by symmetry.
  - intros order Hperm.
    assert (Hok : forallb (member_ok Sample.io Scenario.cfg Sample.store Scenario.files)
                    order = true).
    { rewrite (forallb_perm _ _ _ Hperm). vm_compute. reflexivity. }
    destruct (run_callbacks_from_setup _ _ _ _ _ Hok) as (s & Hrun & Hinv & Hn & Hv & _).
    assert (Hn40 : n_imposed (_summary_data s) = Qc_of_nat 40).
    { rewrite Hn, (sum_Qc_perm _ _ (fmap_Permutation _ _ _ Hperm)).
      apply Qc_is_canon. vm_compute. reflexivity. }
    assert (Hv2 : n_violations (_summary_data s) = Qc_of_nat 2).
    { rewrite Hv, (sum_Qc_perm _ _ (fmap_Permutation _ _ _ Hperm)).
      apply Qc_is_canon. vm_compute. reflexivity. }
    destruct (teardown_poller_total Sample.io s (inv_open _ _ _ Hinv) eq_refl eq_refl)
      as (s' & Hrun' & Hscore & _).
    exists s, s'. repeat (split; [done|]).
    rewrite Hscore. unfold violation_score. rewrite Hn40, Hv2. f_equal.
    apply Qc_is_canon. vm_compute. reflexivity.
Qed.

Lemma aggregate_totals_order_independent_witness :
  forallb (member_ok Sample.io Scenario.cfg Sample.store Scenario.files)
    [0; 1; 2; 3]%nat = true ∧
  [0; 1; 2; 3]%nat ≡ₚ [3; 1; 0; 2]%nat ∧
  ∃ s s',
    run_callbacks Sample.io Scenario.files [0; 1; 2; 3]%nat
      (setup_poller Scenario.cfg Sample.store) = (Ok (), s) ∧
    run_callbacks Sample.io Scenario.files [3; 1; 0; 2]%nat
      (setup_poller Scenario.cfg Sample.store) = (Ok (), s') ∧
    sum_Qc (hist_counts (_summary_data s')) = sum_Qc (hist_counts (_summary_data s)) ∧
    n_imposed (_summary_data s') = n_imposed (_summary_data s) ∧
    n_violations (_summary_data s') = n_violations (_summary_data s).
Proof.
  assert (H1 : forallb (member_ok Sample.io Scenario.cfg Sample.store Scenario.files)
                 [0; 1; 2; 3]%nat = true) by (vm_compute; reflexivity).
  assert (H2 : [0; 1; 2; 3]%nat ≡ₚ [3; 1; 0; 2]%nat).
  { apply (bool_decide_eq_true_1 ([0; 1; 2; 3]%nat ≡ₚ [3; 1; 0; 2]%nat)).
    vm_compute. reflexivity. }
  split; [exact H1|]. split; [exact H2|].
  destruct (proj1 aggregate_totals_order_independent Sample.io Scenario.cfg Sample.store
              Scenario.files _ _ H1 H2)
    as (s & s' & Hr & Hr' & _ & _ & _ & Hh & Hn & Hv).
  exists s, s'. repeat (split; [assumption|]). assumption.
Defined.

(** ** The completion poller *)

Lemma filter_isfile_split {A} (f : A → bool) (l : list A) :
  filter (λ x, f x = true) l ++ filter (λ x, f x = false) l ≡ₚ l.
Proof.
  induction l as [|x l IH]; [done|].
  destruct (f x) eqn:E.
  - rewrite filter_cons_True, filter_cons_False by (by rewrite ?E). cbn. by f_equiv.
  - rewrite filter_cons_False, filter_cons_True by (by rewrite ?E).
    rewrite <- Permutation_middle. by f_equiv.
Qed.

Lemma scan_partition (isfile : string * nat → bool) (p : FilePoller) :
  calls (scan isfile p) ++ (outstanding (scan isfile p)).*2
  ≡ₚ calls p ++ (outstanding p).*2.
Proof.
  unfold scan. cbn. rewrite <- (assoc (++)). f_equiv.
  rewrite <- fmap_app. apply fmap_Permutation.
  apply (filter_isfile_split (λ fa, isfile fa.1)).
Qed.

Lemma watch_partition (scans : list (string * nat → bool)) (p : FilePoller) :
  calls (watch scans p) ++ (outstanding (watch scans p)).*2
  ≡ₚ calls p ++ (outstanding p).*2.
Proof.
  revert p. induction scans as [|isfile scans IH]; intros p; cbn [watch]; [done|].
  destruct (outstanding p) eqn:E; [by rewrite E|].
  rewrite IH, scan_partition. by rewrite E.
Qed.

(** What is still outstanding was outstanding before and was seen absent
    in every scan. *)
Lemma watch_outstanding (scans : list (string * nat → bool)) (p : FilePoller) fa :
  fa ∈ outstanding (watch scans p) →
  fa ∈ outstanding p ∧ ∀ isfile, isfile ∈ scans → isfile fa.1 = false.
Proof.
  revert p. induction scans as [|isfile scans IH]; intros p; cbn [watch].
  - intros H. split; [done|]. intros f Hf. by apply not_elem_of_nil in Hf.
  - destruct (outstanding p) eqn:E.
    + intros H. rewrite E in H. by apply not_elem_of_nil in H.
    + intros H. apply IH in H as [Hin Hno]. cbn in Hin.
      apply list_elem_of_filter in Hin as [Hf Hin]. rewrite E in Hin. split; [done|].
      intros f Hel. apply elem_of_cons in Hel as [->|Hel]; auto.
Qed.

Lemma elem_of_zip_fmap_seq {A B} (f : nat → A) (g : nat → B) (start n : nat) x :
  x ∈ zip (f <$> seq start n) (g <$> seq start n) →
  ∃ i, (start ≤ i < start + n)%nat ∧ x = (f i, g i).
Proof.
  revert start. induction n as [|n IH]; intros start; cbn.
  - intros H. by apply not_elem_of_nil in H.
  - intros H. apply elem_of_cons in H as [->|H].
    + exists start. split; [lia|done].
    + apply IH in H as (i & Hi & ->). exists i. split; [lia|done].
Qed.

Lemma run_poller_outstanding (uid : string) (cfg : Cfg) fa :
  fa ∈ outstanding (_run_poller uid cfg) →
  ∃ i, (i < population_size cfg)%nat ∧ fa = ((uid, i), [i]).
Proof.
  unfold _run_poller, readyfiles, poller_args, argument_list. cbn [outstanding].
  intros H. apply elem_of_zip_fmap_seq in H as (i & Hi & ->).
  exists i. split; [lia|done].
Qed.

Lemma run_poller_args (uid : string) (cfg : Cfg) :
  calls (_run_poller uid cfg) ++ (outstanding (_run_poller uid cfg)).*2
  = poller_args cfg.
Proof.
  unfold _run_poller. cbn [calls outstanding app]. apply snd_zip.
  unfold readyfiles, poller_args. by rewrite !length_fmap.
Qed.

Lemma poller_args_NoDup (cfg : Cfg) : NoDup (poller_args cfg).
Proof.
  unfold poller_args, argument_list. apply NoDup_fmap_2; [|apply NoDup_seq].
  by intros i j [= ->].
Qed.

Lemma elem_of_poller_args (cfg : Cfg) (a : list nat) :
  a ∈ poller_args cfg ↔ ∃ i, (i < population_size cfg)%nat ∧ a = [i].
Proof.
  unfold poller_args, argument_list. rewrite list_elem_of_fmap. split.
  - intros (i & -> & Hi). apply elem_of_seq in Hi. exists i. split; [lia|done].
  - intros (i & Hi & ->). exists i. split; [done|]. apply elem_of_seq. lia.
Qed.

(** C3. Whatever the successive states of the directory, the poller built
    by [_run_poller] never invokes the callback twice with the same
    arguments and only invokes it with [[i]] for a member id
    [i < population_size]; a marker seen present in any scan the loop
    makes, the first one included, has its callback invoked; and when every
    member's marker is seen in some scan, the invocations are exactly the
    expected argument lists, each once, and nothing is outstanding. *)
Theorem poller_invokes_once (uid : string) (cfg : Cfg)
    (scans : list (string * nat → bool)) :
  let p := watch scans (_run_poller uid cfg) in
  NoDup (calls p) ∧
  (∀ a, a ∈ calls p → ∃ i, (i < population_size cfg)%nat ∧ a = [i]) ∧
  (∀ i isfile, (i < population_size cfg)%nat → isfile ∈ scans →
     isfile (uid, i) = true → [i] ∈ calls p) ∧
  ((∀ i, (i < population_size cfg)%nat →
      ∃ isfile, isfile ∈ scans ∧ isfile (uid, i) = true) →
   calls p ≡ₚ poller_args cfg ∧ outstanding p = []).
Proof.
  cbv zeta.
  pose proof (watch_partition scans (_run_poller uid cfg)) as Hpart.
  rewrite run_poller_args in Hpart.
  assert (Hdeliver : ∀ i isfile, (i < population_size cfg)%nat → isfile ∈ scans →
            isfile (uid, i) = true → [i] ∈ calls (watch scans (_run_poller uid cfg))).
  { intros i isfile Hi Hin Htrue.
    assert (Hall : [i] ∈ poller_args cfg) by (apply elem_of_poller_args; eauto).
    rewrite <- Hpart in Hall. apply elem_of_app in Hall as [Hc|Ho]; [done|].
    apply list_elem_of_fmap in Ho as ([f a] & Ha & Ho). cbn in Ha. subst a.
    apply watch_outstanding in Ho as [Hinit Hno].
    apply run_poller_outstanding in Hinit as (j & _ & [= -> <-]).
    specialize (Hno isfile Hin). cbn in Hno. congruence. }
  split; [|split; [|split]].
  - pose proof (poller_args_NoDup cfg) as Hnd. rewrite <- Hpart in Hnd.
    by apply NoDup_app in Hnd as [? _].
  - intros a Ha. apply elem_of_poller_args. rewrite <- Hpart.
    apply elem_of_app. by left.
  - exact Hdeliver.
  - intros Hseen.
    assert (Hnone : outstanding (watch scans (_run_poller uid cfg)) = []).
    { destruct (outstanding (watch scans (_run_poller uid cfg))) as [|fa l] eqn:E; [done|].
      assert (Hfa : fa ∈ outstanding (watch scans (_run_poller uid cfg)))
        by (rewrite E; left).
      apply watch_outstanding in Hfa as [Hinit Hno].
      apply run_poller_outstanding in Hinit as (j & Hj & ->).
      destruct (Hseen j Hj) as (isfile & Hin & Htrue).
      specialize (Hno isfile Hin). cbn in Hno. congruence. }
    split; [|done]. rewrite Hnone in Hpart. cbn in Hpart.
    by rewrite app_nil_r in Hpart.
Qed.

Example poller_run_out_of_order :
  calls (watch Sample.scans (_run_poller "a1b2" Sample.cfg))
    = [[2]; [0]; [1]; [3]]%nat ∧
  outstanding (watch Sample.scans (_run_poller "a1b2" Sample.cfg)) = [].
Proof. split; reflexivity. Qed.

(** ** [reduce] *)

Lemma length_append (s t : string) :
  String.length (s +:+ t) = (String.length s + String.length t)%nat.
Proof. induction s as [|c s IH]; [done|]. simpl. by rewrite IH. Qed.

Lemma swapfilename_ne_hssfilename (cfg : Cfg) : swapfilename cfg ≠ hssfilename cfg.
Proof.
  unfold swapfilename. intros E. apply (f_equal String.length) in E.
  rewrite length_append in E. cbn in E. lia.
Qed.

Lemma swapfilename_ne_output (cfg : Cfg) : swapfilename cfg ≠ structure_output cfg.
Proof.
  unfold swapfilename, hssfilename. intros E. apply (f_equal String.length) in E.
  rewrite !length_append in E. cbn in E. lia.
Qed.

Example pack_beads_scenario : pack_beads 1000 (3000 * 1000) = Some 333%nat.
Proof. vm_compute. reflexivity. Qed.

(** C8. When the reorganization process exits with a non-zero code,
    [reduce] raises the repacking error and the output store and the
    working store are the files they were (only the swap path may hold
    what the process left); the ready files and result files are
    untouched.  The output store changes only if the process returned 0,
    and a normal return of [reduce] means the process returned 0 and the
    output store is the file found at the swap path. *)
Theorem reduce_failed_repack_keeps_store
    (h5repack : HssFile → nat → nat → Z * option HssFile)
    (intermediate_name : string) (cfg : Cfg) (fs : FS)
    (hss : HssFile) (pb : nat) (returncode : Z) (out : option HssFile) :
  hss_files fs !! hssfilename cfg = Some hss →
  pack_beads (nstruct hss) (nbead hss) = Some pb →
  h5repack hss pb (nstruct hss) = (returncode, out) →
  let r := (reduce h5repack intermediate_name cfg fs).1 in
  let fs' := (reduce h5repack intermediate_name cfg fs).2 in
  (returncode ≠ 0%Z →
     r = Raise (repack_error returncode) ∧
     hss_files fs' !! structure_output cfg = hss_files fs !! structure_output cfg ∧
     hss_files fs' !! hssfilename cfg = hss_files fs !! hssfilename cfg ∧
     ready fs' = ready fs ∧ hms_files fs' = hms_files fs) ∧
  (hss_files fs' !! structure_output cfg ≠ hss_files fs !! structure_output cfg →
     returncode = 0%Z) ∧
  (r = Ok () →
     returncode = 0%Z ∧
     hss_files fs' !! structure_output cfg
       = match out with
         | Some f => Some f
         | None => hss_files fs !! swapfilename cfg
         end).
Proof.
  intros Hfile Hpack Hsub. cbv zeta. unfold reduce.
  rewrite Hfile, Hpack, Hsub.
  set (fs1 := match out with
              | Some f => with_hss fs (<[swapfilename cfg := f]> (hss_files fs))
              | None => fs
              end).
  assert (Hout1 : hss_files fs1 !! structure_output cfg
                  = hss_files fs !! structure_output cfg).
  { subst fs1. destruct out; [|done]. cbn.
    apply lookup_insert_ne, swapfilename_ne_output. }
  assert (Hwork1 : hss_files fs1 !! hssfilename cfg = hss_files fs !! hssfilename cfg).
  { subst fs1. destruct out; [|done]. cbn.
    apply lookup_insert_ne, swapfilename_ne_hssfilename. }
  assert (Hrest1 : ready fs1 = ready fs ∧ hms_files fs1 = hms_files fs).
  { subst fs1. by destruct out. }
  assert (Hswap1 : hss_files fs1 !! swapfilename cfg
                   = match out with
                     | Some f => Some f
                     | None => hss_files fs !! swapfilename cfg
                     end).
  { subst fs1. destruct out; [|done]. cbn. apply lookup_insert_eq. }
  destruct (Z.eqb_spec returncode 0) as [->|Hrc]; cbn [negb].
  - split; [done|]. split; [done|]. intros Hok. split; [done|].
    destruct (hss_files fs1 !! swapfilename cfg) as [swap|] eqn:Hswap; [|done].
    set (fs2 := if keep_intermediate_structures cfg then _ else fs1) in *.
    assert (Hswap2 : hss_files fs2 !! swapfilename cfg = Some swap).
    { subst fs2. destruct (keep_intermediate_structures cfg); [|done]. cbn.
      destruct (decide (intermediate_name +:+ ".hss" = swapfilename cfg)) as [->|Hne].
      - apply lookup_insert_eq.
      - by rewrite lookup_insert_ne. }
    rewrite Hswap2. cbn. rewrite lookup_insert_eq. by rewrite <- Hswap1.
  - cbn [fst snd]. split; [|split]; [|intros Hch; by rewrite Hout1 in Hch|done].
    intros _. destruct Hrest1 as [Hr Hh]. cbn [fst snd]. by rewrite Hout1, Hwork1, Hr, Hh.
Qed.

Lemma reduce_failed_repack_keeps_store_witness :
  hss_files Sample.fs_reduce !! hssfilename Sample.cfg = Some Sample.store ∧
  pack_beads (nstruct Sample.store) (nbead Sample.store) = Some 2%nat ∧
  (reduce Sample.h5repack_failing "igm-model.hss.a1b2" Sample.cfg Sample.fs_reduce).1
    = Raise (repack_error 1) ∧
  hss_files (reduce Sample.h5repack_failing "igm-model.hss.a1b2" Sample.cfg
               Sample.fs_reduce).2 !! structure_output Sample.cfg
    = hss_files Sample.fs_reduce !! structure_output Sample.cfg.
Proof.
  assert (H1 : hss_files Sample.fs_reduce !! hssfilename Sample.cfg = Some Sample.store)
    by (vm_compute; reflexivity).
  assert (H2 : pack_beads (nstruct Sample.store) (nbead Sample.store) = Some 2%nat)
    by (vm_compute; reflexivity).
  destruct (reduce_failed_repack_keeps_store Sample.h5repack_failing
              "igm-model.hss.a1b2" Sample.cfg Sample.fs_reduce Sample.store 2 1
              (Some Sample.store) H1 H2 eq_refl) as (Hfail & _ & _).
  destruct Hfail as (Hr & Hout & _); [lia|].
  split; [exact H1|]. split; [exact H2|]. split; [exact Hr | exact Hout].
Defined.

(** * Further properties *)

(** ** [get_violation_histogram] *)

Lemma length_bincount (bins : nat) (lo hi : Qc) (a : list Qc) :
  length (bincount bins lo hi a) = bins.
Proof.
  unfold bincount. generalize (length_replicate bins 0%nat).
  generalize (replicate bins 0%nat). induction a as [|x a IH]; intros H0 Hlen; [done|].
  cbn [foldl]. apply IH. destruct (in_range lo hi x); [by rewrite length_alter|done].
Qed.

(** [get_violation_histogram] fails exactly when [np.histogram] rejects
    its arguments: no bins, or a negative [vmax] (a reversed range). *)
Lemma get_violation_histogram_raises_iff (v : list Qc) (nbins : nat) (vmax : Qc) :
  get_violation_histogram v nbins vmax = None ↔ nbins = 0%nat ∨ vmax < 0.
Proof.
  unfold get_violation_histogram, np_histogram.
  destruct (Nat.eqb_spec nbins 0) as [->|Hn]; cbn; [by split; [left|]|].
  destruct (decide (vmax < 0)) as [Hneg|Hpos]; cbn; [by split; [right|]|].
  destruct (outer_edges 0 vmax). cbn. split; [done|]. by intros [?|?].
Qed.

Lemma filter_in_range_select_le (lo hi : Qc) (v : list Qc) :
  filter (λ x, in_range lo hi x = true) (select_le hi v)
  = filter (λ x, lo ≤ x ∧ x ≤ hi) v.
Proof.
  unfold select_le. induction v as [|x v IH]; [done|].
  destruct (decide (x ≤ hi)) as [Hle|Hgt].
  - rewrite (filter_cons_True (λ x, x ≤ hi)) by done.
    destruct (decide (lo ≤ x)) as [Hlo|Hlo].
    + rewrite !filter_cons_True; [by rewrite IH|done|by apply in_range_true].
    + rewrite !filter_cons_False; [done|by intros [? ?]|].
      rewrite in_range_true. by intros [? ?].
  - rewrite (filter_cons_False (λ x, x ≤ hi)) by done.
    rewrite filter_cons_False by (by intros [? ?]). done.
Qed.

Lemma length_filter_nonneg_split (c : Qc) (v : list Qc) :
  0 ≤ c →
  Nat.add (length (filter (λ x, 0 ≤ x ∧ x ≤ c) v)) (count_gt c v)
  = length (filter (λ x, 0 ≤ x) v).
Proof.
  intros Hc. unfold count_gt. induction v as [|x v IH]; [done|].
  destruct (decide (0 ≤ x)) as [H0|H0].
  - rewrite (filter_cons_True (λ x, 0 ≤ x)) by done.
    destruct (decide (x ≤ c)) as [Hle|Hgt].
    + rewrite filter_cons_True by done.
      rewrite (filter_cons_False (λ x, c < x)) by (by apply Qcle_not_lt).
      simpl. lia.
    + rewrite filter_cons_False by (by intros [? ?]).
      rewrite (filter_cons_True (λ x, c < x)) by (by apply Qcnot_le_lt).
      simpl. lia.
  - rewrite (filter_cons_False (λ x, 0 ≤ x)) by done.
    rewrite filter_cons_False by (by intros [? ?]).
    rewrite (filter_cons_False (λ x, c < x)).
    + exact IH.
    + intros Hlt. apply H0. apply Qclt_le_weak. by eapply Qcle_lt_trans.
Qed.

(** X1. With a positive [vmax] a negative ratio is counted nowhere: it is
    neither in an interior bin nor in the overflow bin, so the counts sum
    to the number of nonnegative ratios. *)
Theorem get_violation_histogram_drops_negative
    (v : list Qc) (nbins : nat) (vmax : Qc) :
  (1 ≤ nbins)%nat → 0 < vmax →
  ∃ H edges,
    get_violation_histogram v nbins vmax = Some (H, edges) ∧
    sum_nat (take nbins H) = length (filter (λ x, 0 ≤ x ∧ x ≤ vmax) v) ∧
    sum_nat H = length (filter (λ x, 0 ≤ x) v).
Proof.
  intros Hb Hv. unfold get_violation_histogram, np_histogram.
  destruct (Nat.eqb_spec nbins 0) as [->|_]; [lia|].
  destruct (decide (vmax < 0)) as [Hneg|_].
  { exfalso. apply (Qclt_not_le _ _ Hneg). by apply Qclt_le_weak. }
  unfold outer_edges. destruct (decide (0 = vmax)) as [E|_].
  { exfalso. apply Qclt_not_eq in Hv. done. }
  cbn.
  destruct (bincount_spec nbins 0 vmax (select_le vmax v) Hb Hv) as [Hlen Hsum].
  rewrite filter_in_range_select_le in Hsum.
  eexists _, _. split; [reflexivity|]. split.
  - rewrite take_app_length' by done. exact Hsum.
  - rewrite sum_nat_app, Hsum. cbn. rewrite Nat.add_0_r.
    apply length_filter_nonneg_split. by apply Qclt_le_weak.
Qed.

Lemma get_violation_histogram_drops_negative_witness :
  ∃ H edges,
    get_violation_histogram [Q2Qc (-1 # 4); Q2Qc (1 # 4); Q2Qc 2] 100 (Q2Qc 1)
      = Some (H, edges) ∧
    sum_nat H = 2%nat.
Proof.
  destruct (get_violation_histogram_drops_negative
              [Q2Qc (-1 # 4); Q2Qc (1 # 4); Q2Qc 2] 100 (Q2Qc 1))
    as (H & edges & E & _ & Hsum).
  - lia.
  - done.
  - exists H, edges. split; [exact E|]. rewrite Hsum. vm_compute. reflexivity.
Defined.

Lemma alter_S_add_counts (H0 Z : list nat) (i : nat) :
  alter S i (add_counts H0 Z) = add_counts H0 (alter S i Z).
Proof.
  unfold add_counts. revert Z i. induction H0 as [|h H0 IH]; intros [|z Z] i; try done.
  destruct i as [|i].
  - cbn. by rewrite Nat.add_succ_r.
  - change (alter S (S i) (zip_with Nat.add (h :: H0) (z :: Z)))
      with ((h + z)%nat :: alter S i (zip_with Nat.add H0 Z)).
    change (zip_with Nat.add (h :: H0) (alter S (S i) (z :: Z)))
      with ((h + z)%nat :: zip_with Nat.add H0 (alter S i Z)).
    f_equal. apply IH.
Qed.

Lemma add_counts_zeros (H0 : list nat) :
  add_counts H0 (replicate (length H0) 0%nat) = H0.
Proof.
  unfold add_counts. induction H0 as [|h H0 IH]; [done|].
  cbn. rewrite Nat.add_0_r. by f_equal.
Qed.

Lemma bincount_fold_add (bins : nat) (lo hi : Qc) (b : list Qc) (H0 Z : list nat) :
  foldl (λ H x, if in_range lo hi x then alter S (bin_index bins lo hi x) H else H)
        (add_counts H0 Z) b
  = add_counts H0
      (foldl (λ H x, if in_range lo hi x then alter S (bin_index bins lo hi x) H else H)
             Z b).
Proof.
  revert Z. induction b as [|x b IH]; intros Z; [done|].
  cbn [foldl]. destruct (in_range lo hi x); [|apply IH].
  rewrite alter_S_add_counts. apply IH.
Qed.

Lemma bincount_app (bins : nat) (lo hi : Qc) (a b : list Qc) :
  bincount bins lo hi (a ++ b)
  = add_counts (bincount bins lo hi a) (bincount bins lo hi b).
Proof.
  unfold bincount at 1. rewrite foldl_app. fold (bincount bins lo hi a).
  rewrite <- (add_counts_zeros (bincount bins lo hi a)) at 1.
  rewrite length_bincount. apply bincount_fold_add.
Qed.

(** X2. The histogram of two batches of ratios taken together is the
    bin-wise sum of their histograms, overflow bin included, with the same
    edges. *)
Theorem get_violation_histogram_app
    (v w : list Qc) (nbins : nat) (vmax : Qc)
    (H1 H2 : list nat) (e1 e2 : list Edge) :
  get_violation_histogram v nbins vmax = Some (H1, e1) →
  get_violation_histogram w nbins vmax = Some (H2, e2) →
  get_violation_histogram (v ++ w) nbins vmax = Some (add_counts H1 H2, e1) ∧
  e2 = e1.
Proof.
  unfold get_violation_histogram, np_histogram.
  destruct (nbins =? 0)%nat; [done|].
  destruct (decide (vmax < 0)); [done|].
  destruct (outer_edges 0 vmax) as [lo hi]. cbn.
  intros [= <- <-] [= <- <-]. split; [|done]. do 2 f_equal.
  unfold select_le, count_gt. rewrite !filter_app, bincount_app, length_app.
  unfold add_counts. rewrite zip_with_app by (by rewrite !length_bincount). done.
Qed.

Lemma get_violation_histogram_app_witness :
  ∃ H1 H2 e,
    get_violation_histogram [Q2Qc (1 # 2)] 100 (Q2Qc 1) = Some (H1, e) ∧
    get_violation_histogram [Q2Qc 3; Q2Qc (1 # 2)] 100 (Q2Qc 1) = Some (H2, e) ∧
    get_violation_histogram [Q2Qc (1 # 2); Q2Qc 3; Q2Qc (1 # 2)] 100 (Q2Qc 1)
      = Some (add_counts H1 H2, e).
Proof.
  destruct (get_violation_histogram [Q2Qc (1 # 2)] 100 (Q2Qc 1))
    as [[H1 e1]|] eqn:E1; [|by vm_compute in E1].
  destruct (get_violation_histogram [Q2Qc 3; Q2Qc (1 # 2)] 100 (Q2Qc 1))
    as [[H2 e2]|] eqn:E2; [|by vm_compute in E2].
  destruct (get_violation_histogram_app _ _ _ _ _ _ _ _ E1 E2) as [Happ ->].
  exists H1, H2, e1. split; [reflexivity|]. split; [reflexivity|]. exact Happ.
Defined.

Lemma Qc_of_nat_nonzero (n : nat) : (1 ≤ n)%nat → Qc_of_nat n ≠ 0.
Proof.
  intros Hn E. apply (f_equal this) in E. cbn in E.
  injection E as E. lia.
Qed.

(** X3. With at least one bin and a positive [vmax] the edges are the
    [nbins + 1] edges of the interior bins, from 0 to [vmax], followed by
    infinity. *)
Theorem get_violation_histogram_edges (v : list Qc) (nbins : nat) (vmax : Qc) :
  (1 ≤ nbins)%nat → 0 < vmax →
  ∃ H edges,
    get_violation_histogram v nbins vmax = Some (H, edges) ∧
    length edges = (nbins + 2)%nat ∧
    edges !! 0%nat = Some (Fin 0) ∧
    edges !! nbins = Some (Fin vmax) ∧
    edges !! (nbins + 1)%nat = Some Inf.
Proof.
  intros Hb Hv. unfold get_violation_histogram, np_histogram.
  destruct (Nat.eqb_spec nbins 0) as [->|_]; [lia|].
  destruct (decide (vmax < 0)) as [Hneg|_].
  { exfalso. apply (Qclt_not_le _ _ Hneg). by apply Qclt_le_weak. }
  unfold outer_edges. destruct (decide (0 = vmax)) as [E|_].
  { exfalso. apply Qclt_not_eq in Hv. done. }
  cbn [mbind option_bind].
  eexists _, _. split; [reflexivity|].
  assert (Hlen : length (Fin <$> linspace nbins 0 vmax) = S nbins).
  { unfold linspace. by rewrite !length_fmap, length_seq. }
  split; [rewrite length_app, Hlen; cbn; lia|].
  split; [|split].
  - rewrite lookup_app_l by (rewrite Hlen; lia).
    unfold linspace. rewrite !list_lookup_fmap. cbn. do 2 f_equal.
    all: change (Qc_of_Z 0) with (Q2Qc 0); field; by apply Qc_of_nat_nonzero.
  - rewrite lookup_app_l by (rewrite Hlen; lia).
    unfold linspace. rewrite !list_lookup_fmap, lookup_seq_lt by lia. cbn.
    f_equal. f_equal. field. by apply Qc_of_nat_nonzero.
  - rewrite lookup_app_r by (rewrite Hlen; lia).
    rewrite Hlen. by replace (nbins + 1 - S nbins)%nat with 0%nat by lia.
Qed.

Lemma get_violation_histogram_edges_witness :
  ∃ H edges,
    get_violation_histogram [Q2Qc (1 # 2)] 100 (Q2Qc 1) = Some (H, edges) ∧
    length edges = 102%nat ∧ edges !! 100%nat = Some (Fin (Q2Qc 1)).
Proof.
  destruct (get_violation_histogram_edges [Q2Qc (1 # 2)] 100 (Q2Qc 1))
    as (H & edges & E & Hlen & _ & Hlast & _).
  - lia.
  - done.
  - exists H, edges. split; [exact E|]. split; [exact Hlen | exact Hlast].
Defined.

(** ** The task runner *)

Lemma get_violation_histogram_default_length (v : list Qc) H e :
  get_violation_histogram_default v = Some (H, e) →
  length H = (DEFAULT_HIST_BINS + 1)%nat.
Proof.
  unfold get_violation_histogram_default, get_violation_histogram, np_histogram.
  cbn. destruct (decide (1 < 0)); [done|]. destruct (outer_edges 0 1). cbn.
  intros [= <- _]. rewrite length_app, length_bincount. done.
Qed.

Lemma restraint_stat_fields (tol : Qc) (r : Restraint) (c : CStat) :
  restraint_stat tol r = Some c →
  shape_ok c = true ∧
  cs_n_imposed c = Some (Qc_of_nat (restraint_n_imposed r)) ∧
  cs_n_violations c = Some (Qc_of_nat (count_gt tol (restraint_ratios r))).
Proof.
  unfold restraint_stat.
  destruct (get_violation_histogram_default (restraint_ratios r)) as [[H e]|] eqn:E;
    [|done].
  cbn. intros [= <-]. split; [|done]. unfold shape_ok. cbn.
  rewrite length_fmap, (get_violation_histogram_default_length _ _ _ E).
  done.
Qed.

Lemma last_cons_cases {A} (x : A) (l : list A) :
  last (x :: l) = match last l with Some y => Some y | None => Some x end.
Proof. change (x :: l) with ([x] ++ l). rewrite last_app. by destruct (last l). Qed.

Lemma violation_statistics_fold (tol : Qc) (monitored : list Restraint)
    (acc : gmap string CStat) :
  ∃ vstat,
    foldl (λ acc r, vstat ← acc; c ← restraint_stat tol r; Some (<[repr r := c]> vstat))
          (Some acc) monitored = Some vstat ∧
    ∀ k, vstat !! k = match last_with_repr k monitored with
                      | Some r => restraint_stat tol r
                      | None => acc !! k
                      end.
Proof.
  revert acc. induction monitored as [|r l IH]; intros acc; cbn [foldl].
  - exists acc. split; [done|]. intros k. done.
  - destruct (restraint_stat_some tol r) as [c Hc]. cbn [mbind option_bind].
    rewrite Hc. destruct (IH (<[repr r := c]> acc)) as (vstat & Hfold & Hlook).
    exists vstat. split; [exact Hfold|]. intros k. rewrite Hlook.
    unfold last_with_repr. destruct (decide (repr r = k)) as [<-|Hne].
    + rewrite (filter_cons_True (λ r0, repr r0 = repr r)) by done.
      rewrite last_cons_cases.
      destruct (last (filter (λ r0, repr r0 = repr r) l)); [done|].
      by rewrite lookup_insert_eq.
    + rewrite (filter_cons_False (λ r0, repr r0 = k)) by done.
      destruct (last (filter (λ r0, repr r0 = k) l)); [done|].
      by rewrite lookup_insert_ne.
Qed.

Lemma violation_statistics_lookup (tol : Qc) (monitored : list Restraint) :
  ∃ vstat,
    violation_statistics tol monitored = Some vstat ∧
    ∀ k, vstat !! k = last_with_repr k monitored ≫= restraint_stat tol.
Proof.
  destruct (violation_statistics_fold tol monitored ∅) as (vstat & Hfold & Hlook).
  exists vstat. split; [exact Hfold|]. intros k. rewrite Hlook.
  destruct (last_with_repr k monitored); [done|]. by rewrite lookup_empty.
Qed.

Lemma last_with_repr_Some (k : string) (monitored : list Restraint) (r : Restraint) :
  last_with_repr k monitored = Some r → r ∈ monitored ∧ repr r = k.
Proof.
  unfold last_with_repr. intros H. apply last_Some_elem_of in H.
  apply list_elem_of_filter in H. tauto.
Qed.

Lemma violation_statistics_records (tol : Qc) (monitored : list Restraint)
    (vstat : gmap string CStat) :
  violation_statistics tol monitored = Some vstat →
  ∀ k c, vstat !! k = Some c →
    ∃ r, r ∈ monitored ∧ repr r = k ∧ restraint_stat tol r = Some c.
Proof.
  intros Hv k c Hk.
  destruct (violation_statistics_lookup tol monitored) as (vstat' & Hv' & Hlook).
  rewrite Hv in Hv'. injection Hv' as <-. rewrite Hlook in Hk.
  destruct (last_with_repr k monitored) as [r|] eqn:Hr; [|done].
  apply last_with_repr_Some in Hr as [Hin Hrepr]. eauto.
Qed.

Lemma violation_statistics_shapes (tol : Qc) (monitored : list Restraint)
    (vstat : gmap string CStat) :
  violation_statistics tol monitored = Some vstat →
  consistent_shapes (map_to_list (RecDict <$> vstat)) = true.
Proof.
  intros Hv. unfold consistent_shapes. apply forallb_forall. intros [k r] Hin.
  apply list_elem_of_In, elem_of_map_to_list in Hin.
  rewrite lookup_fmap in Hin.
  destruct (vstat !! k) as [c|] eqn:Hk; [|done]. injection Hin as <-.
  destruct (violation_statistics_records tol monitored vstat Hv k c Hk)
    as (r & _ & _ & Hstat).
  by apply restraint_stat_fields in Hstat as [? _].
Qed.

(** X4. The statistics the task writes are always in the shape the
    aggregator adds up: every record has a histogram of
    [DEFAULT_HIST_BINS + 1] counts, the number of restraints imposed by one
    monitored restraint with that [repr], and the number of its ratios above
    the tolerance. *)
Theorem task_statistics_well_formed (tol : Qc) (monitored : list Restraint) :
  ∃ vstat,
    violation_statistics tol monitored = Some vstat ∧
    consistent_shapes (map_to_list (RecDict <$> vstat)) = true ∧
    ∀ k c, vstat !! k = Some c →
      ∃ r, r ∈ monitored ∧ repr r = k ∧
           cs_n_imposed c = Some (Qc_of_nat (restraint_n_imposed r)) ∧
           cs_n_violations c = Some (Qc_of_nat (count_gt tol (restraint_ratios r))).
Proof.
  destruct (violation_statistics_some tol monitored) as [vstat Hv].
  exists vstat. split; [exact Hv|]. split.
  - by eapply violation_statistics_shapes.
  - intros k c Hk.
    destruct (violation_statistics_records tol monitored vstat Hv k c Hk)
      as (r & Hin & Hrepr & Hstat).
    apply restraint_stat_fields in Hstat as (_ & Hi & Hvio). eauto.
Qed.

(** X5. [vstat] is a dict keyed by [repr]: it has an entry exactly for the
    [repr] of each monitored restraint, and when several restraints share a
    [repr] the entry is that of the last one. *)
Theorem task_statistics_last_repr_wins (tol : Qc) (monitored : list Restraint) :
  ∃ vstat,
    violation_statistics tol monitored = Some vstat ∧
    (∀ k, is_Some (vstat !! k) ↔ k ∈ repr <$> monitored) ∧
    (∀ l1 r l2, monitored = l1 ++ r :: l2 → repr r ∉ repr <$> l2 →
       vstat !! repr r = restraint_stat tol r).
Proof.
  destruct (violation_statistics_lookup tol monitored) as (vstat & Hv & Hlook).
  exists vstat. split; [exact Hv|]. split.
  - intros k. rewrite Hlook. split.
    + intros [c Hc]. destruct (last_with_repr k monitored) as [r|] eqn:Hr; [|done].
      apply last_with_repr_Some in Hr as [Hin <-].
      apply list_elem_of_fmap. eauto.
    + intros Hin. apply list_elem_of_fmap in Hin as (r & -> & Hin).
      unfold last_with_repr.
      destruct (last (filter (λ r0, repr r0 = repr r) monitored)) as [r'|] eqn:Hl.
      * cbn. apply restraint_stat_some.
      * apply last_None in Hl.
        assert (Hr : r ∈ filter (λ r0, repr r0 = repr r) monitored)
          by (by apply list_elem_of_filter).
        rewrite Hl in Hr. by apply not_elem_of_nil in Hr.
  - intros l1 r l2 -> Hfresh. rewrite Hlook. unfold last_with_repr.
    rewrite filter_app, (filter_cons_True (λ r0, repr r0 = repr r)) by done.
    assert (Hnil : filter (λ r0, repr r0 = repr r) l2 = []).
    { destruct (filter (λ r0, repr r0 = repr r) l2) as [|r' f] eqn:Hf; [done|].
      assert (Hr' : r' ∈ filter (λ r0, repr r0 = repr r) l2) by (rewrite Hf; left).
      apply list_elem_of_filter in Hr' as [Hrepr Hin]. exfalso. apply Hfresh.
      apply list_elem_of_fmap. eauto. }
    rewrite Hnil, last_snoc. done.
Qed.

Lemma task_statistics_last_repr_wins_witness :
  ∃ vstat,
    violation_statistics (Q2Qc (1 # 100))
      [Sample.envelope; {| repr := "Envelope"; forces := [] |}] = Some vstat ∧
    vstat !! "Envelope"
      = restraint_stat (Q2Qc (1 # 100)) {| repr := "Envelope"; forces := [] |}.
Proof.
  destruct (task_statistics_last_repr_wins (Q2Qc (1 # 100))
              [Sample.envelope; {| repr := "Envelope"; forces := [] |}])
    as (vstat & Hv & _ & Hlast).
  exists vstat. split; [exact Hv|].
  apply (Hlast [Sample.envelope] {| repr := "Envelope"; forces := [] |} []).
  - reflexivity.
  - cbn. apply not_elem_of_nil.
Defined.

Lemma imap_sound {A} (f : nat → A → A) (l : list A) :
  (∀ k c, f k c = c) → imap f l = l.
Proof.
  revert f. induction l as [|x l IH]; intros f Hf; [done|].
  rewrite imap_cons, Hf. f_equal. apply IH. intros k c. apply Hf.
Qed.

(** X6. On a medium that returns what was stored, the read-back always
    agrees: a task that gets as far as an optimized model returns normally,
    leaves the result file with the model's coordinates and the statistics,
    and creates the ready file. *)
Theorem task_sound_medium_completes
    (env : TaskEnv) (struct_id : nat) (cfg : Cfg) (fs : FS) (model : Optimized) :
  (∀ k c, medium env struct_id k c = c) →
  task_skips struct_id cfg fs = false →
  task_model env struct_id cfg fs = Ok model →
  ∃ vstat,
    violation_statistics (default (Q2Qc (1 # 100)) (violation_tolerance cfg))
      (opt_monitored model) = Some vstat ∧
    (task env struct_id cfg fs).1 = Ok () ∧
    hms_files (task env struct_id cfg fs).2 !! struct_id
      = Some {| hms_coordinates := opt_coordinates model;
                hms_violation_stats := StatsJson (RecDict <$> vstat);
                hms_opt_info := opt_info_scalars <$> opt_info model;
                hms_opt_info_dict := opt_info model |} ∧
    (default "xxxx" (step_hash cfg), struct_id) ∈ ready (task env struct_id cfg fs).2.
Proof.
  intros Hsound Hskip Hmodel. unfold task. rewrite Hskip, Hmodel. unfold task_write.
  destruct (violation_statistics_some
              (default (Q2Qc (1 # 100)) (violation_tolerance cfg))
              (opt_monitored model)) as [vstat Hv].
  rewrite Hv. exists vstat. split; [done|].
  unfold np_all_eq, result_file, stored_coordinates. cbn [hms_coordinates].
  rewrite (imap_sound _ _ Hsound), bool_decide_eq_true_2 by done.
  cbn. rewrite lookup_insert_eq. split; [done|]. split; [done|]. set_solver.
Qed.

Lemma task_sound_medium_completes_witness :
  (∀ k c, medium Sample.env 1 k c = c) ∧
  task_skips 1 Sample.cfg Sample.fs = false ∧
  task_model Sample.env 1 Sample.cfg Sample.fs = Ok Sample.model ∧
  (task Sample.env 1 Sample.cfg Sample.fs).1 = Ok () ∧
  ("a1b2", 1%nat) ∈ ready (task Sample.env 1 Sample.cfg Sample.fs).2.
Proof.
  assert (H0 : ∀ k c, medium Sample.env 1 k c = c) by reflexivity.
  assert (H1 : task_skips 1 Sample.cfg Sample.fs = false) by (vm_compute; reflexivity).
  assert (H2 : task_model Sample.env 1 Sample.cfg Sample.fs = Ok Sample.model)
    by (vm_compute; reflexivity).
  destruct (task_sound_medium_completes Sample.env 1 Sample.cfg Sample.fs
              Sample.model H0 H1 H2) as (vstat & _ & Hok & _ & Hready).
  split; [exact H0|]. split; [exact H1|]. split; [exact H2|].
  split; [exact Hok | exact Hready].
Defined.

Lemma task_write_ok_marker (env : TaskEnv) (struct_id : nat) (cfg : Cfg)
    (model : Optimized) (fs : FS) :
  (task_write env struct_id cfg model fs).1 = Ok () →
  (default "xxxx" (step_hash cfg), struct_id)
    ∈ ready (task_write env struct_id cfg model fs).2.
Proof.
  unfold task_write.
  destruct (violation_statistics _ _); [|done].
  destruct (negb _); [done|]. cbn. intros _. set_solver.
Qed.

(** X7. Re-running a task that returned normally does nothing when clean
    restart is not set: the second run returns at once and leaves the
    directory as the first run left it. *)
Theorem task_rerun_is_noop (env : TaskEnv) (struct_id : nat) (cfg : Cfg) (fs : FS) :
  default false (clean_restart cfg) = false →
  (task env struct_id cfg fs).1 = Ok () →
  task env struct_id cfg (task env struct_id cfg fs).2
    = (Ok (), (task env struct_id cfg fs).2).
Proof.
  intros Hclean Hok.
  assert (Hmarker : (default "xxxx" (step_hash cfg), struct_id)
                      ∈ ready (task env struct_id cfg fs).2).
  { revert Hok. unfold task.
    destruct (task_skips struct_id cfg fs) eqn:Hskip.
    - intros _. cbn. unfold task_skips in Hskip. rewrite Hclean in Hskip.
      cbn in Hskip. by apply bool_decide_eq_true in Hskip.
    - destruct (task_model env struct_id cfg fs) as [model|e]; [|done].
      apply task_write_ok_marker. }
  unfold task at 1. unfold task_skips. rewrite Hclean. cbn [negb andb].
  by rewrite bool_decide_eq_true_2.
Qed.

Lemma task_rerun_is_noop_witness :
  default false (clean_restart Sample.cfg) = false ∧
  (task Sample.env 1 Sample.cfg Sample.fs).1 = Ok () ∧
  task Sample.env 1 Sample.cfg (task Sample.env 1 Sample.cfg Sample.fs).2
    = (Ok (), (task Sample.env 1 Sample.cfg Sample.fs).2).
Proof.
  assert (H1 : default false (clean_restart Sample.cfg) = false) by reflexivity.
  assert (H2 : (task Sample.env 1 Sample.cfg Sample.fs).1 = Ok ())
    by (vm_compute; reflexivity).
  split; [exact H1|]. split; [exact H2|].
  exact (task_rerun_is_noop Sample.env 1 Sample.cfg Sample.fs H1 H2).
Defined.

(** X8. Whatever its outcome, a task touches nothing but its own member:
    the stores are unchanged, the result files of the other members are
    unchanged, no ready file is removed, and the only ready file it may
    add is its own. *)
Theorem task_touches_own_member_only
    (env : TaskEnv) (struct_id : nat) (cfg : Cfg) (fs : FS) :
  let fs' := (task env struct_id cfg fs).2 in
  hss_files fs' = hss_files fs ∧
  (∀ j, j ≠ struct_id → hms_files fs' !! j = hms_files fs !! j) ∧
  ready fs ⊆ ready fs' ∧
  ready fs' ⊆ {[ (default "xxxx" (step_hash cfg), struct_id) ]} ∪ ready fs.
Proof.
  cbv zeta. unfold task.
  destruct (task_skips struct_id cfg fs); [by repeat split; set_solver|].
  destruct (task_model env struct_id cfg fs) as [model|e];
    [|by repeat split; set_solver].
  unfold task_write. destruct (violation_statistics _ _) as [vstat|].
  - destruct (negb _); cbn.
    + split; [done|]. split; [|set_solver].
      intros j Hj. by rewrite lookup_insert_ne.
    + split; [done|]. split; [|set_solver].
      intros j Hj. by rewrite lookup_insert_ne.
  - cbn. split; [done|]. split; [|set_solver].
    intros j Hj. by rewrite lookup_insert_ne.
Qed.

(** X9. [before_map] removes ready files only on a clean restart, and then
    only those of this step's members: a ready file survives exactly when
    clean restart is off, or it belongs to another step, or its id is not a
    member id.  Result files and stores are left alone. *)
Theorem before_map_removes_own_markers
    (uid : string) (cfg : Cfg) (fs : FS) (x : string * nat) :
  (x ∈ ready (before_map uid cfg fs) ↔
     x ∈ ready fs ∧
     ¬ (default false (clean_restart cfg) = true ∧ x.1 = uid ∧
        (x.2 < population_size cfg)%nat)) ∧
  hms_files (before_map uid cfg fs) = hms_files fs ∧
  hss_files (before_map uid cfg fs) = hss_files fs.
Proof.
  unfold before_map. destruct (default false (clean_restart cfg)); cbn.
  - split; [|done]. rewrite foldl_difference_singletons. split.
    + intros [Hin Hne]. split; [done|]. intros (_ & Hu & Hlt).
      apply (Hne x.2); [apply elem_of_seq; lia|]. destruct x. cbn in *. by subst.
    + intros [Hin Hne]. split; [done|]. intros i Hi%elem_of_seq ->.
      apply Hne. cbn. split; [done|]. split; [done|lia].
  - split; [|done]. split; [|by intros [? _]].
    intros Hin. split; [done|]. by intros [? _].
Qed.

(** X10. A result file written by a task that returned normally is taken
    in by the aggregator without error, provided the member has a slot in
    the store and in the per-member arrays, the store accepts the
    coordinates, and the optimizer's info dict (if any) has a [thermo]
    dict. *)
Theorem task_result_is_aggregated
    (env : TaskEnv) (io : StoreIO) (cfg : Cfg) (store : HssFile)
    (struct_id : nat) (fs : FS) (model : Optimized) (s : Poller) :
  task_skips struct_id cfg fs = false →
  task_model env struct_id cfg fs = Ok model →
  (task env struct_id cfg fs).1 = Ok () →
  optinfo_has_thermo model = true →
  poller_inv cfg store s →
  (struct_id < nstruct store)%nat → (struct_id < population_size cfg)%nat →
  accepts_crd io struct_id = true →
  ∃ s', set_structure io (hms_files (task env struct_id cfg fs).2) struct_id s
          = (Ok (), s') ∧
        poller_inv cfg store s'.
Proof.
  intros Hskip Hmodel Hok Hthermo Hinv Hns Hpop Hio.
  assert (Hm : member_ok io cfg store (hms_files (task env struct_id cfg fs).2)
                 struct_id = true).
  { revert Hok. unfold task. rewrite Hskip, Hmodel. unfold task_write.
    destruct (violation_statistics _ _) as [vstat|] eqn:Hv; [|done].
    destruct (negb _); [done|]. intros _. cbn.
    unfold member_ok. rewrite lookup_insert_eq.
    apply Nat.ltb_lt in Hns, Hpop. rewrite Hns, Hpop, Hio.
    cbn [andb load_vstat result_file hms_violation_stats from_option].
    rewrite (violation_statistics_shapes _ _ _ Hv). exact Hthermo. }
  destruct (set_structure_total cfg store io _ struct_id s Hinv Hm)
    as (s' & Hrun & Hinv' & _).
  eauto.
Qed.

Lemma task_result_is_aggregated_witness :
  task_skips 1 Sample.cfg Sample.fs = false ∧
  task_model Sample.env 1 Sample.cfg Sample.fs = Ok Sample.model ∧
  ∃ s', set_structure Sample.io (hms_files (task Sample.env 1 Sample.cfg Sample.fs).2)
          1 (setup_poller Sample.cfg Sample.store) = (Ok (), s').
Proof.
  assert (H1 : task_skips 1 Sample.cfg Sample.fs = false) by (vm_compute; reflexivity).
  assert (H2 : task_model Sample.env 1 Sample.cfg Sample.fs = Ok Sample.model)
    by (vm_compute; reflexivity).
  split; [exact H1|]. split; [exact H2|].
  destruct (task_result_is_aggregated Sample.env Sample.io Sample.cfg Sample.store
              1 Sample.fs Sample.model (setup_poller Sample.cfg Sample.store) H1 H2)
    as (s' & Hrun & _).
  - vm_compute. reflexivity.
  - reflexivity.
  - apply setup_poller_inv.
  - simpl. lia.
  - simpl. lia.
  - reflexivity.
  - exists s'. exact Hrun.
Defined.

(** ** The aggregator *)

Section Frames.

Context (R : relation Poller) `{!PreOrder R}.

Lemma frames_ret {A} (a : A) : frames R (mret a : M A).
Proof. intros s. apply reflexivity. Qed.

Lemma frames_raise {A} (e : Exc) : frames R (raise e : M A).
Proof. intros s. apply reflexivity. Qed.

Lemma frames_gets {A} (f : Poller → A) : frames R (gets f).
Proof. intros s. apply reflexivity. Qed.

Lemma frames_lift {A} (e : Exc) (o : option A) : frames R (lift e o).
Proof. destruct o; intros s; apply reflexivity. Qed.

Lemma frames_modify (f : Poller → Poller) :
  (∀ s, R s (f s)) → frames R (modify f).
Proof. intros Hf s. apply Hf. Qed.

Lemma frames_bind {A B} (m : M A) (k : A → M B) :
  frames R m → (∀ a, frames R (k a)) → frames R (m ≫= k).
Proof.
  intros Hm Hk s. rewrite bind_run. specialize (Hm s).
  destruct (m s) as [[a|e] s1]; cbn in *; [|done].
  etrans; [exact Hm|]. apply Hk.
Qed.

Lemma frames_except (m : M unit) : frames R m → frames R (except_KeyError m).
Proof.
  intros Hm s. unfold except_KeyError. specialize (Hm s).
  destruct (m s) as [[a|e] s1]; cbn in *; [done|]. by destruct e.
Qed.

End Frames.

#[local] Instance same_hss_preorder : PreOrder same_hss.
Proof. split; [by intros s|]. intros s1 s2 s3. unfold same_hss. congruence. Qed.

#[local] Instance same_counts_preorder : PreOrder same_counts.
Proof.
  split; [by intros s|]. intros s1 s2 s3 (?&?&?) (?&?&?).
  repeat split; congruence.
Qed.

#[local] Instance same_totals_preorder : PreOrder same_totals.
Proof.
  split; [intros s; apply same_totals_refl|].
  intros s1 s2 s3. apply same_totals_trans.
Qed.

Ltac frames_step :=
  lazymatch goal with
  | |- frames ?R (mbind _ _) => apply (frames_bind R); [|intros ?]
  | |- frames ?R (mret _) => apply (frames_ret R)
  | |- frames ?R (raise _) => apply (frames_raise R)
  | |- frames ?R (gets _) => apply (frames_gets R)
  | |- frames ?R (lift _ _) => apply (frames_lift R)
  | |- frames ?R (except_KeyError _) => apply (frames_except R)
  end.

Lemma frames_stats_loop R `{!PreOrder R} items n_tot n_vio hist_tot :
  (∀ f s, R s (set_summary (set_byrestraint f) s)) →
  frames R (stats_loop items n_tot n_vio hist_tot).
Proof.
  intros HR. revert n_tot n_vio hist_tot.
  induction items as [|[k c] items IH]; intros; cbn [stats_loop]; [frames_step|].
  unfold init_bucket, update_bucket, bucket_add_counts.
  repeat first [ frames_step | apply (frames_modify R); intros ?; apply HR | apply IH ].
Qed.

Lemma frames_bystructure_setitem R `{!PreOrder R} f i v :
  (∀ g s, R s (set_summary (set_bystructure g) s)) →
  frames R (bystructure_setitem f i v).
Proof.
  intros HR. unfold bystructure_setitem.
  repeat first [ frames_step | apply (frames_modify R); intros ?; apply HR ].
Qed.

Lemma frames_thermo_loop R `{!PreOrder R} i items :
  (∀ g s, R s (set_summary (set_bystructure g) s)) →
  frames R (thermo_loop i items).
Proof.
  intros HR. induction items as [|[k v] items IH]; cbn [thermo_loop]; [frames_step|].
  repeat first [ frames_step | apply (frames_modify R); intros ?; apply HR | apply IH ].
Qed.

Lemma frames_collect_optimization R `{!PreOrder R} i hms :
  (∀ g s, R s (set_summary (set_bystructure g) s)) →
  frames R (collect_optimization i hms).
Proof.
  intros HR. unfold collect_optimization, collect_energies, collect_thermo.
  frames_step.
  - frames_step.
    repeat first [ frames_step | by apply frames_bystructure_setitem ].
  - destruct (hms_opt_info_dict hms); [|frames_step].
    frames_step; [frames_step|].
    match goal with a : InfoValue |- _ => destruct a end; [frames_step|].
    by apply frames_thermo_loop.
Qed.

Lemma frames_add_hist_counts R `{!PreOrder R} hist_tot :
  (∀ ni nv h s, R s (set_summary (set_totals ni nv h) s)) →
  frames R (add_hist_counts hist_tot).
Proof.
  intros HR. unfold add_hist_counts.
  repeat first [ frames_step | apply (frames_modify R); intros ?; apply HR ].
Qed.

Lemma same_hss_summary (f : Summary → Summary) (s : Poller) :
  same_hss s (set_summary f s).
Proof. reflexivity. Qed.

Lemma frames_aggregate_statistics_hss i hms :
  frames same_hss (aggregate_statistics i hms).
Proof.
  unfold aggregate_statistics.
  apply (frames_bind same_hss); [apply (frames_lift same_hss)|]. intros vstat.
  apply (frames_bind same_hss);
    [apply (frames_stats_loop same_hss); intros; apply same_hss_summary|].
  intros [[n_tot n_vio] hist_tot].
  repeat first [ frames_step
               | apply (frames_modify same_hss); intros; apply same_hss_summary
               | apply (frames_add_hist_counts same_hss); intros; apply same_hss_summary
               | apply (frames_bystructure_setitem same_hss); intros;
                 apply same_hss_summary ].
Qed.

Lemma frames_collect_optimization_hss i hms :
  frames same_hss (collect_optimization i hms).
Proof.
  apply (frames_collect_optimization same_hss). intros. apply same_hss_summary.
Qed.

Lemma bind_assoc {A B C} (m : M A) (k : A → M B) (h : B → M C) (s : Poller) :
  ((m ≫= k) ≫= h) s = (m ≫= (λ a, k a ≫= h)) s.
Proof.
  rewrite !bind_run. destruct (m s) as [[a|e] s1]; [|done]. by rewrite bind_run.
Qed.

Lemma set_structure_split io files i s :
  set_structure io files i s
  = (hms ← lift IOError (files !! i);
     hss_set_struct_crd io i (hms_coordinates hms) ;;
     aggregate_statistics i hms ;;
     collect_optimization i hms) s.
Proof.
  unfold set_structure. rewrite !bind_run.
  destruct (lift IOError (files !! i) s) as [[hms|e] s0]; [|done].
  rewrite !bind_run.
  destruct (hss_set_struct_crd io i (hms_coordinates hms) s0) as [[[]|e] s1]; [|done].
  unfold aggregate_statistics, collect_optimization.
  rewrite bind_assoc. rewrite !bind_run.
  destruct (lift AttributeError (load_vstat hms) s1) as [[vstat|e] s1']; [|done].
  rewrite bind_assoc. rewrite !bind_run.
  destruct (stats_loop _ _ _ _ s1') as [[[[n_tot n_vio] hist_tot]|e] s2]; [|done].
  repeat (rewrite bind_assoc; rewrite !bind_run; cbn [modify];
          try match goal with
              | |- context [add_hist_counts ?h ?s] =>
                  destruct (add_hist_counts h s) as [[[]|?] ?]; [|done]
              | |- context [bystructure_setitem ?f ?i ?v ?s] =>
                  destruct (bystructure_setitem f i v s) as [[[]|?] ?]; [|done]
              end).
  done.
Qed.

Lemma hss_set_struct_crd_run io i crd s :
  hss_open (_hss s) = true → (i < nstruct (_hss s))%nat → accepts_crd io i = true →
  ∃ s1, hss_set_struct_crd io i crd s = (Ok (), s1) ∧
        _summary_data s1 = _summary_data s ∧
        hss_crd (_hss s1) = <[i := crd]> (hss_crd (_hss s)) ∧
        nstruct (_hss s1) = nstruct (_hss s) ∧
        nbead (_hss s1) = nbead (_hss s) ∧
        hss_violation (_hss s1) = hss_violation (_hss s) ∧
        hss_summary (_hss s1) = hss_summary (_hss s) ∧
        hss_open (_hss s1) = hss_open (_hss s).
Proof.
  intros Hopen Hi Hio. unfold hss_set_struct_crd. rewrite bind_run. cbn [gets].
  apply Nat.ltb_lt in Hi. rewrite Hopen, Hi, Hio. cbn [negb modify].
  eexists. split; [reflexivity|]. by repeat split.
Qed.

(** X11. Once the coordinates are accepted they are in the member's slot
    of the store whatever happens next in the callback, return or raise;
    the other slots and the rest of the store are as they were. *)
Theorem set_structure_writes_slot
    (io : StoreIO) (files : gmap nat HmsFile) (i : nat) (hms : HmsFile) (s : Poller) :
  files !! i = Some hms →
  hss_open (_hss s) = true → (i < nstruct (_hss s))%nat → accepts_crd io i = true →
  let s' := (set_structure io files i s).2 in
  hss_crd (_hss s') = <[i := hms_coordinates hms]> (hss_crd (_hss s)) ∧
  (∀ j, j ≠ i → hss_crd (_hss s') !! j = hss_crd (_hss s) !! j) ∧
  ((i < length (hss_crd (_hss s)))%nat →
     hss_crd (_hss s') !! i = Some (hms_coordinates hms)) ∧
  nstruct (_hss s') = nstruct (_hss s) ∧
  hss_violation (_hss s') = hss_violation (_hss s) ∧
  hss_summary (_hss s') = hss_summary (_hss s).
Proof.
  intros Hfile Hopen Hi Hio. cbv zeta.
  rewrite set_structure_split, bind_run, Hfile. cbn [lift ret].
  destruct (hss_set_struct_crd_run io i (hms_coordinates hms) s Hopen Hi Hio)
    as (s1 & Hrun & _ & Hcrd & Hn & _ & Hv & Hsum & _).
  rewrite bind_run, Hrun.
  assert (Hrest : same_hss s1
            ((aggregate_statistics i hms ;; collect_optimization i hms) s1).2).
  { apply (frames_bind same_hss);
      [apply frames_aggregate_statistics_hss|intros _; apply frames_collect_optimization_hss]. }
  unfold same_hss in Hrest. rewrite Hrest, Hcrd, Hn, Hv, Hsum.
  split; [done|]. split; [|split; [|done]].
  - intros j Hj. by rewrite list_lookup_insert_ne.
  - intros Hlen. by rewrite list_lookup_insert_eq.
Qed.

Lemma set_structure_writes_slot_witness :
  Sample.files_no_histogram !! 0%nat
    = Some {| hms_coordinates := Sample.crd;
              hms_violation_stats :=
                StatsJson {[ "Envelope" := RecDict
                  {| cs_edges := []; cs_counts := None;
                     cs_n_violations := Some (Q2Qc 0);
                     cs_n_imposed := Some (Q2Qc 1) |} ]};
              hms_opt_info := None; hms_opt_info_dict := None |} ∧
  (set_structure Sample.io Sample.files_no_histogram 0
     (setup_poller Sample.cfg Sample.store)).1 = Raise KeyError ∧
  hss_crd (_hss (set_structure Sample.io Sample.files_no_histogram 0
                   (setup_poller Sample.cfg Sample.store)).2) !! 0%nat
    = Some Sample.crd.
Proof.
  split; [reflexivity|]. split; [vm_compute; reflexivity|].
  destruct (set_structure_writes_slot Sample.io Sample.files_no_histogram 0 _
              (setup_poller Sample.cfg Sample.store) eq_refl eq_refl)
    as (_ & _ & Hslot & _).
  - simpl. lia.
  - reflexivity.
  - apply Hslot. simpl. lia.
Defined.

(** X12. A callback that cannot start changes nothing: without a result
    file, with a member id beyond the slots of the store, or when the store
    rejects the coordinates, [set_structure] raises and the state is what it
    was. *)
Theorem set_structure_early_failure
    (io : StoreIO) (files : gmap nat HmsFile) (i : nat) (s : Poller) :
  (files !! i = None → set_structure io files i s = (Raise IOError, s)) ∧
  (is_Some (files !! i) → hss_open (_hss s) = true → (nstruct (_hss s) ≤ i)%nat →
     set_structure io files i s = (Raise IndexError, s)) ∧
  (is_Some (files !! i) → hss_open (_hss s) = true → (i < nstruct (_hss s))%nat →
     accepts_crd io i = false →
     set_structure io files i s = (Raise IOError, s)).
Proof.
  split; [|split].
  - intros Hnone. unfold set_structure. by rewrite bind_run, Hnone.
  - intros [hms Hfile] Hopen Hi. unfold set_structure, hss_set_struct_crd.
    rewrite bind_run, Hfile. cbn [lift ret]. rewrite !bind_run. cbn [gets].
    rewrite Hopen. apply Nat.ltb_ge in Hi. rewrite Hi. done.
  - intros [hms Hfile] Hopen Hi Hio. unfold set_structure, hss_set_struct_crd.
    rewrite bind_run, Hfile. cbn [lift ret]. rewrite !bind_run. cbn [gets].
    rewrite Hopen, Hio. apply Nat.ltb_lt in Hi. rewrite Hi. done.
Qed.

Lemma set_structure_early_failure_witness :
  set_structure Sample.io Scenario.files 7 (setup_poller Scenario.cfg Sample.store)
  = (Raise IOError, setup_poller Scenario.cfg Sample.store) ∧
  set_structure {| accepts_crd := λ _, false; accepts_violation := true;
                   accepts_summary := true |} Scenario.files 1
    (setup_poller Scenario.cfg Sample.store)
  = (Raise IOError, setup_poller Scenario.cfg Sample.store).
Proof.
  destruct (set_structure_early_failure Sample.io Scenario.files 7
              (setup_poller Scenario.cfg Sample.store)) as (H1 & _ & _).
  destruct (set_structure_early_failure
              {| accepts_crd := λ _, false; accepts_violation := true;
                 accepts_summary := true |} Scenario.files 1
              (setup_poller Scenario.cfg Sample.store)) as (_ & _ & H3).
  split.
  - apply H1. vm_compute. reflexivity.
  - apply H3; [by eexists | reflexivity | vm_compute; lia | reflexivity].
Defined.

Section PartialUpdates.

Context (cfg : Cfg) (store : HssFile).

Lemma stats_loop_missing_histogram l1 k c l2 n_tot n_vio hist_tot s :
  poller_inv cfg store s →
  length hist_tot = (DEFAULT_HIST_BINS + 1)%nat →
  consistent_shapes l1 = true →
  cs_counts c = None →
  (stats_loop (l1 ++ (k, RecDict c) :: l2) n_tot n_vio hist_tot s).1 = Raise KeyError.
Proof.
  revert n_tot n_vio hist_tot s.
  induction l1 as [|[k1 r1] l1 IH]; intros n_tot n_vio hist_tot s Hinv Hlen Hshape Hnone.
  - cbn [app stats_loop]. rewrite bind_run. cbn [init_bucket modify].
    rewrite bind_run. cbn [record_dict lift ret].
    rewrite Hnone. done.
  - unfold consistent_shapes in Hshape. cbn [forallb snd] in Hshape.
    apply andb_true_iff in Hshape as [Hk Hrest].
    destruct r1 as [c1|]; [|done]. cbn [record_dict from_option] in Hk.
    unfold shape_ok in Hk.
    destruct (cs_counts c1) as [counts|] eqn:Hc; [|done].
    apply Nat.eqb_eq in Hk as Hclen.
    cbn [app stats_loop]. rewrite bind_run. cbn [init_bucket modify].
    rewrite bind_run. cbn [record_dict lift ret].
    rewrite Hc. cbn [lift]. rewrite bind_run. cbn [ret].
    destruct (np_iadd_same_shape hist_tot counts) as [Hadd Hlen']; [congruence|].
    rewrite Hadd. cbn [lift]. rewrite bind_run. cbn [ret].
    rewrite bind_run. cbn [update_bucket modify].
    rewrite bind_run. cbn [update_bucket modify].
    set (s1 := set_summary (set_byrestraint (λ m : gmap string Bucket,
                 match m !! k1 with Some _ => m | None => <[k1:=zero_bucket]> m end)) s).
    set (s2 := set_summary (set_byrestraint (alter _ k1)) s1).
    set (s3 := set_summary (set_byrestraint (alter _ k1)) s2).
    assert (Hinv3 : poller_inv cfg store s3).
    { apply alter_bucket_inv; [done|]. apply alter_bucket_inv; [done|].
      by apply init_bucket_inv. }
    assert (Hsome : is_Some (byrestraint (_summary_data s3) !! k1)).
    { cbn. rewrite !lookup_alter_eq.
      destruct (byrestraint (_summary_data s) !! k1) eqn:E.
      - rewrite E. cbn. eauto.
      - rewrite lookup_insert_eq. cbn. eauto. }
    destruct (bucket_add_counts_total cfg store k1 counts s3 Hinv3 Hsome Hclen)
      as (s4 & Hrun & Hinv4 & _).
    rewrite bind_run, Hrun. apply IH; [done|congruence|done|done].
Qed.

Lemma first_missing_histogram (items : list (string * JRecord)) :
  (∃ k c, (k, RecDict c) ∈ items ∧ cs_counts c = None) →
  (∀ k r, (k, r) ∈ items →
     ∃ c, r = RecDict c ∧ (cs_counts c = None ∨ shape_ok c = true)) →
  ∃ l1 k c l2, items = l1 ++ (k, RecDict c) :: l2 ∧
               consistent_shapes l1 = true ∧ cs_counts c = None.
Proof.
  induction items as [|[k0 r0] items IH]; intros (k & c & Hin & Hnone) Hall.
  - by apply not_elem_of_nil in Hin.
  - destruct (Hall k0 r0) as (c0 & -> & Hc0); [left|].
    destruct (cs_counts c0) as [counts|] eqn:Ec0.
    + apply elem_of_cons in Hin as [[= -> ->]|Hin]; [congruence|].
      destruct IH as (l1 & k' & c' & l2 & -> & Hshape & Hnone').
      { eauto. }
      { intros k' r' Hin'. apply (Hall k'). by right. }
      exists ((k0, RecDict c0) :: l1), k', c', l2. split; [done|]. split; [|done].
      unfold consistent_shapes. cbn [forallb snd record_dict from_option].
      apply andb_true_iff. split; [|done].
      by destruct Hc0 as [Hn|Hs].
    + exists [], k0, c0, items. done.
Qed.

(** X13. A record without histogram stops the callback with [KeyError]
    before the member is counted: the global counters, the global
    histogram and the per-member arrays are unchanged, although the
    coordinates are already in the store. *)
Theorem set_structure_missing_histogram
    (io : StoreIO) (files : gmap nat HmsFile) (i : nat) (hms : HmsFile)
    (vstat : gmap string JRecord) (s : Poller) :
  poller_inv cfg store s →
  files !! i = Some hms →
  (i < nstruct store)%nat → accepts_crd io i = true →
  load_vstat hms = Some vstat →
  (∃ k c, vstat !! k = Some (RecDict c) ∧ cs_counts c = None) →
  (∀ k r, vstat !! k = Some r →
     ∃ c, r = RecDict c ∧ (cs_counts c = None ∨ shape_ok c = true)) →
  let s' := (set_structure io files i s).2 in
  (set_structure io files i s).1 = Raise KeyError ∧
  n_imposed (_summary_data s') = n_imposed (_summary_data s) ∧
  n_violations (_summary_data s') = n_violations (_summary_data s) ∧
  hist_counts (_summary_data s') = hist_counts (_summary_data s) ∧
  bystructure (_summary_data s') = bystructure (_summary_data s) ∧
  hss_crd (_hss s') = <[i := hms_coordinates hms]> (hss_crd (_hss s)).
Proof.
  intros Hinv Hfile Hns Hio Hvstat Hbad Hall. cbv zeta.
  destruct (first_missing_histogram (map_to_list vstat))
    as (l1 & k & c & l2 & Hitems & Hshape & Hnone).
  { destruct Hbad as (k & c & Hk & Hn). exists k, c. split; [|done].
    by apply elem_of_map_to_list. }
  { intros k' r' Hin. apply (Hall k'). by apply elem_of_map_to_list. }
  unfold set_structure. rewrite bind_run, Hfile. cbn [lift ret].
  destruct (hss_set_struct_crd_total cfg store io i (hms_coordinates hms) s Hinv Hns Hio)
    as (s1 & Hrun1 & Hinv1 & Hd1).
  destruct (hss_set_struct_crd_run io i (hms_coordinates hms) s)
    as (s1' & Hrun1' & _ & Hcrd & _); [apply Hinv| |done|].
  { rewrite (inv_nstruct _ _ _ Hinv). done. }
  rewrite Hrun1 in Hrun1'. injection Hrun1' as <-.
  rewrite bind_run, Hrun1. rewrite bind_run, Hvstat. cbn [lift ret].
  rewrite bind_run.
  pose proof (stats_loop_missing_histogram l1 k c l2 0 0
                (np_zeros (DEFAULT_HIST_BINS + 1)) s1 Hinv1 (length_np_zeros _)
                Hshape Hnone) as Hraise.
  pose proof (frames_stats_loop same_totals (l1 ++ (k, RecDict c) :: l2) 0 0
                (np_zeros (DEFAULT_HIST_BINS + 1)) same_totals_byrestraint s1) as Hframe.
  rewrite Hitems.
  destruct (stats_loop (l1 ++ (k, RecDict c) :: l2) 0 0
              (np_zeros (DEFAULT_HIST_BINS + 1)) s1)
    as [[x|e] s2]; cbn in Hraise; [done|]. injection Hraise as ->.
  cbn in Hframe. destruct Hframe as (Hh & Hn & Hv & Hc & Hb). cbn [fst snd].
  rewrite Hn, Hv, Hc, Hb, Hh, Hd1, Hcrd. done.
Qed.

End PartialUpdates.

Lemma set_structure_missing_histogram_witness :
  poller_inv Sample.cfg Sample.store (setup_poller Sample.cfg Sample.store) ∧
  (set_structure Sample.io Sample.files_no_histogram 0
     (setup_poller Sample.cfg Sample.store)).1 = Raise KeyError ∧
  n_imposed (_summary_data (set_structure Sample.io Sample.files_no_histogram 0
                              (setup_poller Sample.cfg Sample.store)).2) = 0.
Proof.
  split; [apply setup_poller_inv|].
  destruct (set_structure_missing_histogram Sample.cfg Sample.store
              Sample.io Sample.files_no_histogram 0
              {| hms_coordinates := Sample.crd;
                 hms_violation_stats :=
                   StatsJson {[ "Envelope" := RecDict
                     {| cs_edges := []; cs_counts := None;
                        cs_n_violations := Some (Q2Qc 0);
                        cs_n_imposed := Some (Q2Qc 1) |} ]};
                 hms_opt_info := None; hms_opt_info_dict := None |}
              {[ "Envelope" := RecDict
                   {| cs_edges := []; cs_counts := None;
                      cs_n_violations := Some (Q2Qc 0);
                      cs_n_imposed := Some (Q2Qc 1) |} ]}
              (setup_poller Sample.cfg Sample.store))
    as (Hr & Hn & _).
  - apply setup_poller_inv.
  - reflexivity.
  - simpl. lia.
  - reflexivity.
  - reflexivity.
  - eexists "Envelope", _. split; [apply lookup_singleton_eq|reflexivity].
  - intros k r Hk. apply lookup_singleton_Some in Hk as [_ <-].
    eexists. split; [reflexivity|]. by left.
  - split; [exact Hr | exact Hn].
Defined.

Section LateFailure.

Context (cfg : Cfg) (store : HssFile).

(** X14. A result file whose detailed info dict has no [thermo] entry makes
    the callback raise [KeyError] at its very end: by then the member has
    been counted, so the global counters already include it. *)
Theorem set_structure_missing_thermo
    (io : StoreIO) (files : gmap nat HmsFile) (i : nat) (hms : HmsFile)
    (vstat : gmap string JRecord) (infodict : gmap string InfoValue) (s : Poller) :
  poller_inv cfg store s →
  files !! i = Some hms →
  (i < nstruct store)%nat → (i < population_size cfg)%nat →
  accepts_crd io i = true →
  load_vstat hms = Some vstat →
  consistent_shapes (map_to_list vstat) = true →
  hms_opt_info_dict hms = Some infodict → infodict !! "thermo" = None →
  let s' := (set_structure io files i s).2 in
  (set_structure io files i s).1 = Raise KeyError ∧
  n_imposed (_summary_data s')
    = n_imposed (_summary_data s) + member_n_imposed files i ∧
  n_violations (_summary_data s')
    = n_violations (_summary_data s) + member_n_violations files i.
Proof.
  intros Hinv Hfile Hns Hpop Hio Hvstat Hshape Hdict Hthermo. cbv zeta.
  unfold member_n_imposed, member_n_violations, member_items.
  rewrite Hfile. cbn [from_option]. rewrite Hvstat. cbn [default from_option].
  unfold set_structure. rewrite bind_run, Hfile. cbn [lift ret].
  destruct (hss_set_struct_crd_total cfg store io i (hms_coordinates hms) s Hinv Hns Hio)
    as (s1 & Hrun1 & Hinv1 & Hd1).
  rewrite bind_run, Hrun1.
  rewrite bind_run, Hvstat. cbn [lift ret].
  destruct (stats_loop_total cfg store (map_to_list vstat) 0 0
              (np_zeros (DEFAULT_HIST_BINS + 1)) s1 Hinv1 (length_np_zeros _) Hshape)
    as (hist_tot & s2 & Hrun2 & Hlen2 & Hsum2 & Hinv2 & Hsame2).
  rewrite bind_run, Hrun2.
  rewrite bind_run. cbn [modify]. rewrite bind_run. cbn [modify].
  set (s3 := set_summary (add_n_violations _) (set_summary (add_n_imposed _) s2)).
  assert (Hinv3 : poller_inv cfg store s3).
  { destruct Hinv2 as [H1 H2 H3 H4 H5 H6]. by split. }
  destruct (add_hist_counts_total cfg store hist_tot s3 Hinv3 Hlen2)
    as (s4 & Hrun4 & Hinv4 & Hni4 & Hnv4 & _).
  rewrite bind_run, Hrun4.
  destruct (bystructure_setitem_total cfg store BSImposed i
              (0 + items_n_imposed (map_to_list vstat)) s4 Hinv4 Hpop)
    as (s5 & Hrun5 & Hinv5 & Hg5 & _).
  rewrite bind_run, Hrun5.
  destruct (bystructure_setitem_total cfg store BSViolations i
              (0 + items_n_violations (map_to_list vstat)) s5 Hinv5 Hpop)
    as (s6 & Hrun6 & Hinv6 & Hg6 & _).
  rewrite bind_run, Hrun6.
  destruct (collect_energies_total cfg store i hms s6 Hinv6 Hpop)
    as (s7 & Hrun7 & Hinv7 & Hg7 & _).
  rewrite bind_run, Hrun7.
  unfold collect_thermo. rewrite Hdict, bind_run, Hthermo. cbn [lift raise fst snd].
  split; [done|].
  destruct Hg7 as (F1 & F2 & _), Hg6 as (G1 & G2 & _), Hg5 as (I1 & I2 & _).
  destruct Hsame2 as (_ & J1 & J2 & _).
  rewrite F1, G1, I1, Hni4, F2, G2, I2, Hnv4.
  subst s3. cbn. rewrite J1, J2, Hd1, !Qcplus_0_l. done.
Qed.

End LateFailure.

Lemma set_structure_missing_thermo_witness :
  poller_inv Sample.cfg Sample.store (setup_poller Sample.cfg Sample.store) ∧
  (set_structure Sample.io Sample2.files_no_thermo 0
     (setup_poller Sample.cfg Sample.store)).1 = Raise KeyError ∧
  n_imposed (_summary_data (set_structure Sample.io Sample2.files_no_thermo 0
                              (setup_poller Sample.cfg Sample.store)).2)
    = Q2Qc 10 ∧
  n_violations (_summary_data (set_structure Sample.io Sample2.files_no_thermo 0
                                 (setup_poller Sample.cfg Sample.store)).2)
    = Q2Qc 2.
Proof.
  split; [apply setup_poller_inv|].
  destruct (set_structure_missing_thermo Sample.cfg Sample.store
              Sample.io Sample2.files_no_thermo 0 Sample2.hms_no_thermo
              {[ "Envelope" := RecDict Sample2.record_10_2 ]}
              {[ "final-energy" := InfoNum (Q2Qc 3) ]}
              (setup_poller Sample.cfg Sample.store))
    as (Hr & Hn & Hv).
  - apply setup_poller_inv.
  - reflexivity.
  - simpl. lia.
  - simpl. lia.
  - reflexivity.
  - reflexivity.
  - vm_compute. reflexivity.
  - reflexivity.
  - reflexivity.
  - split; [exact Hr|]. rewrite Hn, Hv.
    split; apply Qc_is_canon; vm_compute; reflexivity.
Defined.

(** *** The global counters against the per-restraint buckets *)

Lemma bind_ok {A B} (m : M A) (k : A → M B) (s : Poller) (b : B) (s' : Poller) :
  (m ≫= k) s = (Ok b, s') → ∃ a s1, m s = (Ok a, s1) ∧ k a s1 = (Ok b, s').
Proof.
  rewrite bind_run. destruct (m s) as [[a|e] s1]; [eauto|done].
Qed.

Lemma lift_ok {A} (e : Exc) (o : option A) (s : Poller) (a : A) (s' : Poller) :
  lift e o s = (Ok a, s') → o = Some a ∧ s' = s.
Proof. destruct o; cbn; [by intros [= -> ->]|done]. Qed.

Lemma bucket_sum_empty (f : Bucket → Qc) : bucket_sum f ∅ = 0.
Proof. unfold bucket_sum. by rewrite map_to_list_empty. Qed.

Lemma bucket_sum_insert_None (f : Bucket → Qc) (m : gmap string Bucket) k b :
  m !! k = None → bucket_sum f (<[k := b]> m) = f b + bucket_sum f m.
Proof.
  intros Hk. unfold bucket_sum.
  rewrite (sum_Qc_perm _ _ (fmap_Permutation _ _ _ (map_to_list_insert m k b Hk))).
  done.
Qed.

Lemma bucket_sum_insert_Some (f : Bucket → Qc) (m : gmap string Bucket) k b0 b :
  m !! k = Some b0 → bucket_sum f (<[k := b]> m) + f b0 = f b + bucket_sum f m.
Proof.
  intros Hk. rewrite <- insert_delete_eq.
  rewrite bucket_sum_insert_None by apply lookup_delete_eq.
  unfold bucket_sum at 2.
  rewrite <- (sum_Qc_perm _ _ (fmap_Permutation _ _ _ (map_to_list_delete m k b0 Hk))).
  rewrite fmap_cons. change (sum_Qc (?x :: ?l)) with (x + sum_Qc l). cbn [snd].
  fold (bucket_sum f (delete k m)).
  generalize (bucket_sum f (delete k m)), (f b), (f b0). intros q x y. ring.
Qed.

Lemma Qc_transfer (S' nt x X nt' b B : Qc) :
  S' + (nt + x) = X + nt' → X + b = b + x + B → S' + nt = B + nt'.
Proof.
  intros H1 H2.
  replace (S' + nt) with (S' + (nt + x) - x) by ring. rewrite H1.
  replace X with (X + b - b) by ring. rewrite H2. ring.
Qed.

Lemma stats_loop_bucket_sums items n_tot n_vio hist_tot s n_tot' n_vio' hist_tot' s' :
  stats_loop items n_tot n_vio hist_tot s = (Ok (n_tot', n_vio', hist_tot'), s') →
  bucket_sum b_n_imposed (byrestraint (_summary_data s')) + n_tot
    = bucket_sum b_n_imposed (byrestraint (_summary_data s)) + n_tot' ∧
  bucket_sum b_n_violations (byrestraint (_summary_data s')) + n_vio
    = bucket_sum b_n_violations (byrestraint (_summary_data s)) + n_vio'.
Proof.
  revert n_tot n_vio hist_tot s.
  induction items as [|[k r] items IH]; intros n_tot n_vio hist_tot s Hrun.
  - cbn in Hrun. by injection Hrun as <- <- <- <-.
  - cbn [stats_loop] in Hrun.
    apply bind_ok in Hrun as ([] & s1 & Hinit & Hrun). cbn in Hinit.
    injection Hinit as <-.
    apply bind_ok in Hrun as (c & ? & [Hr ->]%lift_ok & Hrun).
    apply bind_ok in Hrun as (counts & ? & [Hc ->]%lift_ok & Hrun).
    apply bind_ok in Hrun as (ht1 & ? & [Hadd ->]%lift_ok & Hrun).
    apply bind_ok in Hrun as ([] & s2 & Hu1 & Hrun). cbn in Hu1. injection Hu1 as <-.
    apply bind_ok in Hrun as ([] & s3 & Hu2 & Hrun). cbn in Hu2. injection Hu2 as <-.
    apply bind_ok in Hrun as ([] & s4 & Hbucket & Hrun).
    unfold bucket_add_counts in Hbucket.
    apply bind_ok in Hbucket as (d & ? & Hd & Hbucket). cbn in Hd.
    injection Hd as <- <-.
    apply bind_ok in Hbucket as (b & ? & [Hb ->]%lift_ok & Hbucket).
    apply bind_ok in Hbucket as (c0 & ? & [Hc0 ->]%lift_ok & Hbucket).
    cbn in Hbucket. injection Hbucket as <-.
    apply IH in Hrun as [Hi Hv]. cbn in Hi, Hv, Hb.
    set (m := byrestraint (_summary_data s)) in *.
    rewrite !lookup_alter_eq in Hb.
    rewrite !insert_alter_eq in Hi, Hv.
    destruct (m !! k) as [b0|] eqn:Hk.
    + rewrite Hk in Hb. cbn in Hb. injection Hb as <-. cbn in Hi, Hv.
      pose proof (bucket_sum_insert_Some b_n_imposed m k b0
                    {| b_counts := c0;
                       b_n_violations := b_n_violations b0
                                         + default 0 (cs_n_violations c);
                       b_n_imposed := b_n_imposed b0 + default 0 (cs_n_imposed c) |}
                    Hk) as Ei.
      pose proof (bucket_sum_insert_Some b_n_violations m k b0
                    {| b_counts := c0;
                       b_n_violations := b_n_violations b0
                                         + default 0 (cs_n_violations c);
                       b_n_imposed := b_n_imposed b0 + default 0 (cs_n_imposed c) |}
                    Hk) as Ev.
      cbn in Ei, Ev. split; eapply Qc_transfer; eassumption.
    + try rewrite Hk in Hb. cbn in Hb. rewrite lookup_insert_eq in Hb. cbn in Hb.
      injection Hb as <-. cbn in Hi, Hv.
      rewrite insert_insert_eq in Hi, Hv.
      rewrite bucket_sum_insert_None in Hi, Hv by done. cbn in Hi, Hv.
      split.
      * eapply (Qc_transfer _ _ _ _ _ 0); [exact Hi|]. ring.
      * eapply (Qc_transfer _ _ _ _ _ 0); [exact Hv|]. ring.
Qed.

Lemma hss_set_struct_crd_summary io i crd s :
  _summary_data (hss_set_struct_crd io i crd s).2 = _summary_data s.
Proof.
  unfold hss_set_struct_crd. rewrite bind_run. cbn [gets].
  by repeat (case_match; cbn).
Qed.

Lemma same_counts_bystructure g s :
  same_counts s (set_summary (set_bystructure g) s).
Proof. by repeat split. Qed.

Lemma frames_add_hist_counts_counts hist_tot :
  frames same_counts (add_hist_counts hist_tot).
Proof.
  intros s. unfold add_hist_counts. rewrite bind_run. cbn [gets].
  destruct (np_iadd _ _); cbn; by repeat split.
Qed.

Lemma set_structure_partitioned io files i s s' :
  counters_partitioned (_summary_data s) →
  set_structure io files i s = (Ok (), s') →
  counters_partitioned (_summary_data s').
Proof.
  intros [Ji Jv] Hrun. rewrite set_structure_split in Hrun.
  apply bind_ok in Hrun as (hms & ? & [Hfile ->]%lift_ok & Hrun).
  apply bind_ok in Hrun as ([] & s1 & Hcrd & Hrun).
  pose proof (hss_set_struct_crd_summary io i (hms_coordinates hms) s) as Hd1.
  rewrite Hcrd in Hd1. cbn in Hd1.
  apply bind_ok in Hrun as ([] & s2 & Hagg & Hopt).
  pose proof (frames_collect_optimization same_counts i hms same_counts_bystructure s2)
    as Hf2.
  rewrite Hopt in Hf2. cbn in Hf2. destruct Hf2 as (Fi & Fv & Fb).
  unfold aggregate_statistics in Hagg.
  apply bind_ok in Hagg as (vstat & ? & [Hvstat ->]%lift_ok & Hagg).
  apply bind_ok in Hagg as ([[n_tot n_vio] hist_tot] & sa & Hloop & Hagg).
  pose proof (frames_stats_loop same_totals (map_to_list vstat) 0 0
                (np_zeros (DEFAULT_HIST_BINS + 1)) same_totals_byrestraint s1) as Hl.
  rewrite Hloop in Hl. cbn in Hl. destruct Hl as (_ & Li & Lv & _).
  apply stats_loop_bucket_sums in Hloop as [Bi Bv].
  apply bind_ok in Hagg as ([] & sb & Hm1 & Hagg). cbn in Hm1. injection Hm1 as <-.
  apply bind_ok in Hagg as ([] & sc & Hm2 & Hagg). cbn in Hm2. injection Hm2 as <-.
  apply bind_ok in Hagg as ([] & sd & Hadd & Hagg).
  pose proof (frames_add_hist_counts_counts hist_tot
                (set_summary (add_n_violations n_vio)
                   (set_summary (add_n_imposed n_tot) sa))) as Hh.
  rewrite Hadd in Hh. cbn in Hh. destruct Hh as (Hi & Hv & Hb).
  assert (Hrest : same_counts sd s2).
  { pose proof (frames_bind same_counts
                  (bystructure_setitem BSImposed i n_tot)
                  (λ _, bystructure_setitem BSViolations i n_vio)
                  (frames_bystructure_setitem same_counts _ _ _ same_counts_bystructure)
                  (λ _, frames_bystructure_setitem same_counts _ _ _
                          same_counts_bystructure) sd) as Hr.
    by rewrite Hagg in Hr. }
  destruct Hrest as (Ri & Rv & Rb).
  cbn in Hi, Hv, Hb. rewrite Qcplus_0_r in Bi, Bv.
  unfold counters_partitioned.
  rewrite Fb, Rb, Hb, Fi, Ri, Hi, Fv, Rv, Hv, Li, Lv, Bi, Bv, Hd1, Ji, Jv.
  done.
Qed.

(** X15. After any sequence of callbacks that all returned normally, the
    global [n_imposed] and [n_violations] are the sums of the
    per-restraint counters: every restraint counted globally is counted in
    exactly one bucket. *)
Theorem counters_are_sums_of_buckets
    (io : StoreIO) (cfg : Cfg) (store : HssFile) (files : gmap nat HmsFile)
    (order : list nat) (s : Poller) :
  run_callbacks io files order (setup_poller cfg store) = (Ok (), s) →
  bucket_sum b_n_imposed (byrestraint (_summary_data s)) = n_imposed (_summary_data s) ∧
  bucket_sum b_n_violations (byrestraint (_summary_data s))
    = n_violations (_summary_data s).
Proof.
  assert (Hgen : ∀ order s0 s1,
            counters_partitioned (_summary_data s0) →
            run_callbacks io files order s0 = (Ok (), s1) →
            counters_partitioned (_summary_data s1)).
  { clear. intros order. induction order as [|i order IH]; intros s0 s1 J Hrun.
    - cbn in Hrun. by injection Hrun as <-.
    - cbn [run_callbacks] in Hrun. apply bind_ok in Hrun as ([] & s' & Hset & Hrun).
      eapply IH; [|exact Hrun]. by eapply set_structure_partitioned. }
  intros Hrun. apply (Hgen order (setup_poller cfg store) s); [|done].
  split; cbn; apply bucket_sum_empty.
Qed.

Lemma counters_are_sums_of_buckets_witness :
  ∃ s, run_callbacks Sample.io Scenario.files [1; 3; 0; 2]%nat
         (setup_poller Scenario.cfg Sample.store) = (Ok (), s) ∧
       bucket_sum b_n_imposed (byrestraint (_summary_data s))
         = n_imposed (_summary_data s).
Proof.
  destruct (run_callbacks_from_setup Sample.io Scenario.cfg Sample.store Scenario.files
              [1; 3; 0; 2]%nat) as (s & Hrun & _); [vm_compute; reflexivity|].
  exists s. split; [exact Hrun|].
  exact (proj1 (counters_are_sums_of_buckets _ _ _ _ _ _ Hrun)).
Defined.

(** *** Energies *)

(** The cast at work: a count of [2^24 + 1] loses its last unit, 0.1
    becomes [13421773 / 2^27], and small whole numbers and halves are
    kept. *)
Example float32_rounds :
  float32 (Qc_of_Z 16777217) = Qc_of_Z 16777216 ∧
  float32 (Q2Qc (1 # 10)) = Q2Qc (13421773 # 134217728) ∧
  float32 (Qc_of_Z 10) = Qc_of_Z 10 ∧
  float32 (- Q2Qc (3 # 2)) = - Q2Qc (3 # 2).
Proof. repeat split; apply Qc_is_canon; vm_compute; reflexivity. Qed.

(** Whole numbers up to [2^24] pass the cast unchanged. *)

Lemma this_Qc_of_Z (z : Z) : this (Qc_of_Z z) = inject_Z z.
Proof. reflexivity. Qed.

Lemma Qc_of_Z_mul (x y : Z) : Qc_of_Z (x * y) = Qc_of_Z x * Qc_of_Z y.
Proof.
  apply Qc_is_canon. unfold Qcmult. cbn [this Q2Qc].
  rewrite Qred_correct, !this_Qc_of_Z. by rewrite inject_Z_mult.
Qed.

Lemma Qc_of_Z_le (x y : Z) : (x ≤ y)%Z → Qc_of_Z x ≤ Qc_of_Z y.
Proof.
  intros H. unfold Qcle. rewrite !this_Qc_of_Z. unfold Qle, inject_Z. cbn. lia.
Qed.

Lemma Qc_of_Z_nonzero (x : Z) : x ≠ 0%Z → Qc_of_Z x ≠ 0.
Proof.
  intros H E. apply (f_equal this) in E. rewrite this_Qc_of_Z in E.
  cbn in E. injection E as E. done.
Qed.

Lemma round_half_even_Z (z : Z) : round_half_even (Qc_of_Z z) = z.
Proof.
  unfold round_half_even. rewrite this_Qc_of_Z, Qfloor_Z.
  replace (Qc_of_Z z - Qc_of_Z z) with 0 by ring.
  rewrite decide_True; [done|]. by vm_compute.
Qed.

Lemma float32_small_int (n : Z) :
  (0 ≤ n ≤ 2 ^ 24)%Z → float32 (Qc_of_Z n) = Qc_of_Z n.
Proof.
  intros [H0 H24]. unfold float32.
  destruct (decide (Qc_of_Z n = 0)) as [E|Hne]; [done|].
  assert (Hpos : (0 < n)%Z).
  { destruct (decide (n = 0%Z)) as [->|]; [|lia]. destruct Hne. by apply Qc_is_canon. }
  assert (Hnneg : ¬ Qc_of_Z n < 0).
  { apply Qcle_not_lt. apply (Qc_of_Z_le 0 n). lia. }
  lazy zeta. rewrite !decide_False by done.
  assert (Hlog : ilog2 (Qc_of_Z n) = Z.log2 n).
  { unfold ilog2. rewrite this_Qc_of_Z. cbn [Qnum Qden inject_Z].
    change (Z.log2 1) with 0%Z. rewrite Z.sub_0_r.
    pose proof (Z.log2_nonneg n) as Hnn.
    rewrite decide_True; [done|]. unfold pow2.
    rewrite (proj2 (Z.leb_le 0 (Z.log2 n))) by done.
    apply Qc_of_Z_le. by apply Z.log2_spec. }
  rewrite Hlog.
  pose proof (Z.log2_nonneg n) as Hnn.
  assert (Hle : (Z.log2 n ≤ 24)%Z).
  { destruct (decide (n = 2 ^ 24)%Z) as [->|]; [by vm_compute|].
    assert (Z.log2 n < 24)%Z; [|lia]. apply Z.log2_lt_pow2; lia. }
  rewrite Z.max_l by lia.
  destruct (decide (Z.log2 n = 24%Z)) as [E24|Hlt].
  - assert (n = 2 ^ 24)%Z as ->.
    { pose proof (Z.log2_spec n Hpos) as [Hs _]. rewrite E24 in Hs. lia. }
    apply Qc_is_canon. vm_compute. reflexivity.
  - set (j := (23 - Z.log2 n)%Z).
    assert (Hj : (0 ≤ j)%Z) by lia.
    replace (Z.log2 n - 23)%Z with (- j)%Z by lia.
    assert (Hdiv : Qc_of_Z n / pow2 (- j) = Qc_of_Z (n * 2 ^ j)
                   ∧ Qc_of_Z (n * 2 ^ j) * pow2 (- j) = Qc_of_Z n).
    { assert (H2 : Qc_of_Z (2 ^ j) ≠ 0).
      { apply Qc_of_Z_nonzero. apply Z.pow_nonzero; lia. }
      unfold pow2. destruct (0 <=? - j)%Z eqn:Ej.
      - apply Z.leb_le in Ej. assert (j = 0%Z) as -> by lia.
        change (- 0)%Z with 0%Z. change (2 ^ 0)%Z with 1%Z. rewrite Z.mul_1_r.
        replace (Qc_of_Z 1) with 1 by (by apply Qc_is_canon).
        split; [field; done|ring].
      - rewrite Z.opp_involutive, Qc_of_Z_mul. split; field; done. }
    destruct Hdiv as [-> Hm]. by rewrite round_half_even_Z.
Qed.

Lemma bystructure_setitem_run f i v s :
  (i < length (bs_get f (bystructure (_summary_data s))))%nat →
  bystructure_setitem f i v s
  = (Ok (), set_summary (set_bystructure
              (bs_set f (<[i := float32 v]>
                           (bs_get f (bystructure (_summary_data s)))))) s).
Proof.
  intros Hi. unfold bystructure_setitem, np_setitem. rewrite bind_run. cbn [gets].
  apply Nat.ltb_lt in Hi. rewrite Hi. done.
Qed.

(** X16. The three energies are recorded in the order final, pair, bond
    and the first one missing from the result file ends the recording
    without error: an energy is stored in the member's entry, in single
    precision, exactly when it and all the energies before it are
    present; the later ones keep their previous value even if present. *)
Theorem collect_energies_stops_at_first_missing
    (i : nat) (hms : HmsFile) (s : Poller) :
  let bs := bystructure (_summary_data s) in
  let entry (k : string) := hms_opt_info hms ≫= (.!! k) in
  let e1 := entry "final-energy" in
  let e2 := e1 ≫= λ _, entry "pair-energy" in
  let e3 := e2 ≫= λ _, entry "bond-energy" in
  (∀ k v, entry k = Some v → float32_finite v) →
  (i < length (total_energies bs))%nat →
  (i < length (pair_energies bs))%nat →
  (i < length (bond_energies bs))%nat →
  ∃ s', collect_energies i hms s = (Ok (), s') ∧
        total_energies (bystructure (_summary_data s'))
          = from_option (λ v, <[i := float32 v]> (total_energies bs))
              (total_energies bs) e1 ∧
        pair_energies (bystructure (_summary_data s'))
          = from_option (λ v, <[i := float32 v]> (pair_energies bs))
              (pair_energies bs) e2 ∧
        bond_energies (bystructure (_summary_data s'))
          = from_option (λ v, <[i := float32 v]> (bond_energies bs))
              (bond_energies bs) e3.
Proof.
  cbv zeta. intros _ H1 H2 H3. unfold collect_energies, except_KeyError.
  rewrite bind_run.
  destruct (hms_opt_info hms ≫= (.!! "final-energy")) as [v1|]; cbn [lift ret raise];
    [|by eexists].
  rewrite bind_run, (bystructure_setitem_run BSTotal) by done.
  rewrite bind_run.
  destruct (hms_opt_info hms ≫= (.!! "pair-energy")) as [v2|]; cbn [lift ret raise];
    [|by eexists].
  rewrite bind_run, (bystructure_setitem_run BSPair) by done.
  rewrite bind_run.
  destruct (hms_opt_info hms ≫= (.!! "bond-energy")) as [v3|]; cbn [lift ret raise];
    [|by eexists].
  rewrite (bystructure_setitem_run BSBond) by done.
  by eexists.
Qed.

Lemma collect_energies_stops_at_first_missing_witness :
  ∃ s', collect_energies 0 Sample2.hms_two_energies
          (setup_poller Sample.cfg Sample.store) = (Ok (), s') ∧
        total_energies (bystructure (_summary_data s')) !! 0%nat
          = Some (Q2Qc (13421773 # 134217728)) ∧
        bond_energies (bystructure (_summary_data s')) !! 0%nat = Some (Q2Qc 0).
Proof.
  destruct (collect_energies_stops_at_first_missing 0 Sample2.hms_two_energies
              (setup_poller Sample.cfg Sample.store))
    as (s' & Hrun & Htot & _ & Hbond).
  - intros k v Hk. cbn in Hk.
    apply lookup_insert_Some in Hk as [[_ <-]|[_ Hk]];
      [|apply lookup_singleton_Some in Hk as [_ <-]];
      split; vm_compute; reflexivity.
  - simpl. lia.
  - simpl. lia.
  - simpl. lia.
  - exists s'. split; [exact Hrun|]. rewrite Htot, Hbond. split.
    + cbn; f_equal; apply Qc_is_canon; vm_compute; reflexivity.
    + reflexivity.
Defined.

(** *** The per-member arrays *)

#[local] Instance same_array_preorder g : PreOrder (same_array g).
Proof. split; [by intros s|]. intros s1 s2 s3. unfold same_array. congruence. Qed.

Lemma stats_loop_counts items n_tot n_vio hist_tot s n_tot' n_vio' hist_tot' s' :
  stats_loop items n_tot n_vio hist_tot s = (Ok (n_tot', n_vio', hist_tot'), s') →
  n_tot' = n_tot + items_n_imposed items ∧
  n_vio' = n_vio + items_n_violations items.
Proof.
  revert n_tot n_vio hist_tot s.
  induction items as [|[k r] items IH]; intros n_tot n_vio hist_tot s Hrun.
  - cbn in Hrun. injection Hrun as <- <- <- <-.
    unfold items_n_imposed, items_n_violations. cbn. by rewrite !Qcplus_0_r.
  - cbn [stats_loop] in Hrun.
    apply bind_ok in Hrun as ([] & s1 & _ & Hrun).
    apply bind_ok in Hrun as (c & ? & [Hr _]%lift_ok & Hrun).
    apply bind_ok in Hrun as (counts & ? & _ & Hrun).
    apply bind_ok in Hrun as (ht1 & ? & _ & Hrun).
    apply bind_ok in Hrun as ([] & s2 & _ & Hrun).
    apply bind_ok in Hrun as ([] & s3 & _ & Hrun).
    apply bind_ok in Hrun as ([] & s4 & _ & Hrun).
    apply IH in Hrun as [-> ->].
    unfold items_n_imposed, items_n_violations. rewrite !fmap_cons.
    change (sum_Qc (?x :: ?l)) with (x + sum_Qc l). cbn [snd].
    rewrite Hr. cbn [mbind option_bind]. by rewrite !Qcplus_assoc.
Qed.

Lemma frames_setitem_other g f i v :
  f ≠ g → frames (same_array g) (bystructure_setitem f i v).
Proof.
  intros Hne s. unfold bystructure_setitem. rewrite bind_run. cbn [gets].
  destruct (np_setitem _ _ _); cbn; [|done].
  unfold same_array. cbn. by destruct f, g.
Qed.

Lemma same_array_thermo g h s :
  same_array g s (set_summary (set_bystructure (set_thermo h)) s).
Proof. unfold same_array. cbn. by destruct g. Qed.

Lemma frames_collect_optimization_counts g i hms :
  g = BSImposed ∨ g = BSViolations →
  frames (same_array g) (collect_optimization i hms).
Proof.
  intros Hg. unfold collect_optimization, collect_energies.
  frames_step.
  - frames_step.
    repeat first [ frames_step
                 | apply frames_setitem_other; by destruct Hg as [-> | ->] ].
  - unfold collect_thermo. destruct (hms_opt_info_dict hms); [|frames_step].
    frames_step; [frames_step|].
    match goal with a : InfoValue |- _ => destruct a end; [frames_step|].
    induction (map_to_list d) as [|[k v] items IH]; cbn [thermo_loop]; [frames_step|].
    repeat first [ frames_step
                 | apply (frames_modify (same_array g)); intros ?;
                   apply same_array_thermo
                 | apply IH ].
Qed.

(** X17. A callback that returns normally stores the member's own totals,
    in single precision, in its entries of the per-member arrays,
    replacing what was there: the entries are overwritten, not
    accumulated, and the entries of the other members are unchanged.  A
    total that is a whole number up to [2^24] is stored as it is. *)
Theorem set_structure_records_member_counts
    (io : StoreIO) (files : gmap nat HmsFile) (i : nat) (s s' : Poller) :
  set_structure io files i s = (Ok (), s') →
  float32_finite (member_n_imposed files i) →
  float32_finite (member_n_violations files i) →
  bs_n_imposed (bystructure (_summary_data s'))
    = <[i := float32 (member_n_imposed files i)]>
        (bs_n_imposed (bystructure (_summary_data s))) ∧
  bs_n_violations (bystructure (_summary_data s'))
    = <[i := float32 (member_n_violations files i)]>
        (bs_n_violations (bystructure (_summary_data s))) ∧
  (∀ n : Z, (0 ≤ n ≤ 2 ^ 24)%Z → member_n_imposed files i = Qc_of_Z n →
     bs_n_imposed (bystructure (_summary_data s'))
       = <[i := Qc_of_Z n]> (bs_n_imposed (bystructure (_summary_data s)))) ∧
  (∀ n : Z, (0 ≤ n ≤ 2 ^ 24)%Z → member_n_violations files i = Qc_of_Z n →
     bs_n_violations (bystructure (_summary_data s'))
       = <[i := Qc_of_Z n]> (bs_n_violations (bystructure (_summary_data s)))).
Proof.
  intros Hrun _ _.
  cut (bs_n_imposed (bystructure (_summary_data s'))
         = <[i := float32 (member_n_imposed files i)]>
             (bs_n_imposed (bystructure (_summary_data s))) ∧
       bs_n_violations (bystructure (_summary_data s'))
         = <[i := float32 (member_n_violations files i)]>
             (bs_n_violations (bystructure (_summary_data s)))).
  { intros [Hi Hv]. split; [done|]. split; [done|].
    split; intros n Hn En.
    - by rewrite Hi, En, float32_small_int.
    - by rewrite Hv, En, float32_small_int. }
  rewrite set_structure_split in Hrun.
  apply bind_ok in Hrun as (hms & ? & [Hfile ->]%lift_ok & Hrun).
  unfold member_n_imposed, member_n_violations, member_items.
  rewrite Hfile. cbn [from_option].
  apply bind_ok in Hrun as ([] & s1 & Hcrd & Hrun).
  pose proof (hss_set_struct_crd_summary io i (hms_coordinates hms) s) as Hd1.
  rewrite Hcrd in Hd1. cbn in Hd1.
  apply bind_ok in Hrun as ([] & s2 & Hagg & Hopt).
  pose proof (frames_collect_optimization_counts BSImposed i hms (or_introl eq_refl) s2)
    as Fi.
  pose proof (frames_collect_optimization_counts BSViolations i hms (or_intror eq_refl) s2)
    as Fv.
  rewrite Hopt in Fi, Fv. unfold same_array in Fi, Fv. cbn in Fi, Fv.
  unfold aggregate_statistics in Hagg.
  apply bind_ok in Hagg as (vstat & ? & [Hvstat ->]%lift_ok & Hagg).
  rewrite Hvstat. cbn [default from_option].
  apply bind_ok in Hagg as ([[n_tot n_vio] hist_tot] & sa & Hloop & Hagg).
  pose proof (frames_stats_loop same_totals (map_to_list vstat) 0 0
                (np_zeros (DEFAULT_HIST_BINS + 1)) same_totals_byrestraint s1) as Hl.
  rewrite Hloop in Hl. cbn in Hl. destruct Hl as (_ & _ & _ & _ & Lb).
  apply stats_loop_counts in Hloop as [-> ->]. rewrite !Qcplus_0_l in Hagg.
  apply bind_ok in Hagg as ([] & sb & Hm1 & Hagg). cbn in Hm1. injection Hm1 as <-.
  apply bind_ok in Hagg as ([] & sc & Hm2 & Hagg). cbn in Hm2. injection Hm2 as <-.
  apply bind_ok in Hagg as ([] & sd & Hadd & Hagg).
  assert (Hbs : bystructure (_summary_data sd) = bystructure (_summary_data sa)).
  { revert Hadd. unfold add_hist_counts. rewrite bind_run. cbn [gets].
    destruct (np_iadd _ _); cbn; [|done]. by intros [= <-]. }
  apply bind_ok in Hagg as ([] & se & Hset1 & Hset2).
  unfold bystructure_setitem in Hset1, Hset2.
  apply bind_ok in Hset1 as (d1 & ? & Hg1 & Hset1). cbn in Hg1. injection Hg1 as <- <-.
  apply bind_ok in Hset1 as (a1 & ? & [Ha1 ->]%lift_ok & Hset1).
  cbn in Hset1. injection Hset1 as <-.
  apply bind_ok in Hset2 as (d2 & ? & Hg2 & Hset2). cbn in Hg2. injection Hg2 as <- <-.
  apply bind_ok in Hset2 as (a2 & ? & [Ha2 ->]%lift_ok & Hset2).
  cbn in Hset2. injection Hset2 as <-.
  unfold np_setitem in Ha1, Ha2.
  destruct (i <? _)%nat in Ha1; [|done]. injection Ha1 as <-.
  destruct (i <? _)%nat in Ha2; [|done]. injection Ha2 as <-.
  rewrite Fi, Fv. cbn. rewrite Hbs, Lb, Hd1. done.
Qed.

Lemma set_structure_records_member_counts_witness :
  ∃ s', set_structure Sample.io Scenario.files 3
          (setup_poller Scenario.cfg Sample.store) = (Ok (), s') ∧
        bs_n_imposed (bystructure (_summary_data s')) !! 3%nat = Some (Q2Qc 10) ∧
        bs_n_violations (bystructure (_summary_data s')) !! 3%nat = Some (Q2Qc 2).
Proof.
  destruct (set_structure_total Scenario.cfg Sample.store Sample.io Scenario.files 3
              (setup_poller Scenario.cfg Sample.store))
    as (s' & Hrun & _); [apply setup_poller_inv|vm_compute; reflexivity|].
  exists s'. split; [exact Hrun|].
  destruct (set_structure_records_member_counts _ _ _ _ _ Hrun) as (Hi & Hv & _);
    [split; vm_compute; reflexivity..|].
  rewrite Hi, Hv, !list_lookup_insert_eq by (simpl; lia).
  split; f_equal; apply Qc_is_canon; vm_compute; reflexivity.
Defined.

(** ** [reduce] and [intermediate_name] *)

Lemma pack_floor (n : nat) :
  (1 ≤ n)%nat →
  Qfloor (PACK_SIZE / Qc_of_nat n / Qc_of_Z 3)%Qc = (1000000 / (3 * Z.of_nat n))%Z.
Proof.
  intros Hn.
  destruct (Z.of_nat n) as [|q|q] eqn:Eq; [lia| |lia].
  assert (E : (this (PACK_SIZE / Qc_of_nat n / Qc_of_Z 3)%Qc
               == 1000000 # (3 * q))%Q).
  { unfold Qcdiv, Qcmult, Qcinv, PACK_SIZE, Qc_of_nat, Qc_of_Z.
    cbn [this Q2Qc]. rewrite !Qred_correct. rewrite Eq.
    unfold Qeq, Qmult, Qinv, inject_Z. cbn [Qnum Qden Z.mul Pos.mul].
    lia. }
  rewrite (Qfloor_comp _ _ E). unfold Qfloor.
  f_equal.
Qed.

(** X18. The chunk length handed to the repacking process never exceeds
    the number of beads, is at least 1 when there are beads, and, when
    one bead of all members fits in [PACK_SIZE] coordinates
    ([3 * n_struct <= 10^6]), the whole chunk does
    ([3 * pack_beads * n_struct <= 10^6]). *)
Theorem pack_beads_bounds (n_struct n_beads pb : nat) :
  pack_beads n_struct n_beads = Some pb →
  (pb ≤ n_beads)%nat ∧
  ((1 ≤ n_beads)%nat → (1 ≤ pb)%nat) ∧
  ((3 * Z.of_nat n_struct ≤ 1000000)%Z →
     (3 * Z.of_nat pb * Z.of_nat n_struct ≤ 1000000)%Z).
Proof.
  unfold pack_beads. destruct (Nat.eqb_spec n_struct 0) as [->|Hn]; [done|].
  rewrite pack_floor by lia. intros [= <-].
  split; [lia|]. split; [lia|]. intros Hsmall.
  assert (Hk : (3 * Z.of_nat n_struct * (1000000 / (3 * Z.of_nat n_struct))
                ≤ 1000000)%Z)
    by (apply Z.mul_div_le; lia).
  assert (H1 : (1 ≤ 1000000 / (3 * Z.of_nat n_struct))%Z)
    by (apply Z.div_le_lower_bound; lia).
  nia.
Qed.

Lemma pack_beads_bounds_witness :
  pack_beads 1000 5000 = Some 333%nat ∧ (3 * 333 * 1000 ≤ 1000000)%Z.
Proof.
  assert (E : pack_beads 1000 5000 = Some 333%nat) by (vm_compute; reflexivity).
  split; [exact E|].
  destruct (pack_beads_bounds 1000 5000 333 E) as (_ & _ & H).
  apply H. lia.
Defined.

(** *** Paths *)

Lemma append_assoc' (s t u : string) : (s +:+ t) +:+ u = s +:+ (t +:+ u).
Proof.
  induction s as [|c s IH]; [done|].
  change (String c ((s +:+ t) +:+ u) = String c (s +:+ (t +:+ u))).
  by rewrite IH.
Qed.

Lemma append_inj_l (s t u : string) : s +:+ t = s +:+ u → t = u.
Proof. apply (inj (String.append s)). Qed.

Lemma concat_cons_ne (sep x y : string) (l : list string) :
  String.concat sep (x :: y :: l) = x +:+ sep +:+ String.concat sep (y :: l).
Proof. done. Qed.

Lemma additional_data_last (rt : Runtime) (uid : string) :
  ∃ l, additional_data rt uid = l ++ [uid].
Proof.
  unfold additional_data. eexists. by rewrite !(assoc_L (++)).
Qed.

Lemma intermediate_name_prefix (cfg : Cfg) (rt : Runtime) (uid : string) :
  ∃ rest, intermediate_name cfg rt uid = structure_output cfg +:+ "." +:+ rest.
Proof.
  unfold intermediate_name.
  destruct (additional_data_last rt uid) as [l ->].
  destruct l as [|y l]; eexists; cbn [app]; apply concat_cons_ne.
Qed.

Lemma hss_suffix_ne_T (s : string) : "." +:+ s +:+ ".hss" ≠ ".T".
Proof.
  intros E. apply (f_equal String.length) in E.
  rewrite !length_append in E. cbn in E. lia.
Qed.

Lemma hss_suffix_ne_swap (s : string) : "." +:+ s +:+ ".hss" ≠ ".T.swap".
Proof.
  intros E. pose proof (f_equal String.length E) as Hlen.
  rewrite !length_append in Hlen. cbn in Hlen.
  destruct s as [|a [|b [|c s]]]; cbn in Hlen; try lia.
  vm_compute in E. discriminate E.
Qed.

Lemma snapshot_path_ne_output cfg rt uid :
  snapshot_path cfg rt uid ≠ structure_output cfg.
Proof.
  unfold snapshot_path. destruct (intermediate_name_prefix cfg rt uid) as [rest ->].
  intros E. apply (f_equal String.length) in E.
  rewrite !length_append in E. cbn in E. lia.
Qed.

Lemma snapshot_path_ne_hssfilename cfg rt uid :
  snapshot_path cfg rt uid ≠ hssfilename cfg.
Proof.
  unfold snapshot_path, hssfilename.
  destruct (intermediate_name_prefix cfg rt uid) as [rest ->].
  rewrite !append_assoc'. intros E%append_inj_l.
  by apply (hss_suffix_ne_T rest).
Qed.

Lemma snapshot_path_ne_swapfilename cfg rt uid :
  snapshot_path cfg rt uid ≠ swapfilename cfg.
Proof.
  unfold snapshot_path, swapfilename, hssfilename.
  destruct (intermediate_name_prefix cfg rt uid) as [rest ->].
  rewrite !append_assoc'. intros E%append_inj_l.
  by apply (hss_suffix_ne_swap rest).
Qed.

(** X19. Whatever the runtime entries and the step's uid, the snapshot
    path [intermediate_name() + '.hss'] differs from the output store, the
    working store and the swap file, so the snapshot copy never has its
    source as its target and overwrites none of them. *)
Theorem snapshot_path_fresh (cfg : Cfg) (rt : Runtime) (uid : string) :
  snapshot_path cfg rt uid ≠ structure_output cfg ∧
  snapshot_path cfg rt uid ≠ hssfilename cfg ∧
  snapshot_path cfg rt uid ≠ swapfilename cfg.
Proof.
  split; [apply snapshot_path_ne_output|].
  split; [apply snapshot_path_ne_hssfilename | apply snapshot_path_ne_swapfilename].
Qed.

(** X20. When the repacking process exits with code 0 and has written
    its output [f], [reduce] returns normally: the output store is [f], the
    swap file is gone, the working store is left as it was, the snapshot
    holds [f] when intermediate structures are kept, every other store
    file is unchanged, and so are the ready and result files. *)
Theorem reduce_success
    (h5repack : HssFile → nat → nat → Z * option HssFile)
    (cfg : Cfg) (rt : Runtime) (uid : string) (fs : FS)
    (hss f : HssFile) (pb : nat) :
  hss_files fs !! hssfilename cfg = Some hss →
  pack_beads (nstruct hss) (nbead hss) = Some pb →
  h5repack hss pb (nstruct hss) = (0%Z, Some f) →
  ∃ fs',
    reduce h5repack (intermediate_name cfg rt uid) cfg fs = (Ok (), fs') ∧
    hss_files fs' !! structure_output cfg = Some f ∧
    hss_files fs' !! swapfilename cfg = None ∧
    hss_files fs' !! hssfilename cfg = Some hss ∧
    (keep_intermediate_structures cfg = true →
       hss_files fs' !! snapshot_path cfg rt uid = Some f) ∧
    (∀ p, p ≠ structure_output cfg → p ≠ swapfilename cfg →
          (keep_intermediate_structures cfg = true → p ≠ snapshot_path cfg rt uid) →
          hss_files fs' !! p = hss_files fs !! p) ∧
    ready fs' = ready fs ∧ hms_files fs' = hms_files fs.
Proof.
  intros Hfile Hpack Hsub.
  pose proof (snapshot_path_ne_output cfg rt uid) as Ho.
  pose proof (snapshot_path_ne_hssfilename cfg rt uid) as Hw.
  pose proof (snapshot_path_ne_swapfilename cfg rt uid) as Hs.
  pose proof (swapfilename_ne_hssfilename cfg) as Hsw.
  pose proof (swapfilename_ne_output cfg) as Hso.
  assert (Hwo : hssfilename cfg ≠ structure_output cfg).
  { unfold hssfilename. intros E. apply (f_equal String.length) in E.
    rewrite length_append in E. cbn in E. lia. }
  unfold snapshot_path in *.
  unfold reduce. rewrite Hfile, Hpack, Hsub. cbn [negb Z.eqb with_hss hss_files].
  rewrite lookup_insert_eq.
  destruct (keep_intermediate_structures cfg) eqn:Hkeep; cbn [hss_files with_hss].
  - rewrite lookup_insert_ne by done. rewrite lookup_insert_eq.
    eexists. split; [reflexivity|]. cbn [hss_files ready hms_files with_hss].
    split; [by rewrite lookup_insert_eq|].
    split; [by rewrite lookup_insert_ne, lookup_delete_eq|].
    split.
    { rewrite lookup_insert_ne, lookup_delete_ne, !lookup_insert_ne by done. done. }
    split.
    { intros _. rewrite lookup_insert_ne, lookup_delete_ne by done.
      by rewrite lookup_insert_eq. }
    split; [|done].
    intros p Hp1 Hp2 Hp3. specialize (Hp3 eq_refl).
    by rewrite lookup_insert_ne, lookup_delete_ne, !lookup_insert_ne.
  - rewrite lookup_insert_eq.
    eexists. split; [reflexivity|]. cbn [hss_files ready hms_files with_hss].
    split; [by rewrite lookup_insert_eq|].
    split; [by rewrite lookup_insert_ne, lookup_delete_eq|].
    split.
    { rewrite lookup_insert_ne, lookup_delete_ne, !lookup_insert_ne by done. done. }
    split; [done|].
    split; [|done].
    intros p Hp1 Hp2 _.
    by rewrite lookup_insert_ne, lookup_delete_ne, !lookup_insert_ne.
Qed.

Lemma reduce_success_witness :
  ∃ fs',
    reduce Sample.h5repack_ok (intermediate_name Sample3.cfg_keep Sample3.rt Sample3.uid)
      Sample3.cfg_keep Sample.fs_reduce = (Ok (), fs') ∧
    hss_files fs' !! "igm-model.hss.sigma_0.0500.iter_2.a1b2.hss" = Some Sample.store ∧
    hss_files fs' !! "igm-model.hss.T.swap" = None.
Proof.
  destruct (reduce_success Sample.h5repack_ok Sample3.cfg_keep Sample3.rt Sample3.uid
              Sample.fs_reduce Sample.store Sample.store 2)
    as (fs' & Hrun & _ & Hswap & _ & Hsnap & _);
    [vm_compute; reflexivity | vm_compute; reflexivity | reflexivity |].
  exists fs'. split; [exact Hrun|]. split; [|exact Hswap].
  exact (Hsnap eq_refl).
Defined.
